(** * OneNote-To-Markdown exporter: a shallow embedding of [onenote_exporter.py]

    The development follows the source file function by function:
    [call_graph_with_retry], [call_graph_paginated], [download_media],
    [process_html_content], [export_page] and [export_notebooks] of the class
    [OneNoteExporter].  Python values that come out of [response.json()] are
    modelled by the type [json]; text is a list of characters; every contact
    with the outside (HTTP, file system, clock, sleeping, logging) is an
    [event] appended to a history, and the outside answers as a function of
    the history so far. *)

From Stdlib Require Import List ZArith Lia Bool Ascii String DecimalString.
Import ListNotations.
Local Open Scope Z_scope.

(** ** Text *)

Module Str.

(** A Python [str]: a sequence of characters.  Characters are the 256 code
    points of [ascii] (Latin-1), which is what [requests] produces for header
    values; every character the source tests for is below 128. *)
Definition str := list ascii.

Definition py (s : string) : str := list_ascii_of_string s.

Fixpoint str_eqb (a b : str) : bool :=
  match a, b with
  | [], [] => true
  | x :: a', y :: b' => Ascii.eqb x y && str_eqb a' b'
  | _, _ => false
  end.

(** [s.startswith(p)] *)
Fixpoint startswith (s p : str) : bool :=
  match p, s with
  | [], _ => true
  | c :: p', d :: s' => Ascii.eqb c d && startswith s' p'
  | _ :: _, [] => false
  end.

(** [sub in s] *)
Fixpoint str_in (sub s : str) : bool :=
  startswith s sub ||
  match s with
  | [] => false
  | _ :: s' => str_in sub s'
  end.

(** [c in s] for a single character. *)
Definition chr_in (c : ascii) (s : str) : bool := existsb (Ascii.eqb c) s.

(** [s.replace(old, new)]: the occurrences of [old] are found left to right
    and do not overlap.  [skip] counts the characters of a found occurrence
    that are still to be passed over. *)
Fixpoint replace_from (old new : str) (skip : nat) (s : str) : str :=
  match s with
  | [] => []
  | c :: s' =>
    match skip with
    | S k => replace_from old new k s'
    | O => if startswith s old
           then new ++ replace_from old new (List.length old - 1) s'
           else c :: replace_from old new 0 s'
    end
  end.

Definition str_replace (s old new : str) : str :=
  match old with
  | [] => new ++ flat_map (fun c => c :: new) s
  | _ :: _ => replace_from old new 0 s
  end.

(** [s.count(sub)]: the number of non-overlapping occurrences. *)
Fixpoint count_from (sub : str) (skip : nat) (s : str) : nat :=
  match s with
  | [] => O
  | _ :: s' =>
    match skip with
    | S k => count_from sub k s'
    | O => if startswith s sub
           then S (count_from sub (List.length sub - 1) s')
           else count_from sub 0 s'
    end
  end.

Definition str_count (s sub : str) : nat :=
  match sub with
  | [] => S (List.length s)
  | _ :: _ => count_from sub 0 s
  end.

(** Python's white space, as [str.strip()] sees it. *)
Definition is_space (c : ascii) : bool :=
  let n := Z.of_nat (nat_of_ascii c) in
  ((9 <=? n) && (n <=? 13)) || ((28 <=? n) && (n <=? 32))
  || (n =? 133) || (n =? 160).

Fixpoint lstrip (s : str) : str :=
  match s with
  | c :: s' => if is_space c then lstrip s' else s
  | [] => []
  end.

Definition rstrip (s : str) : str := rev (lstrip (rev s)).

(** [s.strip()] *)
Definition strip (s : str) : str := rstrip (lstrip s).

(** [s.split('/')[-1]]: what follows the last [sep]. *)
Fixpoint after_last (sep : ascii) (s : str) : str :=
  match s with
  | [] => []
  | c :: s' => if chr_in sep s' then after_last sep s'
               else if Ascii.eqb c sep then s' else s
  end.

(** [str(n)] for an integer. *)
Definition str_of_Z (n : Z) : str :=
  py (NilZero.string_of_int (Z.to_int n)).

(** *** [int(s)] for a string [s], base 10 *)

Definition digit_val (c : ascii) : option Z :=
  let n := Z.of_nat (nat_of_ascii c) in
  if (48 <=? n) && (n <=? 57) then Some (n - 48) else None.

Definition is_digit (c : ascii) : bool :=
  match digit_val c with Some _ => true | None => false end.

(** Digits, with single underscores allowed between two digits. *)
Fixpoint int_digits (acc : Z) (after_digit : bool) (s : str) : option Z :=
  match s with
  | [] => if after_digit then Some acc else None
  | c :: s' =>
    match digit_val c with
    | Some d => int_digits (10 * acc + d) true s'
    | None =>
      if Ascii.eqb c "_" && after_digit then int_digits acc false s' else None
    end
  end.

(** The white space [int()] passes over at both ends of the text: tab, line
    feed, vertical tab, form feed, carriage return and space, and the two
    spaces above code 127 (133 and 160), which it reads as spaces.  The
    separators 28 to 31, which [str.strip()] removes, are not among them. *)
Definition is_int_space (c : ascii) : bool :=
  let n := Z.of_nat (nat_of_ascii c) in
  ((9 <=? n) && (n <=? 13)) || (n =? 32) || (n =? 133) || (n =? 160).

Fixpoint lstrip_with (sp : ascii -> bool) (s : str) : str :=
  match s with
  | c :: s' => if sp c then lstrip_with sp s' else s
  | [] => []
  end.

Definition strip_with (sp : ascii -> bool) (s : str) : str :=
  rev (lstrip_with sp (rev (lstrip_with sp s))).

(** [sys.int_max_str_digits], as Python sets it: the longest run of digits
    that [int()] reads and that [str()] writes. *)
Definition INT_MAX_STR_DIGITS : Z := 4300.

Definition count_digits (s : str) : Z :=
  Z.of_nat (List.length (filter is_digit s)).

(** The digits after the sign.  More than [INT_MAX_STR_DIGITS] digits are
    refused, leading zeros counted. *)
Definition int_body (r : str) : option Z :=
  if INT_MAX_STR_DIGITS <? count_digits r then None
  else int_digits 0 false r.

(** [None] stands for the [ValueError] of [int()]: [invalid literal for
    int() with base 10], or the digit limit exceeded. *)
Definition int_of_str (s : str) : option Z :=
  match strip_with is_int_space s with
  | "+"%char :: r => int_body r
  | "-"%char :: r => option_map Z.opp (int_body r)
  | t => int_body t
  end.

(** Whether [str(n)] writes the integer [n]: it raises [ValueError] when [n]
    has more than [INT_MAX_STR_DIGITS] digits.  (The first test settles the
    numbers below 2^14284, which is below 10^4300, without the power.) *)
Definition str_of_int_ok (n : Z) : bool :=
  if Z.log2 (Z.abs n) <? 14284 then true
  else Z.abs n <? 10 ^ INT_MAX_STR_DIGITS.
Arguments str_of_int_ok : simpl never.

End Str.
Import Str.

(** ** Python values, exceptions, and the outside world *)

(** What [response.json()] can return.  [JNull] is Python's [None]; a dict is
    kept as its items in insertion order.  Numbers are integers here. *)
#[warnings="-register-all"]
Inductive json :=
| JNull
| JBool (b : bool)
| JNum (n : Z)
| JStr (s : str)
| JArr (items : list json)
| JObj (items : list (str * json)).

Definition dict := list (str * json).

Fixpoint dict_lookup (d : dict) (k : str) : option json :=
  match d with
  | [] => None
  | (k', v) :: d' => if str_eqb k' k then Some v else dict_lookup d' k
  end.

(** [k in d] *)
Definition dict_mem (d : dict) (k : str) : bool :=
  match dict_lookup d k with Some _ => true | None => false end.

(** [d.get(k, default)] *)
Definition dict_get (d : dict) (k : str) (default : json) : json :=
  match dict_lookup d k with Some v => v | None => default end.

(** The exceptions the program can meet; all are subclasses of [Exception].
    [HTTPError] is what [raise_for_status] raises and carries the response's
    status code and body; [RequestError] is any other
    [requests.exceptions.RequestException] (connection reset, timeout, DNS,
    a body that is not JSON). *)
Inductive exn :=
| HTTPError (status : Z) (body : str)
| RequestError (detail : str)
| ValueError
| TypeError
| AttributeError
| KeyError (key : str)
| OverflowError
| OSError (detail : str)
| OtherError (detail : str).

(** [isinstance(e, requests.exceptions.RequestException)] *)
Definition is_RequestException (e : exn) : bool :=
  match e with
  | HTTPError _ _ | RequestError _ => true
  | _ => false
  end.

(** [isinstance(e, Exception)] *)
Definition is_Exception (e : exn) : bool := true.

Inductive result (A : Type) :=
| Success (a : A)
| Failure (e : exn).
Arguments Success {A} a.
Arguments Failure {A} e.

(** A [requests.Response], as far as the program looks at it. *)
Record response := {
  status_code : Z;
  retry_after : option str;        (* headers.get('Retry-After') *)
  content_type : option str;       (* headers.get('content-type') *)
  text : str;                      (* response.text *)
  json_body : result json;         (* response.json() *)
  chunks : list str;               (* response.iter_content(...) *)
  stream_error : option exn        (* raised after the last chunk, if any *)
}.

(** The three ways [session.get] is called. *)
Record request := {
  req_url : json;
  req_stream : bool;
  req_accept : option str
}.

Definition plain_get (url : json) : request :=
  {| req_url := url; req_stream := false; req_accept := None |}.
Definition stream_get (url : str) : request :=
  {| req_url := JStr url; req_stream := true; req_accept := None |}.
Definition html_get (url : str) : request :=
  {| req_url := JStr url; req_stream := false;
     req_accept := Some (py "text/html") |}.

(** A [pathlib.Path], as its parts. *)
Definition path := list str.

Inductive fs_op :=
| Mkdir (p : path)                       (* mkdir(parents=True, exist_ok=True) *)
| OpenWrite (p : path) (binary : bool)   (* open(p, 'w') / open(p, 'wb') *)
| WriteData (p : path) (data : str)      (* f.write(data) *)
| CloseFile (p : path).

Inductive level := INFO | WARNING | ERROR.

(** The log lines of the source, by their content. *)
Inductive logmsg :=
| RateLimited (retry_after : Z)
| ServerError (status delay : Z)
| GraphFailed (max_retries : Z) (e : exn)
| RequestFailed (e : exn) (delay : Z)
| FetchingNextPage
| DownloadedMedia (filename : str)
| MediaFailed (media_url : str) (e : exn)
| ExportedPage (page_title : json)
| PageFailed (page_title : json) (e : exn)
| FetchingNotebooks
| FoundNotebooks (n : nat)
| ProcessingNotebook (name : json)
| FoundSections (n : nat) (name : json)
| ProcessingSection (name : json)
| FoundPages (n : nat) (name : json)
| ExportFailed (e : exn).

(** What the program does to the outside, in order.  [ECall] marks the entry
    into [call_graph_with_retry]. *)
Inductive event :=
| ECall (url : json) (max_retries : Z)
| EGet (rq : request)
| ESleep (seconds : Z)
| ELog (lvl : level) (msg : logmsg)
| EFs (op : fs_op)
| EClock.

Definition history := list event.

(** The outside world and the library functions the exporter relies on.
    Answers may depend on everything the program has done so far. *)
Record world := {
  http_get : history -> request -> result response;   (* session.get *)
  fs_apply : history -> fs_op -> option exn;          (* None: it worked *)
  os_sleep : history -> Z -> option exn;              (* None: it slept *)
  strftime : history -> str;                          (* time.strftime(...) *)
  h2m_handle : str -> result str;                     (* HTML2Text().handle *)
  urlparse_path : str -> result str;                  (* urlparse(u).path *)
  py_hash : str -> Z;                                 (* hash(u) *)
  py_format : json -> str                             (* str(v) in an f-string *)
}.

(** ** Computations: history in, outcome and new events out *)

Inductive outcome (A : Type) :=
| Ok (a : A)
| Raise (e : exn)
| OutOfFuel.        (* the model's bound on an unbounded loop was reached *)
Arguments Ok {A} a.
Arguments Raise {A} e.
Arguments OutOfFuel {A}.

Definition M (A : Type) := history -> outcome A * list event.

Definition ret {A} (a : A) : M A := fun _ => (Ok a, []).

Definition bind {A B} (m : M A) (f : A -> M B) : M B :=
  fun h =>
    match m h with
    | (Ok a, es) => let (r, es') := f a (h ++ es) in (r, es ++ es')
    | (Raise e, es) => (Raise e, es)
    | (OutOfFuel, es) => (OutOfFuel, es)
    end.

Definition raise {A} (e : exn) : M A := fun _ => (Raise e, []).

Definition emit (ev : event) : M unit := fun _ => (Ok tt, [ev]).

(** [try: m  except <catches> as e: handler e] *)
Definition try_except {A} (m : M A) (catches : exn -> bool)
    (handler : exn -> M A) : M A :=
  fun h =>
    match m h with
    | (Raise e, es) =>
      if catches e
      then let (r, es') := handler e (h ++ es) in (r, es ++ es')
      else (Raise e, es)
    | other => other
    end.

Definition of_result {A} (r : result A) : M A :=
  match r with Success a => ret a | Failure e => raise e end.

(** Emit the given events, in order. *)
Definition emits (evs : list event) : M unit := fun _ => (Ok tt, evs).

(** A computation that comes to an end within the model, from any history. *)
Definition finishes {A} (m : M A) : Prop :=
  forall h, fst (m h) <> OutOfFuel.

Notation "x <- c1 ;; c2" := (bind c1 (fun x => c2))
  (at level 61, c1 at next level, right associativity).
Notation "c1 ;; c2" := (bind c1 (fun _ => c2))
  (at level 61, right associativity).

(** The events of a run that are sleeps, GETs, entries into the Caller. *)
Definition sleeps (es : list event) : list Z :=
  flat_map (fun ev => match ev with ESleep d => [d] | _ => [] end) es.
Definition gets (es : list event) : list request :=
  flat_map (fun ev => match ev with EGet rq => [rq] | _ => [] end) es.
Definition calls (es : list event) : list json :=
  flat_map (fun ev => match ev with ECall u _ => [u] | _ => [] end) es.

(** ** Regular expressions, as [re] runs them *)

Module Re.

(** The fragment of pattern syntax the source uses.  Repetition applies to a
    character class and is greedy; groups are not nested. *)
Inductive re :=
| Lit (s : str)                  (* literal text *)
| OneOf (cls : ascii -> bool)    (* [...] *)
| Many0 (cls : ascii -> bool)    (* [...]* *)
| Many1 (cls : ascii -> bool)    (* [...]+ *)
| Group (r : re)                 (* ( ... ) *)
| Seq (r1 r2 : re).

Section Matcher.

Context {T : Type}.

(** [cls*] followed by [k]: the longest run first, then shorter ones. *)
Fixpoint greedy (cls : ascii -> bool) (k : str -> option T) (s : str)
    : option T :=
  match s with
  | c :: s' =>
    if cls c
    then match greedy cls k s' with
         | Some r => Some r
         | None => k s
         end
    else k s
  | [] => k []
  end.

(** Backtracking match of [r] at the start of [s]; [k] is what has to match
    after it and receives the rest of the text and the groups closed so far. *)
Fixpoint rmatch (r : re) (s : str) (caps : list str)
    (k : str -> list str -> option T) : option T :=
  match r with
  | Lit l => if startswith s l then k (skipn (List.length l) s) caps else None
  | OneOf cls =>
    match s with
    | c :: s' => if cls c then k s' caps else None
    | [] => None
    end
  | Many0 cls => greedy cls (fun s' => k s' caps) s
  | Many1 cls =>
    match s with
    | c :: s' => if cls c then greedy cls (fun s' => k s' caps) s' else None
    | [] => None
    end
  | Group r' =>
    rmatch r' s caps
      (fun s' caps' =>
         k s' (caps' ++ [firstn (List.length s - List.length s') s]))
  | Seq r1 r2 => rmatch r1 s caps (fun s' caps' => rmatch r2 s' caps' k)
  end.

End Matcher.

(** [re.match]: the groups and the text after the match. *)
Definition match_at (r : re) (s : str) : option (list str * str) :=
  rmatch r s [] (fun s' caps => Some (caps, s')).

(** [re.finditer]: matches left to right, not overlapping; each is given by
    its groups.  (The patterns here never match the empty text.) *)
Fixpoint finditer_from (r : re) (skip : nat) (s : str) : list (list str) :=
  match s with
  | [] => []
  | _ :: s' =>
    match skip with
    | S k => finditer_from r k s'
    | O =>
      match match_at r s with
      | Some (caps, rest) =>
        caps :: finditer_from r (List.length s - List.length rest - 1) s'
      | None => finditer_from r 0 s'
      end
    end
  end.

Definition finditer (r : re) (s : str) : list (list str) :=
  finditer_from r 0 s.

(** [match.group(1)] *)
Definition group1 (caps : list str) : str := nth 0 caps [].

End Re.

(** The data written to files, with the file's path. *)
Definition writes (es : list event) : list (path * str) :=
  flat_map (fun ev => match ev with
                      | EFs (WriteData p d) => [(p, d)]
                      | _ => []
                      end) es.

(** What the log says about whole pages: the title shown, and the exception
    when the page failed. *)
Definition page_reports (es : list event) : list (json * option exn) :=
  flat_map (fun ev => match ev with
                      | ELog _ (ExportedPage t) => [(t, None)]
                      | ELog _ (PageFailed t e) => [(t, Some e)]
                      | _ => []
                      end) es.

(** A computation that reports no page. *)
Definition quiet {A} (m : M A) : Prop :=
  forall h, page_reports (snd (m h)) = [].

(** A computation that comes to an end and reports one page when it
    returns, none when it raises. *)
Definition reports_once {A} (m : M A) : Prop :=
  forall h,
    match fst (m h) with
    | Ok _ => List.length (page_reports (snd (m h))) = 1%nat
    | Raise _ => page_reports (snd (m h)) = []
    | OutOfFuel => False
    end.

Definition is_dict (v : json) : bool :=
  match v with JObj _ => true | _ => false end.

(** ** The exporter *)

Definition is_empty (s : str) : bool :=
  match s with [] => true | _ :: _ => false end.

Definition nl : str := [ascii_of_nat 10].

(** The double quote character. *)
Definition dquote : ascii := ascii_of_nat 34.

Definition is_quote (c : ascii) : bool :=
  Ascii.eqb c dquote || Ascii.eqb c "'"%char.
Definition not_quote (c : ascii) : bool := negb (is_quote c).
Definition not_gt (c : ascii) : bool := negb (Ascii.eqb c ">"%char).

(** The image pattern of [process_html_content]: the text [<img], one or
    more characters other than [>], the text [src=], a single or double
    quote, group 1 made of one or more characters that are not quotes, a
    quote, any characters other than [>], and [>]. *)
Definition img_pattern : Re.re :=
  Re.Seq (Re.Lit (py "<img"))
 (Re.Seq (Re.Many1 not_gt)
 (Re.Seq (Re.Lit (py "src="))
 (Re.Seq (Re.OneOf is_quote)
 (Re.Seq (Re.Group (Re.Many1 not_quote))
 (Re.Seq (Re.OneOf is_quote)
 (Re.Seq (Re.Many0 not_gt)
         (Re.Lit (py ">")))))))).

(** The character class of the path patterns: the nine characters
    less-than, greater-than, colon, double quote, slash, backslash, bar,
    question mark and star. *)
Definition illegal (c : ascii) : bool :=
  existsb (Ascii.eqb c)
    ["<"%char; ">"%char; ":"%char; dquote; "/"%char; "\"%char; "|"%char;
     "?"%char; "*"%char].

(** [re.sub(class, '_', s)] for that class. *)
Definition sanitize (s : str) : str :=
  map (fun c => if illegal c then "_"%char else c) s.

(** [os.path.basename(p)] *)
Definition basename (p : str) : str := after_last "/" p.

(** The parts of a relative path text: split at [/], without empty parts and
    without [.]. *)
Fixpoint split_on (sep : ascii) (cur : str) (s : str) : list str :=
  match s with
  | [] => [rev cur]
  | c :: s' =>
    if Ascii.eqb c sep then rev cur :: split_on sep [] s'
    else split_on sep (c :: cur) s'
  end.

Definition path_parts (name : str) : list str :=
  filter (fun part => negb (is_empty part || str_eqb part (py ".")))
         (split_on "/" [] name).

(** [p / name], for a [name] that does not start with [/]. *)
Definition path_join (p : path) (name : str) : path := p ++ path_parts name.

Definition MAX_RETRIES : Z := 3.
Definition BASE_DELAY : Z := 1.

(** [range(n)] *)
Definition py_range (n : Z) : list Z := map Z.of_nat (seq 0 (Z.to_nat n)).

(** How one pass through the body of the retry loop ends. *)
Inductive ctl :=
| Continue
| Return (v : json).

Section Exporter.

Variable W : world.

Definition session_get (rq : request) : M response :=
  fun h =>
    match http_get W h rq with
    | Success r => (Ok r, [EGet rq])
    | Failure e => (Raise e, [EGet rq])
    end.

(** The longest sleep, in whole seconds: [time.sleep] counts nanoseconds in
    a signed 64-bit number (as CPython does on a 64-bit Unix). *)
Definition SLEEP_MAX : Z := Eval cbv in (2 ^ 63 - 1) / 10 ^ 9.

(** [time.sleep(secs)] for an integer.  The length is first turned into
    nanoseconds, which is an [OverflowError] beyond [SLEEP_MAX] on either
    side of zero; then a negative length is a [ValueError]; then the
    platform's timer is asked, which can refuse a length with an error of its
    own (a deadline past what the clock can hold, for one). *)
Definition time_sleep (secs : Z) : M unit :=
  if (secs <? - SLEEP_MAX) || (SLEEP_MAX <? secs) then raise OverflowError
  else if secs <? 0 then raise ValueError
  else fun h =>
         match os_sleep W h secs with
         | None => (Ok tt, [ESleep secs])
         | Some e => (Raise e, [])
         end.

(** An integer shown in an f-string: [str(n)] is taken, which can raise.
    (A status code has three digits; it is shown as it is.) *)
Definition fstr_int (n : Z) : M unit :=
  if str_of_int_ok n then ret tt else raise ValueError.

Definition log (lvl : level) (msg : logmsg) : M unit := emit (ELog lvl msg).

(** [response.raise_for_status()] *)
Definition raise_for_status (r : response) : M unit :=
  if (400 <=? status_code r) && (status_code r <? 600)
  then raise (HTTPError (status_code r) (text r))
  else ret tt.

(** [int(v)] for a header value. *)
Definition py_int (v : str) : M Z :=
  match int_of_str v with
  | Some n => ret n
  | None => raise ValueError
  end.

(** [BASE_DELAY * (2 ** attempt)] *)
Definition backoff (attempt : Z) : Z := BASE_DELAY * 2 ^ attempt.

(** *** [call_graph_with_retry] *)

(** The [try] block of one attempt. *)
Definition attempt_try (url : json) (attempt : Z) : M ctl :=
  response <- session_get (plain_get url) ;;
  if status_code response =? 429 then
    retry_after <- match retry_after response with
                   | Some v => py_int v
                   | None => ret (backoff attempt)
                   end ;;
    fstr_int retry_after ;;
    log WARNING (RateLimited retry_after) ;;
    time_sleep retry_after ;;
    ret Continue
  else if 500 <=? status_code response then
    let delay := backoff attempt in
    fstr_int delay ;;
    log WARNING (ServerError (status_code response) delay) ;;
    time_sleep delay ;;
    ret Continue
  else
    raise_for_status response ;;
    v <- of_result (json_body response) ;;
    ret (Return v).

(** The [except requests.exceptions.RequestException as e] block. *)
Definition attempt_except (max_retries attempt : Z) (e : exn) : M ctl :=
  if attempt =? max_retries then
    fstr_int max_retries ;;
    log ERROR (GraphFailed max_retries e) ;;
    raise e
  else
    let delay := backoff attempt in
    fstr_int delay ;;
    log WARNING (RequestFailed e delay) ;;
    time_sleep delay ;;
    ret Continue.

(** The whole [try ... except] statement of one attempt. *)
Definition attempt (url : json) (max_retries a : Z) : M ctl :=
  try_except (attempt_try url a) is_RequestException
             (attempt_except max_retries a).

(** [for attempt in attempts: ...]; when the loop runs out the function ends
    without a [return], that is, it returns [None]. *)
Fixpoint retry_loop (url : json) (max_retries : Z) (attempts : list Z)
    : M json :=
  match attempts with
  | [] => ret JNull
  | a :: rest =>
    c <- attempt url max_retries a ;;
    match c with
    | Continue => retry_loop url max_retries rest
    | Return v => ret v
    end
  end.

Definition call_graph_with_retry (url : json) (max_retries : Z) : M json :=
  emit (ECall url max_retries) ;;
  retry_loop url max_retries (py_range (max_retries + 1)).

(** *** [call_graph_paginated] *)

Definition nextLink : str := py "@odata.nextLink".

(** [iter(v)] *)
Definition py_iter (v : json) : M (list json) :=
  match v with
  | JArr l => ret l
  | JStr s => ret (map (fun c => JStr [c]) s)
  | JObj d => ret (map (fun kv => JStr (fst kv)) d)
  | _ => raise TypeError
  end.

(** [len(v)] *)
Definition py_len (v : json) : M nat :=
  match v with
  | JArr l => ret (List.length l)
  | JStr s => ret (List.length s)
  | JObj d => ret (List.length d)
  | _ => raise TypeError
  end.

(** [results.extend(items)]; only a list has [extend]. *)
Definition list_extend (results items : json) : M json :=
  match results with
  | JArr l => xs <- py_iter items ;; ret (JArr (l ++ xs))
  | _ => raise AttributeError
  end.

(** [v.get(k, default)]; only a dict has [get]. *)
Definition get_method (v : json) (k : str) (default : json) : M json :=
  match v with
  | JObj d => ret (dict_get d k default)
  | _ => raise AttributeError
  end.

(** [v[k]] for a text key [k]. *)
Definition subscript (v : json) (k : str) : M json :=
  match v with
  | JObj d =>
    match dict_lookup d k with
    | Some x => ret x
    | None => raise (KeyError k)
    end
  | _ => raise TypeError
  end.

(** [while "@odata.nextLink" in data: ...].  The loop has no bound of its
    own; [fuel] bounds the number of continuation links followed. *)
Fixpoint paginate (fuel : nat) (data : dict) (results : json) : M json :=
  if dict_mem data nextLink then
    match fuel with
    | O => fun _ => (OutOfFuel, [])
    | S fuel' =>
      log INFO FetchingNextPage ;;
      next <- call_graph_with_retry (dict_get data nextLink JNull)
                                    MAX_RETRIES ;;
      match next with
      | JObj data' =>
        results' <- list_extend results
                      (dict_get data' (py "value") (JArr [])) ;;
        paginate fuel' data' results'
      | _ => raise AttributeError
      end
    end
  else ret results.

Definition call_graph_paginated (fuel : nat) (url : json) : M json :=
  data <- call_graph_with_retry url MAX_RETRIES ;;
  match data with
  | JObj d => paginate fuel d (dict_get d (py "value") (JArr []))
  | _ => raise AttributeError
  end.

(** *** [download_media] *)

Definition fs (op : fs_op) : M unit :=
  fun h =>
    match fs_apply W h op with
    | None => (Ok tt, [EFs op])
    | Some e => (Raise e, [EFs op])
    end.

(** [with open(p, mode) as f: body]: the file is closed on the way out,
    also when [body] raises. *)
Definition with_open {A} (p : path) (binary : bool) (body : M A) : M A :=
  fs (OpenWrite p binary) ;;
  fun h =>
    let (r, es) := body h in
    let (c, es') := fs (CloseFile p) (h ++ es) in
    (match r, c with
     | OutOfFuel, _ => OutOfFuel
     | _, Raise e' => Raise e'
     | _, OutOfFuel => OutOfFuel
     | r, Ok _ => r
     end, es ++ es').

Fixpoint write_chunks (p : path) (cs : list str) : M unit :=
  match cs with
  | [] => ret tt
  | c :: cs' => fs (WriteData p c) ;; write_chunks p cs'
  end.

(** The local file name: the URL's base name when it has an extension, else
    a name made from the content type and the URL's hash. *)
Definition media_filename (media_url : str) (r : response) : M str :=
  parsed_path <- of_result (urlparse_path W media_url) ;;
  let filename := basename parsed_path in
  if is_empty filename || negb (chr_in "." filename) then
    let ctype := match content_type r with Some c => c | None => [] end in
    let h := str_of_Z (py_hash W media_url mod 10000) in
    if str_in (py "image/") ctype then
      let ext := after_last "/" ctype in
      ret (py "image_" ++ h ++ py "." ++ ext)
    else
      ret (py "media_" ++ h ++ py ".bin")
  else ret filename.

Definition download_try (media_url : str) (output_path : path) : M str :=
  response <- session_get (stream_get media_url) ;;
  raise_for_status response ;;
  filename <- media_filename media_url response ;;
  let file_path := path_join output_path filename in
  with_open file_path true
    (write_chunks file_path (chunks response) ;;
     match stream_error response with
     | Some e => raise e
     | None => ret tt
     end) ;;
  log INFO (DownloadedMedia filename) ;;
  ret filename.

Definition download_media (media_url : str) (output_path : path) : M str :=
  try_except (download_try media_url output_path) is_Exception
    (fun e => log ERROR (MediaFailed media_url e) ;; ret []).

(** *** [process_html_content] *)

(** The [for match in re.finditer(...)] loop over the image sources found in
    the original text; [html] is the text as rewritten so far. *)
Fixpoint rehome (img_urls : list str) (html : str) (output_path : path)
    : M str :=
  match img_urls with
  | [] => ret html
  | img_url :: rest =>
    if startswith img_url (py "http") then
      filename <- download_media img_url output_path ;;
      if negb (is_empty filename)
      then rehome rest (str_replace html img_url filename) output_path
      else rehome rest html output_path
    else rehome rest html output_path
  end.

Definition img_urls (html : str) : list str :=
  map Re.group1 (Re.finditer img_pattern html).

Definition process_html_content (html : str) (output_path : path) : M str :=
  html' <- rehome (img_urls html) html output_path ;;
  of_result (h2m_handle W html').

(** *** [export_page] *)

(** A value inside an f-string. *)
Definition fmt (v : json) : str :=
  match v with
  | JStr s => s
  | _ => py_format W v
  end.

(** [v[:8]] *)
Definition slice8 (v : json) : M json :=
  match v with
  | JStr s => ret (JStr (firstn 8 s))
  | JArr l => ret (JArr (firstn 8 l))
  | _ => raise TypeError
  end.

(** [re.sub(class, '_', v)]; [v] has to be text. *)
Definition re_sub_illegal (v : json) : M str :=
  match v with
  | JStr s => ret (sanitize s)
  | _ => raise TypeError
  end.

(** The name of the page's file, without [.md]. *)
Definition page_stem (page_title page_id : json) : M str :=
  safe_title <- re_sub_illegal page_title ;;
  if is_empty (strip safe_title)
  then short <- slice8 page_id ;; ret (py "page_" ++ fmt short)
  else ret safe_title.

Definition clock : M str := fun h => (Ok (strftime W h), [EClock]).

Definition export_page_try (page : json) (section_path : path) : M unit :=
  page_id <- subscript page (py "id") ;;
  let content_url := py "https://graph.microsoft.com/v1.0/me/onenote/pages/"
                     ++ fmt page_id ++ py "/content" in
  response <- session_get (html_get content_url) ;;
  raise_for_status response ;;
  let html_content := text response in
  markdown_content <- process_html_content html_content section_path ;;
  page_title <- get_method page (py "title") (JStr (py "Untitled")) ;;
  safe_title <- page_stem page_title page_id ;;
  let md_file := path_join section_path (safe_title ++ py ".md") in
  with_open md_file false
    (fs (WriteData md_file (py "# " ++ fmt page_title ++ nl ++ nl)) ;;
     now <- clock ;;
     fs (WriteData md_file
           (py "*Exported from OneNote on " ++ now ++ py "*" ++ nl ++ nl)) ;;
     fs (WriteData md_file (py "---" ++ nl ++ nl)) ;;
     fs (WriteData md_file markdown_content)) ;;
  log INFO (ExportedPage page_title).

Definition export_page_except (page : json) (e : exn) : M unit :=
  shown <- get_method page (py "title") (JStr (py "Unknown")) ;;
  log ERROR (PageFailed shown e).

Definition export_page (page : json) (section_path : path) : M unit :=
  try_except (export_page_try page section_path) is_Exception
             (export_page_except page).

(** *** [export_notebooks] *)

Fixpoint for_each {A} (xs : list A) (body : A -> M unit) : M unit :=
  match xs with
  | [] => ret tt
  | x :: xs' => body x ;; for_each xs' body
  end.

(** [for page in pages: self.export_page(page, section_path)] *)
Definition export_pages (pages : list json) (section_path : path) : M unit :=
  for_each pages (fun page => export_page page section_path).

Definition graph : str := py "https://graph.microsoft.com/v1.0/me/onenote/".

Definition export_section (fuel : nat) (notebook_path : path)
    (section : json) : M unit :=
  section_name <- get_method section (py "displayName")
                             (JStr (py "Untitled")) ;;
  safe_section_name <- re_sub_illegal section_name ;;
  let section_path := path_join notebook_path safe_section_name in
  fs (Mkdir section_path) ;;
  log INFO (ProcessingSection section_name) ;;
  section_id <- subscript section (py "id") ;;
  let pages_url := graph ++ py "sections/" ++ fmt section_id ++ py "/pages" in
  pages <- call_graph_paginated fuel (JStr pages_url) ;;
  n <- py_len pages ;;
  log INFO (FoundPages n section_name) ;;
  items <- py_iter pages ;;
  export_pages items section_path.

Definition export_notebook (fuel : nat) (output_dir : path)
    (notebook : json) : M unit :=
  notebook_name <- get_method notebook (py "displayName")
                              (JStr (py "Untitled")) ;;
  safe_notebook_name <- re_sub_illegal notebook_name ;;
  let notebook_path := path_join output_dir safe_notebook_name in
  fs (Mkdir notebook_path) ;;
  log INFO (ProcessingNotebook notebook_name) ;;
  notebook_id <- subscript notebook (py "id") ;;
  let sections_url :=
    graph ++ py "notebooks/" ++ fmt notebook_id ++ py "/sections" in
  sections <- call_graph_paginated fuel (JStr sections_url) ;;
  n <- py_len sections ;;
  log INFO (FoundSections n notebook_name) ;;
  items <- py_iter sections ;;
  for_each items (export_section fuel notebook_path).

Definition export_notebooks (fuel : nat) (output_dir : path) : M unit :=
  try_except
    (log INFO FetchingNotebooks ;;
     notebooks <- call_graph_paginated fuel (JStr (graph ++ py "notebooks")) ;;
     n <- py_len notebooks ;;
     log INFO (FoundNotebooks n) ;;
     items <- py_iter notebooks ;;
     for_each items (export_notebook fuel output_dir))
    is_Exception
    (fun e => log ERROR (ExportFailed e) ;; raise e).

End Exporter.

(** The platform's timer takes a sleep of [n] seconds whenever it is asked. *)
Definition timer_takes (W : world) (n : Z) : Prop :=
  forall h, os_sleep W h n = None.

(** A computation all of whose events, from any history, satisfy [P]. *)
Definition emits_only {A} (P : event -> Prop) (m : M A) : Prop :=
  forall h, Forall P (snd (m h)).

(** Events that are neither a sleep nor an entry into the Caller. *)
Definition unguarded (ev : event) : Prop :=
  match ev with
  | ESleep _ | ECall _ _ => False
  | _ => True
  end.

(** Events that are not a GET. *)
Definition not_get (ev : event) : Prop :=
  match ev with
  | EGet _ => False
  | _ => True
  end.

(** [q] is an entry of the directory [p]: one more part, which is a name
    of its own (not empty, not [.] or [..], without a slash). *)
Definition entry_of (p q : path) : Prop :=
  exists part,
    q = p ++ [part]
    /\ part <> [] /\ part <> py "." /\ part <> py ".."
    /\ chr_in "/" part = false.

(** The URL [export_page] builds for the content of a page. *)
Definition content_url (W : world) (page_id : json) : str :=
  py "https://graph.microsoft.com/v1.0/me/onenote/pages/"
  ++ fmt W page_id ++ py "/content".

(** ** Authentication: [get_token] *)

Module Auth.

(** [bool(v)] *)
Definition truthy (v : json) : bool :=
  match v with
  | JNull => false
  | JBool b => b
  | JNum n => negb (n =? 0)
  | JStr s => negb (is_empty s)
  | JArr l => match l with [] => false | _ :: _ => true end
  | JObj d => match d with [] => false | _ :: _ => true end
  end.

(** MSAL, as [get_token] uses it; each call may raise. *)
Record provider := {
  new_app : result unit;            (* PublicClientApplication(id, authority) *)
  initiate_device_flow : result dict;
  acquire_token_by_device_flow : dict -> result dict
}.

(** How [get_token] can fail: its two [RuntimeError]s, and whatever MSAL or
    a lookup raised. *)
Inductive failure :=
| DeviceFlowFailed (flow : dict)
| TokenNotAcquired (description : json)
| Raised (e : exn).

(** What [get_token] does, in order. *)
Inductive step :=
| NewApp
| Initiate
| LogAuthenticate                        (* "Please authenticate ..." *)
| Print (message : json)                 (* print(flow["message"]) *)
| Acquire (flow : dict)
| SetHeaders (hs : list (str * str))     (* session.headers.update({...}) *)
| LogAuthenticated.

(** The headers put on the session for a token. *)
Definition bearer_headers (W : world) (tok : json) : list (str * str) :=
  [(py "Authorization", py "Bearer " ++ fmt W tok);
   (py "Accept", py "application/json");
   (py "Content-Type", py "application/json")].

(** [get_token]: [token] is [self.token] on entry; the result is what is
    returned or raised, [self.token] on exit, and the steps taken. *)
Definition get_token (W : world) (P : provider) (token : json)
    : (failure + json) * json * list step :=
  if truthy token then (inr token, token, [])
  else
    match new_app P with
    | Failure e => (inl (Raised e), token, [NewApp])
    | Success _ =>
      match initiate_device_flow P with
      | Failure e => (inl (Raised e), token, [NewApp; Initiate])
      | Success flow =>
        if negb (truthy (dict_get flow (py "user_code") JNull))
        then (inl (DeviceFlowFailed flow), token, [NewApp; Initiate])
        else
          match dict_lookup flow (py "message") with
          | None =>
            (inl (Raised (KeyError (py "message"))), token,
             [NewApp; Initiate; LogAuthenticate])
          | Some msg =>
            let shown := [NewApp; Initiate; LogAuthenticate; Print msg;
                           Acquire flow] in
            match acquire_token_by_device_flow P flow with
            | Failure e => (inl (Raised e), token, shown)
            | Success res =>
              match dict_lookup res (py "access_token") with
              | None =>
                (inl (TokenNotAcquired
                        (dict_get res (py "error_description")
                                  (JStr (py "Unknown error")))),
                 token, shown)
              | Some tok =>
                (inr tok, tok,
                 shown ++ [SetHeaders (bearer_headers W tok);
                           LogAuthenticated])
              end
            end
          end
      end
    end.

End Auth.

(** ** Chains of listing pages *)

(** The answers the Caller gives when the continuation links are followed
    from the page [d] on, starting in history [h]: each further page with
    its records and the events of the call that fetched it; the last page
    has no link. *)
Fixpoint follows (W : world) (h : history) (d : dict)
    (pages : list (dict * list json * list event)) : Prop :=
  match pages with
  | [] => dict_lookup d nextLink = None
  | (d', recs, es) :: more =>
    exists next,
      dict_lookup d nextLink = Some next
      /\ call_graph_with_retry W next MAX_RETRIES
           (h ++ [ELog INFO FetchingNextPage]) = (Ok (JObj d'), es)
      /\ dict_get d' (py "value") (JArr []) = JArr recs
      /\ follows W (h ++ ELog INFO FetchingNextPage :: es) d' more
  end.

Definition records_of (pages : list (dict * list json * list event))
    : list json :=
  flat_map (fun p => snd (fst p)) pages.

Definition events_of (pages : list (dict * list json * list event))
    : list event :=
  flat_map (fun p => ELog INFO FetchingNextPage :: snd p) pages.

(** ** Scripted worlds, to run the exporter on concrete inputs *)

Module Script.

Definition reply (st : Z) (ra : option str) (j : json) : response :=
  {| status_code := st; retry_after := ra; content_type := None;
     text := py "body"; json_body := Success j;
     chunks := []; stream_error := None |}.

(** A world given by its HTTP behaviour; the file system always works, the
    timer takes every sleep, the converter returns its input, every URL has
    the path [/a.png]. *)
Definition world_of (get : history -> request -> result response) : world :=
  {| http_get := get;
     fs_apply := fun _ _ => None;
     os_sleep := fun _ _ => None;
     strftime := fun _ => py "2024-01-01 00:00:00";
     h2m_handle := fun s => Success s;
     urlparse_path := fun _ => Success (py "/a.png");
     py_hash := fun _ => 1234;
     py_format := fun _ => py "?" |}.

(** The n-th GET of the run is answered by the n-th entry of [rs], later
    ones by [dflt]. *)
Definition in_turn (rs : list (result response)) (dflt : result response)
    : world :=
  world_of (fun h _ => nth (List.length (gets h)) rs dflt).

(** A GET is answered by the entry of [table] for its URL; other URLs are
    refused. *)
Fixpoint lookup_url (table : list (str * response)) (u : str)
    : result response :=
  match table with
  | [] => Failure (RequestError (py "no route"))
  | (k, r) :: rest => if str_eqb k u then Success r else lookup_url rest u
  end.

Definition by_url (table : list (str * response)) : world :=
  world_of (fun _ rq =>
              match req_url rq with
              | JStr u => lookup_url table u
              | _ => Failure (RequestError (py "bad URL"))
              end).

Definition listing (records : list json) : response :=
  reply 200 None (JObj [(py "value", JArr records)]).

Definition document (body : str) (data : list str) : response :=
  {| status_code := 200; retry_after := None; content_type := None;
     text := body; json_body := Failure (RequestError (py "not JSON"));
     chunks := data; stream_error := None |}.

End Script.

(** * Properties *)

Example int_of_str_2 : int_of_str (py "2") = Some 2.
Proof. reflexivity. Qed.

Example int_of_str_forms :
  map int_of_str [py " 120 "; py "+7"; py "1_000"; py "007"; py "-3"]
  = [Some 120; Some 7; Some 1000; Some 7; Some (-3)].
Proof. reflexivity. Qed.

Example int_of_str_rejects :
  map int_of_str [[]; py "1.5"; py "1__0"; py "_1"; py "1_"; py "+ 1";
                  py "Wed, 21 Oct 2015 07:28:00 GMT"]
  = [None; None; None; None; None; None; None].
Proof. reflexivity. Qed.

(** The separators 28 to 31 are white space for [str.strip()], not for
    [int()]; the spaces 133 and 160 are white space for both. *)
Example int_of_str_separators :
  let fs := ascii_of_nat 28 in
  let nbsp := ascii_of_nat 160 in
  strip (fs :: py "7") = py "7"
  /\ int_of_str (fs :: py "7") = None
  /\ int_of_str (py "7" ++ [ascii_of_nat 31]) = None
  /\ int_of_str (nbsp :: py "7" ++ [ascii_of_nat 133]) = Some 7.
Proof. repeat split. Qed.

(** [int()] reads 4300 digits and refuses 4301, zeros included. *)
Example int_of_str_digit_limit :
  int_of_str (repeat "0"%char 4299 ++ py "7") = Some 7
  /\ int_of_str (repeat "0"%char 4300 ++ py "7") = None.
Proof. split; vm_compute; reflexivity. Qed.

(** [time.sleep] refuses 9223372037 seconds and more with an
    [OverflowError], whatever the platform; below zero it raises
    [ValueError] down to -9223372036 and [OverflowError] beyond.  A length in
    between is up to the timer: what it refuses is raised as it is. *)
Example sleep_limits (W : world) (h : history) :
  time_sleep W 9223372037 h = (Raise OverflowError, [])
  /\ time_sleep W (-1) h = (Raise ValueError, [])
  /\ time_sleep W (-9223372036) h = (Raise ValueError, [])
  /\ time_sleep W (-9223372037) h = (Raise OverflowError, [])
  /\ (os_sleep W h 9223372036 = Some (OSError (py "Invalid argument")) ->
      time_sleep W 9223372036 h = (Raise (OSError (py "Invalid argument")), [])).
Proof.
  repeat apply conj; try reflexivity.
  intros H. unfold time_sleep. cbn. now rewrite H.
Qed.

(** The backoff of attempt 33 is within the range of [time.sleep], that of
    attempt 34 is beyond it; [str()] writes 2^14284 and refuses 2^14285. *)
Example library_limits :
  (backoff 33 <=? SLEEP_MAX) = true /\ (SLEEP_MAX <? backoff 34) = true
  /\ str_of_int_ok (backoff 14284) = true
  /\ str_of_int_ok (backoff 14285) = false.
Proof. repeat apply conj; vm_compute; reflexivity. Qed.

Example str_replace_ex :
  str_replace (py "aXbXXc") (py "X") (py "yy") = py "ayybyyyyc".
Proof. reflexivity. Qed.

Example str_of_Z_ex : map str_of_Z [0; 7; 1234] = [py "0"; py "7"; py "1234"].
Proof. reflexivity. Qed.

(** ** Running computations *)

Lemma backoff_nonneg a : 0 <= backoff a.
Proof. unfold backoff, BASE_DELAY. pose proof (Z.pow_nonneg 2 a). lia. Qed.

(** The backoff is [2 ^ a], and up to attempt 33 it is a length [time.sleep]
    accepts. *)
Lemma backoff_pow a : backoff a = 2 ^ a.
Proof. unfold backoff, BASE_DELAY. lia. Qed.

Lemma backoff_range a : a <= 33 -> 0 <= backoff a <= SLEEP_MAX.
Proof.
  intros Ha. split; [apply backoff_nonneg|]. rewrite backoff_pow.
  destruct (Z.le_gt_cases 0 a) as [H0|H0].
  - pose proof (Z.pow_le_mono_r 2 a 33 ltac:(lia) Ha) as H.
    change (2 ^ 33) with 8589934592 in H. unfold SLEEP_MAX. lia.
  - rewrite Z.pow_neg_r by lia. unfold SLEEP_MAX. lia.
Qed.

Section Sleeping.

Variable W : world.

Lemma time_sleep_ok n h :
  0 <= n <= SLEEP_MAX -> timer_takes W n ->
  time_sleep W n h = (Ok tt, [ESleep n]).
Proof.
  intros Hn Ht. unfold time_sleep.
  destruct (n <? - SLEEP_MAX) eqn:E0;
    [apply Z.ltb_lt in E0; unfold SLEEP_MAX in *; lia |].
  destruct (SLEEP_MAX <? n) eqn:E'; [apply Z.ltb_lt in E'; lia |].
  destruct (n <? 0) eqn:E; [apply Z.ltb_lt in E; lia |].
  cbn [orb]. now rewrite (Ht h).
Qed.

Lemma time_sleep_too_long n h :
  SLEEP_MAX < n -> time_sleep W n h = (Raise OverflowError, []).
Proof.
  intros Hn. unfold time_sleep.
  destruct (SLEEP_MAX <? n) eqn:E'; [|apply Z.ltb_ge in E'; lia].
  now rewrite orb_true_r.
Qed.

Lemma time_sleep_negative n h :
  - SLEEP_MAX <= n < 0 -> time_sleep W n h = (Raise ValueError, []).
Proof.
  intros Hn. unfold time_sleep.
  destruct (n <? - SLEEP_MAX) eqn:E0; [apply Z.ltb_lt in E0; lia |].
  destruct (SLEEP_MAX <? n) eqn:E';
    [apply Z.ltb_lt in E'; unfold SLEEP_MAX in *; lia |].
  destruct (n <? 0) eqn:E; [reflexivity | apply Z.ltb_ge in E; lia].
Qed.

Lemma time_sleep_backoff a h :
  a <= 33 -> timer_takes W (backoff a) ->
  time_sleep W (backoff a) h = (Ok tt, [ESleep (backoff a)]).
Proof. intros Ha. apply time_sleep_ok, backoff_range, Ha. Qed.

End Sleeping.

(** What the shortcut in [str_of_int_ok] rests on. *)
Lemma pow2_below_limit : 2 ^ 14284 < 10 ^ INT_MAX_STR_DIGITS.
Proof. vm_compute. reflexivity. Qed.

(** [str_of_int_ok] is the test for at most [INT_MAX_STR_DIGITS] digits. *)
Lemma str_of_int_ok_spec n :
  str_of_int_ok n = true <-> Z.abs n < 10 ^ INT_MAX_STR_DIGITS.
Proof.
  unfold str_of_int_ok.
  destruct (Z.log2 (Z.abs n) <? 14284) eqn:E.
  - split; [intros _ | reflexivity]. apply Z.ltb_lt in E.
    apply Z.lt_trans with (2 ^ 14284); [|exact pow2_below_limit].
    destruct (Z.eq_dec (Z.abs n) 0) as [->|Hn].
    + apply Z.pow_pos_nonneg; lia.
    + apply Z.log2_lt_pow2; [lia | exact E].
  - apply Z.ltb_lt.
Qed.

Lemma small_int_shown n : Z.abs n <= SLEEP_MAX -> str_of_int_ok n = true.
Proof.
  intros H. unfold str_of_int_ok.
  pose proof (Z.log2_le_mono _ _ H) as Hl.
  change (Z.log2 SLEEP_MAX) with 33 in Hl.
  replace (Z.log2 (Z.abs n) <? 14284) with true; [reflexivity|].
  symmetry. apply Z.ltb_lt. lia.
Qed.

Lemma fstr_int_small n h :
  Z.abs n <= SLEEP_MAX -> fstr_int n h = (Ok tt, []).
Proof. intros H. unfold fstr_int. now rewrite (small_int_shown n H). Qed.

Lemma fstr_int_backoff a h : a <= 33 -> fstr_int (backoff a) h = (Ok tt, []).
Proof.
  intros Ha. apply fstr_int_small. pose proof (backoff_range a Ha). lia.
Qed.

Section CallerFacts.

Variable W : world.
Variables (url : json) (max_retries : Z).

Let get := EGet (plain_get url).

Lemma retry_loop_continue a rest h evs :
  attempt W url max_retries a h = (Ok Continue, evs) ->
  retry_loop W url max_retries (a :: rest) h
  = (emits evs ;; retry_loop W url max_retries rest) h.
Proof. intros H. cbn [retry_loop]. unfold bind, emits. rewrite H. reflexivity. Qed.

Lemma retry_loop_return a rest h evs v :
  attempt W url max_retries a h = (Ok (Return v), evs) ->
  retry_loop W url max_retries (a :: rest) h = (Ok v, evs).
Proof.
  intros H. cbn [retry_loop]. unfold bind. rewrite H. cbn.
  now rewrite app_nil_r.
Qed.

Lemma retry_loop_raise a rest h evs e :
  attempt W url max_retries a h = (Raise e, evs) ->
  retry_loop W url max_retries (a :: rest) h = (Raise e, evs).
Proof. intros H. cbn [retry_loop]. unfold bind. now rewrite H. Qed.

Lemma attempt_429_header a h r v n :
  http_get W h (plain_get url) = Success r ->
  status_code r = 429 ->
  retry_after r = Some v ->
  int_of_str v = Some n ->
  0 <= n <= SLEEP_MAX ->
  timer_takes W n ->
  attempt W url max_retries a h
  = (Ok Continue, [get; ELog WARNING (RateLimited n); ESleep n]).
Proof.
  intros Hget Hst Hra Hint Hn Ht.
  unfold attempt, try_except, attempt_try, bind, session_get, py_int.
  rewrite Hget, Hst, Hra, Hint. cbn [Z.eqb Pos.eqb ret log emit].
  rewrite fstr_int_small by lia.
  rewrite (time_sleep_ok W n _ Hn Ht). reflexivity.
Qed.

Lemma attempt_429_absent a h r :
  http_get W h (plain_get url) = Success r ->
  status_code r = 429 ->
  retry_after r = None ->
  a <= 33 ->
  timer_takes W (backoff a) ->
  attempt W url max_retries a h
  = (Ok Continue,
     [get; ELog WARNING (RateLimited (backoff a)); ESleep (backoff a)]).
Proof.
  intros Hget Hst Hra Ha Ht.
  unfold attempt, try_except, attempt_try, bind, session_get.
  rewrite Hget, Hst, Hra. cbn [Z.eqb Pos.eqb ret log emit].
  rewrite fstr_int_backoff by exact Ha.
  rewrite (time_sleep_backoff W a _ Ha Ht). reflexivity.
Qed.

Lemma attempt_429_bad_header a h r v :
  http_get W h (plain_get url) = Success r ->
  status_code r = 429 ->
  retry_after r = Some v ->
  int_of_str v = None ->
  attempt W url max_retries a h = (Raise ValueError, [get]).
Proof.
  intros Hget Hst Hra Hint.
  unfold attempt, try_except, attempt_try, bind, session_get, py_int.
  rewrite Hget, Hst, Hra, Hint. reflexivity.
Qed.

(** A header that asks for more than [time.sleep] takes: the warning is
    logged, then the sleep raises. *)
Lemma attempt_429_too_long a h r v n :
  http_get W h (plain_get url) = Success r ->
  status_code r = 429 ->
  retry_after r = Some v ->
  int_of_str v = Some n ->
  SLEEP_MAX < n ->
  str_of_int_ok n = true ->
  attempt W url max_retries a h
  = (Raise OverflowError, [get; ELog WARNING (RateLimited n)]).
Proof.
  intros Hget Hst Hra Hint Hn Hok.
  unfold attempt, try_except, attempt_try, bind, session_get, py_int.
  rewrite Hget, Hst, Hra, Hint. cbn [Z.eqb Pos.eqb ret log emit].
  unfold fstr_int. rewrite Hok. cbn [ret].
  rewrite (time_sleep_too_long W n _ Hn). reflexivity.
Qed.

Lemma attempt_5xx a h r :
  http_get W h (plain_get url) = Success r ->
  500 <= status_code r ->
  a <= 33 ->
  timer_takes W (backoff a) ->
  attempt W url max_retries a h
  = (Ok Continue,
     [get; ELog WARNING (ServerError (status_code r) (backoff a));
      ESleep (backoff a)]).
Proof.
  intros Hget Hst Ha Ht.
  unfold attempt, try_except, attempt_try, bind, session_get.
  rewrite Hget.
  destruct (status_code r =? 429) eqn:E; [apply Z.eqb_eq in E; lia|].
  destruct (500 <=? status_code r) eqn:E5; [|apply Z.leb_gt in E5; lia].
  cbn [ret log emit].
  rewrite fstr_int_backoff by exact Ha.
  rewrite (time_sleep_backoff W a _ Ha Ht). reflexivity.
Qed.

(** A server error at an attempt past 33: the warning is logged, then the
    sleep raises. *)
Lemma attempt_5xx_too_long a h r :
  http_get W h (plain_get url) = Success r ->
  500 <= status_code r ->
  SLEEP_MAX < backoff a ->
  str_of_int_ok (backoff a) = true ->
  attempt W url max_retries a h
  = (Raise OverflowError,
     [get; ELog WARNING (ServerError (status_code r) (backoff a))]).
Proof.
  intros Hget Hst Ha Hok.
  unfold attempt, try_except, attempt_try, bind, session_get.
  rewrite Hget.
  destruct (status_code r =? 429) eqn:E; [apply Z.eqb_eq in E; lia|].
  destruct (500 <=? status_code r) eqn:E5; [|apply Z.leb_gt in E5; lia].
  cbn [ret log emit]. unfold fstr_int. rewrite Hok. cbn [ret].
  rewrite (time_sleep_too_long W _ _ Ha). reflexivity.
Qed.

Lemma attempt_4xx a h r :
  http_get W h (plain_get url) = Success r ->
  400 <= status_code r < 500 ->
  status_code r <> 429 ->
  0 <= a <= 33 ->
  (a <> max_retries -> timer_takes W (backoff a)) ->
  let e := HTTPError (status_code r) (text r) in
  attempt W url max_retries a h
  = if a =? max_retries
    then (Raise e, [get; ELog ERROR (GraphFailed max_retries e)])
    else (Ok Continue,
          [get; ELog WARNING (RequestFailed e (backoff a)); ESleep (backoff a)]).
Proof.
  intros Hget Hst H429 Ha Ht e.
  unfold attempt, try_except, attempt_try, bind, session_get, raise_for_status.
  rewrite Hget.
  destruct (status_code r =? 429) eqn:E; [apply Z.eqb_eq in E; lia|].
  destruct (500 <=? status_code r) eqn:E5; [apply Z.leb_le in E5; lia|].
  replace (400 <=? status_code r) with true by (symmetry; apply Z.leb_le; lia).
  replace (status_code r <? 600) with true by (symmetry; apply Z.ltb_lt; lia).
  cbn [andb raise is_RequestException]. unfold attempt_except, bind.
  destruct (a =? max_retries) eqn:Em; cbn [log emit raise ret app].
  - apply Z.eqb_eq in Em.
    rewrite fstr_int_small by (unfold SLEEP_MAX; lia). reflexivity.
  - apply Z.eqb_neq in Em. rewrite fstr_int_backoff by lia.
    rewrite (time_sleep_backoff W a _ (proj2 Ha) (Ht Em)). reflexivity.
Qed.

End CallerFacts.

(** ** The retry budget *)

Section CallerBudget.

Variable W : world.
Variables (url : json) (max_retries : Z).

(** One attempt issues exactly one GET and always comes to an end. *)
Lemma attempt_one_get a h :
  gets (snd (attempt W url max_retries a h)) = [plain_get url]
  /\ fst (attempt W url max_retries a h) <> OutOfFuel.
Proof.
  unfold attempt, try_except, attempt_try, attempt_except, bind, session_get,
    raise_for_status, py_int, of_result, time_sleep, fstr_int, log, emit,
    raise, ret.
  repeat (match goal with
          | |- context [http_get ?w ?x ?y] => destruct (http_get w x y)
          | |- context [Z.eqb ?x ?y] => destruct (Z.eqb x y)
          | |- context [Z.leb ?x ?y] => destruct (Z.leb x y)
          | |- context [Z.ltb ?x ?y] => destruct (Z.ltb x y)
          | |- context [str_of_int_ok ?x] => destruct (str_of_int_ok x)
          | |- context [os_sleep ?w ?x ?y] => destruct (os_sleep w x y)
          | |- context [retry_after ?x] => destruct (retry_after x)
          | |- context [int_of_str ?x] => destruct (int_of_str x)
          | |- context [json_body ?x] => destruct (json_body x)
          | |- context [is_RequestException ?x] =>
            destruct (is_RequestException x)
          end; cbn);
    split; (reflexivity || discriminate).
Qed.

Lemma gets_app es es' : gets (es ++ es') = gets es ++ gets es'.
Proof. unfold gets. apply flat_map_app. Qed.

Lemma sleeps_app es es' : sleeps (es ++ es') = sleeps es ++ sleeps es'.
Proof. unfold sleeps. apply flat_map_app. Qed.

Lemma retry_loop_budget attempts h :
  (List.length (gets (snd (retry_loop W url max_retries attempts h)))
   <= List.length attempts)%nat
  /\ fst (retry_loop W url max_retries attempts h) <> OutOfFuel.
Proof.
  revert h. induction attempts as [|a rest IH]; intros h.
  - cbn. split; [lia | discriminate].
  - cbn [retry_loop]. unfold bind.
    destruct (attempt_one_get a h) as [Hg Hf].
    destruct (attempt W url max_retries a h) as [[c|e|] es];
      cbn [fst snd] in Hg, Hf.
    + destruct c as [|v].
      * specialize (IH (h ++ es)).
        destruct (retry_loop W url max_retries rest (h ++ es)) as [r es'].
        cbn [fst snd] in *. rewrite gets_app, length_app, Hg.
        cbn [List.length]. split; [lia | tauto].
      * cbn [ret fst snd]. rewrite app_nil_r, Hg. cbn [List.length].
        split; [lia | discriminate].
    + cbn [fst snd]. rewrite Hg. cbn [List.length].
      split; [lia | discriminate].
    + congruence.
Qed.

End CallerBudget.

Lemma py_range_length n : List.length (py_range n) = Z.to_nat n.
Proof. unfold py_range. now rewrite length_map, length_seq. Qed.

Lemma py_range_snoc n :
  0 <= n -> py_range (n + 1) = py_range n ++ [n].
Proof.
  intros Hn. unfold py_range.
  replace (Z.to_nat (n + 1)) with (S (Z.to_nat n)) by lia.
  rewrite seq_S, map_app. cbn [map Nat.add]. now rewrite Z2Nat.id.
Qed.

Lemma py_range_below n a : In a (py_range n) -> a < n.
Proof.
  unfold py_range. rewrite in_map_iff. intros (k & <- & Hk).
  apply in_seq in Hk. lia.
Qed.

Lemma py_range_nonpos n : n <= 0 -> py_range n = [].
Proof.
  intros Hn. unfold py_range. now replace (Z.to_nat n) with O by lia.
Qed.

(** C10: a call of [call_graph_with_retry] always comes to an end (the model
    needs no fuel for it and never reports [OutOfFuel]) and issues at most
    [max_retries + 1] GET requests, whatever the responses are: a 429, a
    server error and a failed request each use up one attempt of
    [range(max_retries + 1)]. *)
Theorem call_graph_with_retry_bounded (W : world) (url : json)
    (max_retries : Z) (h : history) :
  -1 <= max_retries ->
  fst (call_graph_with_retry W url max_retries h) <> OutOfFuel
  /\ Z.of_nat (List.length (gets (snd (call_graph_with_retry W url max_retries h))))
     <= max_retries + 1.
Proof.
  intros Hm. unfold call_graph_with_retry, bind. cbn [emit].
  destruct (retry_loop_budget W url max_retries (py_range (max_retries + 1))
              (h ++ [ECall url max_retries])) as [Hlen Hf].
  destruct (retry_loop W url max_retries _ _) as [r es]. cbn [fst snd] in *.
  rewrite py_range_length in Hlen. split; [exact Hf |].
  change (gets ([ECall url max_retries] ++ es)) with (gets es). lia.
Qed.

(** ** The Caller, response by response *)

Section CallerClaims.

Variable W : world.
Variables (url : json) (max_retries : Z).

Let get := EGet (plain_get url).

Lemma retry_loop_all_5xx attempts h :
  (forall a, In a attempts -> a <= 33 /\ timer_takes W (backoff a)) ->
  (forall h', exists r,
      http_get W h' (plain_get url) = Success r /\ 500 <= status_code r) ->
  fst (retry_loop W url max_retries attempts h) = Ok JNull
  /\ sleeps (snd (retry_loop W url max_retries attempts h))
     = map backoff attempts
  /\ gets (snd (retry_loop W url max_retries attempts h))
     = map (fun _ => plain_get url) attempts.
Proof.
  intros Hlow Hall. revert h. induction attempts as [|a rest IH]; intros h.
  - cbn. auto.
  - destruct (Hall h) as (r & Hget & Hst).
    destruct (Hlow a (or_introl eq_refl)) as [Ha Ht].
    rewrite (retry_loop_continue W url max_retries a rest h _
               (attempt_5xx W url max_retries a h r Hget Hst Ha Ht)).
    unfold bind, emits. set (h1 := h ++ _).
    destruct (IH (fun b Hb => Hlow b (or_intror Hb)) h1) as (Hr & Hs & Hg).
    destruct (retry_loop W url max_retries rest h1) as [res es].
    cbn [fst snd] in *. rewrite sleeps_app, gets_app, Hs, Hg. cbn. auto.
Qed.

End CallerClaims.

Lemma map_backoff attempts : map backoff attempts = map (Z.pow 2) attempts.
Proof. apply map_ext, backoff_pow. Qed.

Lemma py_range_nonneg n a : In a (py_range n) -> 0 <= a.
Proof.
  unfold py_range. rewrite in_map_iff. intros (k & <- & _). lia.
Qed.

(** C1 (what the code does): when every response has a status of 500 or
    more, [call_graph_with_retry] sleeps [BASE_DELAY * 2 ** attempt], that
    is [2 ^ attempt] seconds, after each of its [max_retries + 1] attempts,
    the last one included, and then leaves the loop and returns [None]; it
    does not raise.  The budget is at most 33, so that every sleep is one
    [time.sleep] accepts, and the platform's timer takes these sleeps. *)
Theorem all_server_errors_return_None (W : world) (url : json)
    (max_retries : Z) (h : history) :
  max_retries <= 33 ->
  (forall a, 0 <= a <= max_retries -> timer_takes W (2 ^ a)) ->
  (forall h', exists r,
      http_get W h' (plain_get url) = Success r /\ 500 <= status_code r) ->
  fst (call_graph_with_retry W url max_retries h) = Ok JNull
  /\ sleeps (snd (call_graph_with_retry W url max_retries h))
     = map (Z.pow 2) (py_range (max_retries + 1))
  /\ gets (snd (call_graph_with_retry W url max_retries h))
     = map (fun _ => plain_get url) (py_range (max_retries + 1)).
Proof.
  intros Hm Ht Hall. unfold call_graph_with_retry, bind. cbn [emit].
  destruct (retry_loop_all_5xx W url max_retries (py_range (max_retries + 1))
              (h ++ [ECall url max_retries])) as (Hr & Hs & Hg).
  { intros a Ha. pose proof (py_range_below _ _ Ha).
    pose proof (py_range_nonneg _ _ Ha).
    split; [lia|]. rewrite backoff_pow. apply Ht. lia. }
  { exact Hall. }
  destruct (retry_loop W url max_retries _ _) as [res es].
  cbn [fst snd] in *. rewrite map_backoff in Hs. auto.
Qed.

Lemma all_server_errors_return_None_witness :
  let W := Script.in_turn [] (Success (Script.reply 503 None JNull)) in
  fst (call_graph_with_retry W (JStr (py "u")) MAX_RETRIES []) = Ok JNull
  /\ sleeps (snd (call_graph_with_retry W (JStr (py "u")) MAX_RETRIES []))
     = [1; 2; 4; 8].
Proof.
  intros W.
  destruct (all_server_errors_return_None W (JStr (py "u")) MAX_RETRIES [])
    as (Hr & Hs & _).
  - unfold MAX_RETRIES. lia.
  - intros a _ h'. reflexivity.
  - intros h'. exists (Script.reply 503 None JNull). split.
    + subst W. cbn. now destruct (List.length (gets h')).
    + cbn. lia.
  - split; [exact Hr | exact Hs].
Defined.

(** C2 (as amended): a response whose status is in 400..499 and is not 429
    makes [raise_for_status] raise an [HTTPError] with the status code and
    the body; the Caller treats it like any failed request.  On the attempt
    numbered [max_retries] the error is logged and raised again; on an
    earlier attempt the Caller sleeps [BASE_DELAY * 2 ** attempt], that is
    [2 ^ attempt] seconds, and goes on with the next attempt for the same
    URL.  The attempt is one of 0 to 33, whose sleep [time.sleep] accepts,
    and the platform's timer takes that sleep. *)
Theorem client_error_is_retried (W : world) (url : json) (max_retries : Z)
    (a : Z) (rest : list Z) (h : history) (r : response) :
  http_get W h (plain_get url) = Success r ->
  400 <= status_code r < 500 ->
  status_code r <> 429 ->
  0 <= a <= 33 ->
  let e := HTTPError (status_code r) (text r) in
  (a = max_retries ->
   retry_loop W url max_retries (a :: rest) h
   = (Raise e, [EGet (plain_get url); ELog ERROR (GraphFailed max_retries e)]))
  /\ (a <> max_retries -> timer_takes W (2 ^ a) ->
      retry_loop W url max_retries (a :: rest) h
      = (emits [EGet (plain_get url);
                ELog WARNING (RequestFailed e (2 ^ a));
                ESleep (2 ^ a)] ;;
         retry_loop W url max_retries rest) h).
Proof.
  intros Hget Hst H429 Hlow e. split.
  - intros Hcmp. apply retry_loop_raise.
    rewrite (attempt_4xx W url max_retries a h r Hget Hst H429 Hlow)
      by (intros Hne; now contradiction Hne).
    fold e. now replace (a =? max_retries) with true
      by (symmetry; now apply Z.eqb_eq).
  - intros Hcmp Ht. apply retry_loop_continue.
    rewrite (attempt_4xx W url max_retries a h r Hget Hst H429 Hlow)
      by (intros _; rewrite backoff_pow; exact Ht).
    fold e. rewrite backoff_pow.
    now replace (a =? max_retries) with false
      by (symmetry; now apply Z.eqb_neq).
Qed.

(** C4 (as amended): at any attempt, a 429 response whose [Retry-After]
    header reads as a whole number [n] of at most 9223372036 seconds, the
    longest sleep [time.sleep] accepts, makes the Caller sleep exactly [n]
    seconds, and a 429 response without the header makes it sleep
    [BASE_DELAY * 2 ** attempt], that is [2 ^ attempt] seconds, at the
    attempts 0 to 33, provided the platform's timer takes the sleep; in both
    cases the Caller then goes on with the remaining attempts and the 429
    itself raises nothing: on the last attempt the call ends without an
    exception. *)
Theorem rate_limit_sleeps_and_continues (W : world) (url : json)
    (max_retries : Z) (a : Z) (rest : list Z) (h : history) (r : response) :
  http_get W h (plain_get url) = Success r ->
  status_code r = 429 ->
  (forall v n, retry_after r = Some v -> int_of_str v = Some n ->
     0 <= n <= 9223372036 -> timer_takes W n ->
     retry_loop W url max_retries (a :: rest) h
     = (emits [EGet (plain_get url); ELog WARNING (RateLimited n); ESleep n] ;;
        retry_loop W url max_retries rest) h
     /\ (rest = [] ->
         retry_loop W url max_retries (a :: rest) h
         = (Ok JNull,
            [EGet (plain_get url); ELog WARNING (RateLimited n); ESleep n])))
  /\ (retry_after r = None -> 0 <= a <= 33 -> timer_takes W (2 ^ a) ->
      retry_loop W url max_retries (a :: rest) h
      = (emits [EGet (plain_get url); ELog WARNING (RateLimited (2 ^ a));
                ESleep (2 ^ a)] ;;
         retry_loop W url max_retries rest) h
      /\ (rest = [] ->
          retry_loop W url max_retries (a :: rest) h
          = (Ok JNull,
             [EGet (plain_get url); ELog WARNING (RateLimited (2 ^ a));
              ESleep (2 ^ a)]))).
Proof.
  intros Hget Hst. split.
  - intros v n Hra Hint Hn Ht.
    pose proof (retry_loop_continue W url max_retries a rest h _
                  (attempt_429_header W url max_retries a h r v n
                     Hget Hst Hra Hint Hn Ht)) as Heq.
    split; [exact Heq |]. intros ->. rewrite Heq. reflexivity.
  - intros Hra Hlow Ht. rewrite <- backoff_pow in Ht.
    pose proof (retry_loop_continue W url max_retries a rest h _
                  (attempt_429_absent W url max_retries a h r
                     Hget Hst Hra (proj2 Hlow) Ht)) as Heq.
    rewrite backoff_pow in Heq.
    split; [exact Heq |]. intros ->. rewrite Heq. reflexivity.
Qed.

(** C9: at any attempt, a 429 response whose [Retry-After] header is not
    accepted by [int()] (an HTTP date, for one) ends the call with a
    [ValueError] right after the GET: nothing is slept, nothing is retried
    and nothing is returned, because the handler only catches
    [RequestException]. *)
Theorem bad_retry_after_raises_ValueError (W : world) (url : json)
    (max_retries : Z) (a : Z) (rest : list Z) (h : history) (r : response)
    (v : str) :
  http_get W h (plain_get url) = Success r ->
  status_code r = 429 ->
  retry_after r = Some v ->
  int_of_str v = None ->
  retry_loop W url max_retries (a :: rest) h
  = (Raise ValueError, [EGet (plain_get url)])
  /\ is_RequestException ValueError = false.
Proof.
  intros Hget Hst Hra Hint. split; [|reflexivity].
  apply retry_loop_raise.
  now apply (attempt_429_bad_header W url max_retries a h r v).
Qed.

Lemma client_error_is_retried_witness :
  let W := Script.in_turn [Success (Script.reply 404 None JNull)]
                          (Success (Script.reply 200 None (JNum 1))) in
  retry_loop W (JStr (py "u")) 3 [0; 1; 2; 3] []
  = (emits [EGet (plain_get (JStr (py "u")));
            ELog WARNING (RequestFailed (HTTPError 404 (py "body")) 1);
            ESleep 1] ;;
     retry_loop W (JStr (py "u")) 3 [1; 2; 3]) [].
Proof.
  intros W.
  refine (proj2 (client_error_is_retried W (JStr (py "u")) 3 0 [1; 2; 3] []
                   (Script.reply 404 None JNull) _ _ _ _) _ _).
  - reflexivity.
  - cbn. lia.
  - cbn. lia.
  - lia.
  - lia.
  - intros h'. reflexivity.
Defined.

(** C2 (as stated) fails: with a 404 answered first and a 200 second, the
    Caller does not fail; it sleeps one second, repeats the GET and returns
    the second body. *)
Lemma client_error_not_immediate :
  let W := Script.in_turn [Success (Script.reply 404 None JNull)]
                          (Success (Script.reply 200 None (JNum 1))) in
  call_graph_with_retry W (JStr (py "u")) MAX_RETRIES []
  = (Ok (JNum 1),
     [ECall (JStr (py "u")) 3;
      EGet (plain_get (JStr (py "u")));
      ELog WARNING (RequestFailed (HTTPError 404 (py "body")) 1);
      ESleep 1;
      EGet (plain_get (JStr (py "u")))]).
Proof. reflexivity. Qed.

Lemma rate_limit_sleeps_and_continues_witness :
  let u := JStr (py "u") in
  let W := Script.in_turn [Success (Script.reply 429 (Some (py "2")) JNull)]
                          (Success (Script.reply 200 None (JNum 1))) in
  let W' := Script.in_turn [] (Success (Script.reply 429 None JNull)) in
  retry_loop W u 3 [0; 1; 2; 3] []
  = (emits [EGet (plain_get u); ELog WARNING (RateLimited 2); ESleep 2] ;;
     retry_loop W u 3 [1; 2; 3]) []
  /\ retry_loop W' u 3 [2; 3] []
     = (emits [EGet (plain_get u); ELog WARNING (RateLimited 4); ESleep 4] ;;
        retry_loop W' u 3 [3]) [].
Proof.
  intros u W W'. split.
  - refine (proj1 (proj1 (rate_limit_sleeps_and_continues W u 3 0
                            [1; 2; 3] []
                            (Script.reply 429 (Some (py "2")) JNull) _ _)
                     (py "2") 2 _ _ _ _)).
    + reflexivity.
    + reflexivity.
    + reflexivity.
    + reflexivity.
    + lia.
    + intros h'. reflexivity.
  - refine (proj1 (proj2 (rate_limit_sleeps_and_continues W' u 3 2 [3] []
                            (Script.reply 429 None JNull) _ _) _ _ _)).
    + reflexivity.
    + reflexivity.
    + reflexivity.
    + lia.
    + intros h'. reflexivity.
Defined.

(** C4 (as stated) fails: a 429 response with [Retry-After: 10000000000], a
    whole number of seconds, makes the Caller raise.  The warning is logged,
    then [time.sleep] refuses the length with an [OverflowError], which the
    handler does not catch; nothing is slept and nothing is retried. *)
Lemma rate_limit_header_too_long :
  let W := Script.in_turn []
             (Success (Script.reply 429 (Some (py "10000000000")) JNull)) in
  call_graph_with_retry W (JStr (py "u")) MAX_RETRIES []
  = (Raise OverflowError,
     [ECall (JStr (py "u")) 3;
      EGet (plain_get (JStr (py "u")));
      ELog WARNING (RateLimited 10000000000)])
  /\ int_of_str (py "10000000000") = Some 10000000000
  /\ is_RequestException OverflowError = false.
Proof. repeat split. Qed.

Lemma bad_retry_after_raises_ValueError_witness :
  let date := py "Wed, 21 Oct 2015 07:28:00 GMT" in
  let W := Script.in_turn [] (Success (Script.reply 429 (Some date) JNull)) in
  retry_loop W (JStr (py "u")) 3 [0; 1; 2; 3] []
  = (Raise ValueError, [EGet (plain_get (JStr (py "u")))]).
Proof.
  intros date W.
  refine (proj1 (bad_retry_after_raises_ValueError W (JStr (py "u")) 3 0
                   [1; 2; 3] [] (Script.reply 429 (Some date) JNull) date
                   _ _ _ _)); reflexivity.
Defined.

Lemma call_graph_with_retry_bounded_witness :
  let W := Script.in_turn [Success (Script.reply 429 None JNull);
                           Failure (RequestError (py "timeout"))]
                          (Success (Script.reply 500 None JNull)) in
  Z.of_nat (List.length
    (gets (snd (call_graph_with_retry W (JStr (py "u")) 3 [])))) <= 3 + 1.
Proof.
  intros W.
  refine (proj2 (call_graph_with_retry_bounded W (JStr (py "u")) 3 [] _)).
  lia.
Defined.

(** ** The Paginator *)

Section PaginatorFacts.

Variable W : world.

Lemma calls_app es es' : calls (es ++ es') = calls es ++ calls es'.
Proof. unfold calls. apply flat_map_app. Qed.

Lemma attempt_no_call url max_retries a h :
  calls (snd (attempt W url max_retries a h)) = [].
Proof.
  unfold attempt, try_except, attempt_try, attempt_except, bind, session_get,
    raise_for_status, py_int, of_result, time_sleep, fstr_int, log, emit,
    raise, ret.
  repeat (match goal with
          | |- context [http_get ?w ?x ?y] => destruct (http_get w x y)
          | |- context [Z.eqb ?x ?y] => destruct (Z.eqb x y)
          | |- context [Z.leb ?x ?y] => destruct (Z.leb x y)
          | |- context [Z.ltb ?x ?y] => destruct (Z.ltb x y)
          | |- context [str_of_int_ok ?x] => destruct (str_of_int_ok x)
          | |- context [os_sleep ?w ?x ?y] => destruct (os_sleep w x y)
          | |- context [retry_after ?x] => destruct (retry_after x)
          | |- context [int_of_str ?x] => destruct (int_of_str x)
          | |- context [json_body ?x] => destruct (json_body x)
          | |- context [is_RequestException ?x] =>
            destruct (is_RequestException x)
          end; cbn); reflexivity.
Qed.

Lemma retry_loop_no_call url max_retries attempts h :
  calls (snd (retry_loop W url max_retries attempts h)) = [].
Proof.
  revert h. induction attempts as [|a rest IH]; intros h; [reflexivity|].
  cbn [retry_loop]. unfold bind.
  pose proof (attempt_no_call url max_retries a h) as Ha.
  destruct (attempt W url max_retries a h) as [[c|e|] es];
    cbn [fst snd] in *; try assumption.
  destruct c as [|v].
  - specialize (IH (h ++ es)).
    destruct (retry_loop W url max_retries rest (h ++ es)) as [r es'].
    cbn [fst snd] in *. now rewrite calls_app, Ha, IH.
  - cbn [ret snd]. now rewrite app_nil_r.
Qed.

(** Each call of the Caller is seen once in the events, with its URL. *)
Lemma calls_call_graph_with_retry url max_retries h :
  calls (snd (call_graph_with_retry W url max_retries h)) = [url].
Proof.
  unfold call_graph_with_retry, bind. cbn [emit].
  pose proof (retry_loop_no_call url max_retries (py_range (max_retries + 1))
                (h ++ [ECall url max_retries])) as Hc.
  destruct (retry_loop W url max_retries _ _) as [r es].
  cbn [fst snd] in *. rewrite calls_app, Hc. reflexivity.
Qed.

End PaginatorFacts.

(** C5: when the Caller's answer for [url] is a page with a continuation
    link [next] and its answer for [next] is a page without one,
    [call_graph_paginated] returns the records of the first page followed by
    the records of the second, in the order of the responses, and has called
    the Caller exactly twice: for [url], then for [next]. *)
Theorem paginated_two_pages (W : world) (fuel : nat) (url next : json)
    (h : history) (d1 d2 : dict) (recs1 recs2 : list json)
    (es1 es2 : list event) :
  (1 <= fuel)%nat ->
  call_graph_with_retry W url MAX_RETRIES h = (Ok (JObj d1), es1) ->
  dict_lookup d1 nextLink = Some next ->
  dict_get d1 (py "value") (JArr []) = JArr recs1 ->
  call_graph_with_retry W next MAX_RETRIES
    (h ++ es1 ++ [ELog INFO FetchingNextPage]) = (Ok (JObj d2), es2) ->
  dict_lookup d2 nextLink = None ->
  dict_get d2 (py "value") (JArr []) = JArr recs2 ->
  call_graph_paginated W fuel url h
  = (Ok (JArr (recs1 ++ recs2)), es1 ++ [ELog INFO FetchingNextPage] ++ es2)
  /\ calls (snd (call_graph_paginated W fuel url h)) = [url; next].
Proof.
  intros Hfuel H1 Hn1 Hv1 H2 Hn2 Hv2.
  assert (Hrun : call_graph_paginated W fuel url h
                 = (Ok (JArr (recs1 ++ recs2)),
                    es1 ++ [ELog INFO FetchingNextPage] ++ es2)).
  { unfold call_graph_paginated, bind. rewrite H1, Hv1.
    destruct fuel as [|fuel']; [lia|]. cbn [paginate].
    unfold dict_mem. rewrite Hn1. unfold bind. cbn [log emit].
    unfold dict_get at 1. rewrite Hn1. rewrite <- app_assoc, H2.
    rewrite Hv2. cbn [list_extend py_iter]. unfold bind at 1. cbn [ret].
    rewrite !app_nil_r.
    replace (paginate W fuel' d2 (JArr (recs1 ++ recs2)))
      with (@ret json (JArr (recs1 ++ recs2))).
    - cbn [ret]. rewrite !app_nil_r. reflexivity.
    - destruct fuel'; cbn [paginate]; unfold dict_mem; now rewrite Hn2. }
  split; [exact Hrun|]. rewrite Hrun. cbn [snd].
  pose proof (calls_call_graph_with_retry W url MAX_RETRIES h) as C1.
  pose proof (calls_call_graph_with_retry W next MAX_RETRIES
                (h ++ es1 ++ [ELog INFO FetchingNextPage])) as C2.
  rewrite H1 in C1. rewrite H2 in C2. cbn [snd] in C1, C2.
  rewrite !calls_app, C1, C2. reflexivity.
Qed.

Lemma paginated_two_pages_witness :
  let p1 := JObj [(py "value", JArr [JNum 1; JNum 2]);
                  (nextLink, JStr (py "P2"))] in
  let p2 := JObj [(py "value", JArr [JNum 3])] in
  let W := Script.in_turn [Success (Script.reply 200 None p1)]
                          (Success (Script.reply 200 None p2)) in
  fst (call_graph_paginated W 1 (JStr (py "P1")) [])
  = Ok (JArr [JNum 1; JNum 2; JNum 3])
  /\ calls (snd (call_graph_paginated W 1 (JStr (py "P1")) []))
     = [JStr (py "P1"); JStr (py "P2")].
Proof.
  intros p1 p2 W.
  destruct (paginated_two_pages W 1 (JStr (py "P1")) (JStr (py "P2")) []
              [(py "value", JArr [JNum 1; JNum 2]); (nextLink, JStr (py "P2"))]
              [(py "value", JArr [JNum 3])]
              [JNum 1; JNum 2] [JNum 3]
              [ECall (JStr (py "P1")) 3; EGet (plain_get (JStr (py "P1")))]
              [ECall (JStr (py "P2")) 3; EGet (plain_get (JStr (py "P2")))])
    as [Hrun Hcalls].
  - lia.
  - reflexivity.
  - reflexivity.
  - reflexivity.
  - reflexivity.
  - reflexivity.
  - reflexivity.
  - rewrite Hrun. split; [reflexivity | exact Hcalls].
Defined.

(** ** Path components *)

Lemma sanitize_length s : List.length (sanitize s) = List.length s.
Proof. apply length_map. Qed.

Lemma sanitize_clean s c : In c (sanitize s) -> illegal c = false.
Proof.
  unfold sanitize. rewrite in_map_iff. intros (x & Hx & _). subst c.
  destruct (illegal x) eqn:E; [reflexivity | exact E].
Qed.

Lemma sanitize_all_illegal s :
  forallb illegal s = true ->
  sanitize s = repeat "_"%char (List.length s).
Proof.
  induction s as [|c s IH]; [reflexivity|].
  cbn [forallb]. intros H. apply andb_true_iff in H. destruct H as [Hc Hs].
  unfold sanitize in *. cbn [map List.length repeat]. rewrite Hc.
  f_equal. apply IH, Hs.
Qed.

(** ** Computations that need no fuel *)

Section Finishes.

Context {A B : Type}.

Lemma finishes_ret (a : A) : finishes (ret a).
Proof. intros h. discriminate. Qed.

Lemma finishes_raise (e : exn) : finishes (@raise A e).
Proof. intros h. discriminate. Qed.

Lemma finishes_bind (m : M A) (f : A -> M B) :
  finishes m -> (forall a, finishes (f a)) -> finishes (bind m f).
Proof.
  intros Hm Hf h. unfold bind. specialize (Hm h).
  destruct (m h) as [[a|e|] es]; cbn [fst] in *; try discriminate; try tauto.
  specialize (Hf a (h ++ es)). destruct (f a (h ++ es)) as [r es'].
  exact Hf.
Qed.

Lemma finishes_try_except (m : M A) (catches : exn -> bool)
    (handler : exn -> M A) :
  finishes m -> (forall e, finishes (handler e)) ->
  finishes (try_except m catches handler).
Proof.
  intros Hm Hh h. unfold try_except. specialize (Hm h).
  destruct (m h) as [[a|e|] es]; cbn [fst] in *; try discriminate; try tauto.
  destruct (catches e); [|discriminate].
  specialize (Hh e (h ++ es)). destruct (handler e (h ++ es)) as [r es'].
  exact Hh.
Qed.

Lemma finishes_of_result (r : result A) : finishes (of_result r).
Proof. destruct r; intros h; discriminate. Qed.

End Finishes.

Lemma finishes_emit ev : finishes (emit ev).
Proof. intros h. discriminate. Qed.

Section ExporterFinishes.

Variable W : world.

Lemma finishes_log lvl msg : finishes (log lvl msg).
Proof. apply finishes_emit. Qed.

Lemma finishes_session_get rq : finishes (session_get W rq).
Proof.
  intros h. unfold session_get. destruct (http_get W h rq); discriminate.
Qed.

Lemma finishes_raise_for_status r : finishes (raise_for_status r).
Proof.
  unfold raise_for_status.
  destruct (_ && _); [apply finishes_raise | apply finishes_ret].
Qed.

Lemma finishes_fs op : finishes (fs W op).
Proof. intros h. unfold fs. destruct (fs_apply W h op); discriminate. Qed.

Lemma finishes_with_open {A} p b (body : M A) :
  finishes body -> finishes (with_open W p b body).
Proof.
  intros Hb. unfold with_open. apply finishes_bind; [apply finishes_fs|].
  intros _ h. specialize (Hb h). destruct (body h) as [r es].
  pose proof (finishes_fs (CloseFile p) (h ++ es)) as Hc.
  destruct (fs W (CloseFile p) (h ++ es)) as [c es'].
  cbn [fst] in *. destruct r, c; congruence.
Qed.

Lemma finishes_write_chunks p cs : finishes (write_chunks W p cs).
Proof.
  induction cs as [|c cs IH]; cbn [write_chunks]; [apply finishes_ret|].
  apply finishes_bind; [apply finishes_fs | intros _; exact IH].
Qed.

Lemma finishes_media_filename u r : finishes (media_filename W u r).
Proof.
  unfold media_filename. apply finishes_bind; [apply finishes_of_result|].
  intros parsed. destruct (_ || _); [|apply finishes_ret].
  destruct (str_in _ _); apply finishes_ret.
Qed.

Lemma finishes_download_try u out : finishes (download_try W u out).
Proof.
  unfold download_try.
  apply finishes_bind; [apply finishes_session_get | intros r].
  apply finishes_bind; [apply finishes_raise_for_status | intros _].
  apply finishes_bind; [apply finishes_media_filename | intros f].
  apply finishes_bind.
  - apply finishes_with_open, finishes_bind; [apply finishes_write_chunks|].
    intros _. destruct (stream_error r); [apply finishes_raise | apply finishes_ret].
  - intros _. apply finishes_bind; [apply finishes_log | intros _; apply finishes_ret].
Qed.

Lemma finishes_download_media u out : finishes (download_media W u out).
Proof.
  unfold download_media.
  apply finishes_try_except; [apply finishes_download_try | intros e].
  apply finishes_bind; [apply finishes_log | intros _; apply finishes_ret].
Qed.

(** [download_media] returns a file name from every history: what its [try]
    block raises is caught, logged, and answered by the empty name. *)
Lemma download_media_cases u out h :
  (exists f es, download_try W u out h = (Ok f, es)
                /\ download_media W u out h = (Ok f, es))
  \/ (exists e es, download_try W u out h = (Raise e, es)
                   /\ download_media W u out h
                      = (Ok [], es ++ [ELog ERROR (MediaFailed u e)])).
Proof.
  unfold download_media, try_except.
  pose proof (finishes_download_try u out h) as Hfin.
  destruct (download_try W u out h) as [[f|e|] es]; cbn [fst] in Hfin.
  - left. now exists f, es.
  - right. exists e, es. split; [reflexivity|].
    cbn [is_Exception]. unfold bind. cbn [log emit ret].
    now rewrite app_nil_r.
  - congruence.
Qed.

Lemma download_media_returns u out h :
  exists f es, download_media W u out h = (Ok f, es).
Proof.
  destruct (download_media_cases u out h)
    as [(f & es & _ & H) | (e & es & _ & H)]; rewrite H;
    do 2 eexists; reflexivity.
Qed.

(** The loop over the image sources returns a text from every history. *)
Lemma rehome_returns urls html out h :
  exists html' es, rehome W urls html out h = (Ok html', es).
Proof.
  revert html h. induction urls as [|u rest IH]; intros html h.
  - now exists html, [].
  - cbn [rehome]. destruct (startswith u (py "http")); [|apply IH].
    unfold bind. destruct (download_media_returns u out h) as (f & es & ->).
    destruct (negb (is_empty f)).
    + destruct (IH (str_replace html u f) (h ++ es)) as (html' & es' & ->).
      now exists html', (es ++ es').
    + destruct (IH html (h ++ es)) as (html' & es' & ->).
      now exists html', (es ++ es').
Qed.

(** A download that gave the empty name leaves the text as it was. *)
Lemma rehome_failed_download u rest html out h es :
  download_media W u out h = (Ok [], es) ->
  rehome W (u :: rest) html out h
  = (if startswith u (py "http")
     then emits es ;; rehome W rest html out
     else rehome W rest html out) h.
Proof.
  intros Hd. cbn [rehome]. destruct (startswith u (py "http")); [|reflexivity].
  unfold bind, emits. rewrite Hd. reflexivity.
Qed.

Lemma rehome_all_failed urls html out h :
  (forall u h', In u urls -> fst (download_media W u out h') = Ok []) ->
  fst (rehome W urls html out h) = Ok html.
Proof.
  revert h. induction urls as [|u rest IH]; intros h Hall; [reflexivity|].
  cbn [rehome].
  assert (Hrest : forall h', fst (rehome W rest html out h') = Ok html).
  { intros h'. apply IH. intros u' h'' Hin. apply Hall. now right. }
  destruct (startswith u (py "http")); [|apply Hrest].
  unfold bind. pose proof (Hall u h (or_introl eq_refl)) as Hu.
  destruct (download_media W u out h) as [r es]. cbn [fst] in Hu. subst r.
  cbn [is_empty negb]. specialize (Hrest (h ++ es)).
  destruct (rehome W rest html out (h ++ es)) as [r' es']. exact Hrest.
Qed.

End ExporterFinishes.

(** ** One page at a time *)

Lemma page_reports_app es es' :
  page_reports (es ++ es') = page_reports es ++ page_reports es'.
Proof. unfold page_reports. apply flat_map_app. Qed.

Section Quiet.

Context {A B : Type}.

Lemma quiet_ret (a : A) : quiet (ret a).
Proof. intros h. reflexivity. Qed.

Lemma quiet_raise (e : exn) : quiet (@raise A e).
Proof. intros h. reflexivity. Qed.

Lemma quiet_bind (m : M A) (f : A -> M B) :
  quiet m -> (forall a, quiet (f a)) -> quiet (bind m f).
Proof.
  intros Hm Hf h. unfold bind. specialize (Hm h).
  destruct (m h) as [[a|e|] es]; cbn [snd] in *; try assumption.
  specialize (Hf a (h ++ es)). destruct (f a (h ++ es)) as [r es'].
  cbn [snd] in *. now rewrite page_reports_app, Hm, Hf.
Qed.

Lemma quiet_try_except (m : M A) (catches : exn -> bool)
    (handler : exn -> M A) :
  quiet m -> (forall e, quiet (handler e)) ->
  quiet (try_except m catches handler).
Proof.
  intros Hm Hh h. unfold try_except. specialize (Hm h).
  destruct (m h) as [[a|e|] es]; cbn [snd] in *; try assumption.
  destruct (catches e); [|assumption].
  specialize (Hh e (h ++ es)). destruct (handler e (h ++ es)) as [r es'].
  cbn [snd] in *. now rewrite page_reports_app, Hm, Hh.
Qed.

Lemma quiet_of_result (r : result A) : quiet (of_result r).
Proof. destruct r; intros h; reflexivity. Qed.

End Quiet.

Section PageFacts.

Variable W : world.

Lemma quiet_session_get rq : quiet (session_get W rq).
Proof.
  intros h. unfold session_get. destruct (http_get W h rq); reflexivity.
Qed.

Lemma quiet_raise_for_status r : quiet (raise_for_status r).
Proof.
  unfold raise_for_status.
  destruct (_ && _); [apply quiet_raise | apply quiet_ret].
Qed.

Lemma quiet_fs op : quiet (fs W op).
Proof. intros h. unfold fs. destruct (fs_apply W h op); reflexivity. Qed.

Lemma quiet_with_open {A} p b (body : M A) :
  quiet body -> quiet (with_open W p b body).
Proof.
  intros Hb. unfold with_open. apply quiet_bind; [apply quiet_fs|].
  intros _ h. specialize (Hb h). destruct (body h) as [r es].
  pose proof (quiet_fs (CloseFile p) (h ++ es)) as Hc.
  destruct (fs W (CloseFile p) (h ++ es)) as [c es'].
  cbn [snd] in *. now rewrite page_reports_app, Hb, Hc.
Qed.

Lemma quiet_write_chunks p cs : quiet (write_chunks W p cs).
Proof.
  induction cs as [|c cs IH]; cbn [write_chunks]; [apply quiet_ret|].
  apply quiet_bind; [apply quiet_fs | intros _; exact IH].
Qed.

Lemma quiet_media_filename u r : quiet (media_filename W u r).
Proof.
  unfold media_filename. apply quiet_bind; [apply quiet_of_result|].
  intros parsed. destruct (_ || _); [|apply quiet_ret].
  destruct (str_in _ _); apply quiet_ret.
Qed.

Lemma quiet_download_media u out : quiet (download_media W u out).
Proof.
  unfold download_media. apply quiet_try_except.
  - unfold download_try.
    apply quiet_bind; [apply quiet_session_get | intros r].
    apply quiet_bind; [apply quiet_raise_for_status | intros _].
    apply quiet_bind; [apply quiet_media_filename | intros f].
    apply quiet_bind.
    + apply quiet_with_open, quiet_bind; [apply quiet_write_chunks|].
      intros _. destruct (stream_error r); [apply quiet_raise | apply quiet_ret].
    + intros _. apply quiet_bind; [|intros _; apply quiet_ret].
      intros h. reflexivity.
  - intros e. apply quiet_bind; [|intros _; apply quiet_ret].
    intros h. reflexivity.
Qed.

Lemma quiet_rehome urls html out : quiet (rehome W urls html out).
Proof.
  revert html. induction urls as [|u rest IH]; intros html;
    cbn [rehome]; [apply quiet_ret|].
  destruct (startswith u (py "http")); [|apply IH].
  apply quiet_bind; [apply quiet_download_media | intros f].
  destruct (negb (is_empty f)); apply IH.
Qed.

Lemma finishes_rehome urls html out : finishes (rehome W urls html out).
Proof.
  revert html. induction urls as [|u rest IH]; intros html;
    cbn [rehome]; [apply finishes_ret|].
  destruct (startswith u (py "http")); [|apply IH].
  apply finishes_bind; [apply finishes_download_media | intros f].
  destruct (negb (is_empty f)); apply IH.
Qed.

Lemma quiet_process_html_content html out :
  quiet (process_html_content W html out).
Proof.
  unfold process_html_content.
  apply quiet_bind; [apply quiet_rehome | intros; apply quiet_of_result].
Qed.

Lemma finishes_process_html_content html out :
  finishes (process_html_content W html out).
Proof.
  unfold process_html_content.
  apply finishes_bind; [apply finishes_rehome | intros; apply finishes_of_result].
Qed.

Lemma quiet_subscript v k : quiet (subscript v k).
Proof.
  destruct v; try apply quiet_raise. cbn [subscript].
  destruct (dict_lookup items k); [apply quiet_ret | apply quiet_raise].
Qed.

Lemma finishes_subscript v k : finishes (subscript v k).
Proof.
  destruct v; try apply finishes_raise. cbn [subscript].
  destruct (dict_lookup items k); [apply finishes_ret | apply finishes_raise].
Qed.

Lemma quiet_get_method v k dflt : quiet (get_method v k dflt).
Proof. destruct v; try apply quiet_raise. apply quiet_ret. Qed.

Lemma finishes_get_method v k dflt : finishes (get_method v k dflt).
Proof. destruct v; try apply finishes_raise. apply finishes_ret. Qed.

Lemma quiet_page_stem t id : quiet (page_stem W t id).
Proof.
  unfold page_stem. apply quiet_bind.
  - destruct t; try apply quiet_raise. apply quiet_ret.
  - intros safe. destruct (is_empty (strip safe)); [|apply quiet_ret].
    apply quiet_bind; [|intros; apply quiet_ret].
    destruct id; try apply quiet_raise; apply quiet_ret.
Qed.

Lemma finishes_page_stem t id : finishes (page_stem W t id).
Proof.
  unfold page_stem. apply finishes_bind.
  - destruct t; try apply finishes_raise. apply finishes_ret.
  - intros safe. destruct (is_empty (strip safe)); [|apply finishes_ret].
    apply finishes_bind; [|intros; apply finishes_ret].
    destruct id; try apply finishes_raise; apply finishes_ret.
Qed.

Lemma quiet_clock : quiet (clock W).
Proof. intros h. reflexivity. Qed.

Lemma finishes_clock : finishes (clock W).
Proof. intros h. discriminate. Qed.

End PageFacts.

Section PageExport.

Variable W : world.
Variable section_path : path.

Lemma reports_once_bind {A B} (m : M A) (f : A -> M B) :
  quiet m -> finishes m -> (forall a, reports_once (f a)) ->
  reports_once (bind m f).
Proof.
  intros Hq Hfin Hf h. unfold bind. specialize (Hq h). specialize (Hfin h).
  destruct (m h) as [[a|e|] es]; cbn [fst snd] in *;
    [|assumption|congruence].
  specialize (Hf a (h ++ es)). destruct (f a (h ++ es)) as [r es'].
  cbn [fst snd] in *. rewrite page_reports_app, Hq. exact Hf.
Qed.

Lemma export_page_try_reports page :
  reports_once (export_page_try W page section_path).
Proof.
  unfold export_page_try.
  apply reports_once_bind;
    [apply quiet_subscript | apply finishes_subscript | intros page_id].
  apply reports_once_bind;
    [apply quiet_session_get | apply finishes_session_get | intros r].
  apply reports_once_bind;
    [apply quiet_raise_for_status | apply finishes_raise_for_status | intros _].
  apply reports_once_bind;
    [apply quiet_process_html_content | apply finishes_process_html_content
    | intros md].
  apply reports_once_bind;
    [apply quiet_get_method | apply finishes_get_method | intros title].
  apply reports_once_bind;
    [apply quiet_page_stem | apply finishes_page_stem | intros stem].
  apply reports_once_bind.
  - apply quiet_with_open.
    apply quiet_bind; [apply quiet_fs | intros _].
    apply quiet_bind; [apply quiet_clock | intros now].
    apply quiet_bind; [apply quiet_fs | intros _].
    apply quiet_bind; [apply quiet_fs | intros _; apply quiet_fs].
  - apply finishes_with_open.
    apply finishes_bind; [apply finishes_fs | intros _].
    apply finishes_bind; [apply finishes_clock | intros now].
    apply finishes_bind; [apply finishes_fs | intros _].
    apply finishes_bind; [apply finishes_fs | intros _; apply finishes_fs].
  - intros _ h. reflexivity.
Qed.

(** What [export_page] does with a page that is a dict: the outcome of its
    [try] block decides between the two log lines, and nothing is raised. *)
Lemma export_page_cases d h :
  (exists es, export_page_try W (JObj d) section_path h = (Ok tt, es)
              /\ export_page W (JObj d) section_path h = (Ok tt, es))
  \/ (exists e es,
        export_page_try W (JObj d) section_path h = (Raise e, es)
        /\ export_page W (JObj d) section_path h
           = (Ok tt,
              es ++ [ELog ERROR
                       (PageFailed (dict_get d (py "title")
                                             (JStr (py "Unknown"))) e)])).
Proof.
  unfold export_page, try_except.
  pose proof (export_page_try_reports (JObj d) h) as Hrep.
  destruct (export_page_try W (JObj d) section_path h) as [[[]|e|] es];
    cbn [fst snd] in Hrep.
  - left. now exists es.
  - right. exists e, es. split; [reflexivity|].
    cbn [is_Exception]. unfold export_page_except, bind.
    cbn [get_method ret log emit app]. reflexivity.
  - contradiction.
Qed.

Lemma export_page_dict d h :
  fst (export_page W (JObj d) section_path h) = Ok tt
  /\ List.length (page_reports (snd (export_page W (JObj d) section_path h)))
     = 1%nat.
Proof.
  pose proof (export_page_try_reports (JObj d) h) as Hrep.
  destruct (export_page_cases d h)
    as [(es & Htry & ->) | (e & es & Htry & ->)];
    rewrite Htry in Hrep; cbn [fst snd] in *.
  - auto.
  - rewrite page_reports_app, Hrep. auto.
Qed.

Lemma export_pages_cons page pages h :
  is_dict page = true ->
  export_pages W (page :: pages) section_path h
  = (emits (snd (export_page W page section_path h)) ;;
     export_pages W pages section_path) h.
Proof.
  destruct page; try discriminate. intros _.
  unfold export_pages. cbn [for_each]. unfold bind, emits.
  destruct (export_page_dict items h) as [Hok _].
  destruct (export_page W (JObj items) section_path h) as [r es].
  cbn [fst snd] in *. now subst r.
Qed.

Lemma export_pages_all pages h :
  forallb is_dict pages = true ->
  fst (export_pages W pages section_path h) = Ok tt
  /\ List.length (page_reports (snd (export_pages W pages section_path h)))
     = List.length pages.
Proof.
  revert h. induction pages as [|page pages IH]; intros h Hall.
  - cbn. auto.
  - cbn [forallb] in Hall. apply andb_true_iff in Hall. destruct Hall as [Hp Hps].
    rewrite (export_pages_cons page pages h Hp). unfold bind, emits.
    destruct page; try discriminate.
    destruct (export_page_dict items h) as [_ Hone].
    destruct (export_page W (JObj items) section_path h) as [r es].
    cbn [fst snd] in *.
    destruct (IH (h ++ es) Hps) as [Hok Hlen].
    destruct (export_pages W pages section_path (h ++ es)) as [r' es'].
    cbn [fst snd List.length] in *. rewrite page_reports_app, length_app.
    split; [exact Hok | lia].
Qed.

End PageExport.

(** C8: whatever is raised while one page is exported (by the content GET,
    the status check, the transformation, the file writes, or a missing id)
    is caught inside [export_page], which logs it and returns.  The loop
    over the pages of a section therefore goes on with the next page, ends
    normally, and the log has one line for every page, exported or failed. *)
Theorem page_failure_does_not_stop_the_walk (W : world) (section_path : path)
    (pages : list json) (h : history) :
  forallb is_dict pages = true ->
  (forall d h' e es,
     export_page_try W (JObj d) section_path h' = (Raise e, es) ->
     export_page W (JObj d) section_path h'
     = (Ok tt,
        es ++ [ELog ERROR (PageFailed (dict_get d (py "title")
                                                (JStr (py "Unknown"))) e)]))
  /\ (forall page rest,
        pages = page :: rest ->
        export_pages W pages section_path h
        = (emits (snd (export_page W page section_path h)) ;;
           export_pages W rest section_path) h)
  /\ fst (export_pages W pages section_path h) = Ok tt
  /\ List.length (page_reports (snd (export_pages W pages section_path h)))
     = List.length pages.
Proof.
  intros Hall. split.
  { intros d h' e es Htry.
    destruct (export_page_cases W section_path d h')
      as [(es' & H1 & _) | (e' & es' & H1 & H2)]; [congruence|].
    rewrite Htry in H1. now inversion H1; subst. }
  split.
  { intros page rest ->. apply export_pages_cons.
    cbn [forallb] in Hall. now apply andb_true_iff in Hall. }
  now apply export_pages_all.
Qed.

(** ** Text: searching and replacing *)

Section TextFacts.

Implicit Types (s t u f a r x y : str) (q c : ascii).

Lemma startswith_nil s : startswith s [] = true.
Proof. destruct s; reflexivity. Qed.

Lemma startswith_self u r : startswith (u ++ r) u = true.
Proof.
  induction u as [|c u IH]; cbn; [apply startswith_nil|].
  now rewrite Ascii.eqb_refl.
Qed.

Lemma chr_in_cons_false q c u :
  chr_in q (c :: u) = false -> Ascii.eqb c q = false /\ chr_in q u = false.
Proof.
  unfold chr_in. cbn [existsb]. intros H. apply orb_false_iff in H.
  destruct H as [H1 H2]. split; [|exact H2].
  rewrite Ascii.eqb_sym. exact H1.
Qed.

(** A character that is not in [u] stops every match of [u] that reaches it. *)
Lemma startswith_blocked a q r u :
  chr_in q u = false ->
  startswith (a ++ q :: r) u = startswith a u.
Proof.
  revert u. induction a as [|x a IH]; intros u Hq.
  - destruct u as [|c u]; [reflexivity|]. cbn.
    apply chr_in_cons_false in Hq. destruct Hq as [Hc _]. now rewrite Hc.
  - destruct u as [|c u]; [reflexivity|]. cbn.
    apply chr_in_cons_false in Hq. destruct Hq as [_ Hu]. now rewrite IH.
Qed.

Lemma startswith_blocked_hd q r u :
  chr_in q u = false -> u <> [] -> startswith (q :: r) u = false.
Proof.
  intros Hq Hu. rewrite (startswith_blocked [] q r u Hq : startswith (q :: r) u = _).
  destruct u; [congruence | reflexivity].
Qed.

Lemma str_in_nil_r u : u <> [] -> str_in u [] = false.
Proof. destruct u; [congruence | reflexivity]. Qed.

Lemma str_in_false_nonempty u s : str_in u s = false -> u <> [].
Proof.
  intros H ->. destruct s; cbn in H; discriminate.
Qed.

Lemma str_in_blocked u x q y :
  u <> [] -> chr_in q u = false ->
  str_in u (x ++ q :: y) = str_in u x || str_in u y.
Proof.
  intros Hu Hq. induction x as [|c x IH].
  - cbn [app]. cbn [str_in].
    rewrite (startswith_blocked_hd q y u Hq Hu).
    destruct u; [congruence | reflexivity].
  - change ((c :: x) ++ q :: y) with (c :: (x ++ q :: y)). cbn [str_in].
    change (c :: (x ++ q :: y)) with ((c :: x) ++ q :: y).
    rewrite (startswith_blocked (c :: x) q y u Hq), IH.
    now rewrite orb_assoc.
Qed.

Lemma startswith_chr u s c :
  startswith s u = true -> chr_in c u = true -> chr_in c s = true.
Proof.
  unfold chr_in. revert s. induction u as [|d u IH]; intros s Hs Hc;
    [discriminate|].
  destruct s as [|e s]; [discriminate|]. cbn in Hs.
  apply andb_true_iff in Hs. destruct Hs as [Hde Hs].
  apply Ascii.eqb_eq in Hde. subst e. cbn [existsb] in *.
  apply orb_true_iff in Hc. destruct Hc as [Hc|Hc].
  - now rewrite Hc.
  - rewrite (IH s Hs Hc). apply orb_true_r.
Qed.

(** A text without the character [c] contains no text that has it. *)
Lemma str_in_chr u s c :
  chr_in c u = true -> chr_in c s = false -> str_in u s = false.
Proof.
  intros Hu. induction s as [|d s IH]; intros Hs.
  - destruct u; [discriminate | reflexivity].
  - cbn [str_in].
    destruct (startswith (d :: s) u) eqn:E.
    + rewrite (startswith_chr u (d :: s) c E Hu) in Hs. discriminate.
    + cbn [orb]. apply IH. unfold chr_in in *. cbn [existsb] in Hs.
      now apply orb_false_iff in Hs.
Qed.

Lemma replace_skip old new x r :
  replace_from old new (List.length x) (x ++ r) = replace_from old new 0 r.
Proof. induction x as [|c x IH]; [reflexivity | exact IH]. Qed.

Lemma replace_occ old new r :
  old <> [] ->
  replace_from old new 0 (old ++ r) = new ++ replace_from old new 0 r.
Proof.
  destruct old as [|c old]; [congruence|]. intros _.
  change ((c :: old) ++ r) with (c :: (old ++ r)). cbn [replace_from].
  change (c :: (old ++ r)) with ((c :: old) ++ r).
  rewrite startswith_self.
  replace (List.length (c :: old) - 1)%nat with (List.length old)
    by (cbn [List.length]; lia).
  now rewrite replace_skip.
Qed.

Lemma replace_blocked old new a q r :
  str_in old a = false -> chr_in q old = false ->
  replace_from old new 0 (a ++ q :: r) = a ++ q :: replace_from old new 0 r.
Proof.
  intros Ha Hq. pose proof (str_in_false_nonempty old a Ha) as Hne.
  induction a as [|c a IH].
  - cbn [app replace_from].
    now rewrite (startswith_blocked_hd q r old Hq Hne).
  - cbn [str_in] in Ha. apply orb_false_iff in Ha. destruct Ha as [Hs Ha].
    change ((c :: a) ++ q :: r) with (c :: (a ++ q :: r)). cbn [replace_from].
    change (c :: (a ++ q :: r)) with ((c :: a) ++ q :: r).
    rewrite (startswith_blocked (c :: a) q r old Hq), Hs.
    now rewrite (IH Ha).
Qed.

Lemma replace_none old new s :
  str_in old s = false -> replace_from old new 0 s = s.
Proof.
  induction s as [|c s IH]; intros H; [reflexivity|].
  cbn [str_in] in H. apply orb_false_iff in H. destruct H as [Hs H].
  cbn [replace_from]. rewrite Hs. now rewrite (IH H).
Qed.

Lemma count_skip sub x r :
  count_from sub (List.length x) (x ++ r) = count_from sub 0 r.
Proof. induction x as [|c x IH]; [reflexivity | exact IH]. Qed.

Lemma count_occ sub r :
  sub <> [] -> count_from sub 0 (sub ++ r) = S (count_from sub 0 r).
Proof.
  destruct sub as [|c sub]; [congruence|]. intros _.
  change ((c :: sub) ++ r) with (c :: (sub ++ r)). cbn [count_from].
  change (c :: (sub ++ r)) with ((c :: sub) ++ r).
  rewrite startswith_self.
  replace (List.length (c :: sub) - 1)%nat with (List.length sub)
    by (cbn [List.length]; lia).
  now rewrite count_skip.
Qed.

Lemma count_blocked sub a q r :
  str_in sub a = false -> chr_in q sub = false ->
  count_from sub 0 (a ++ q :: r) = count_from sub 0 r.
Proof.
  intros Ha Hq. pose proof (str_in_false_nonempty sub a Ha) as Hne.
  induction a as [|c a IH].
  - cbn [app count_from].
    now rewrite (startswith_blocked_hd q r sub Hq Hne).
  - cbn [str_in] in Ha. apply orb_false_iff in Ha. destruct Ha as [Hs Ha].
    change ((c :: a) ++ q :: r) with (c :: (a ++ q :: r)). cbn [count_from].
    change (c :: (a ++ q :: r)) with ((c :: a) ++ q :: r).
    rewrite (startswith_blocked (c :: a) q r sub Hq), Hs.
    exact (IH Ha).
Qed.

Lemma count_none sub s :
  str_in sub s = false -> count_from sub 0 s = O.
Proof.
  induction s as [|c s IH]; intros H; [reflexivity|].
  cbn [str_in] in H. apply orb_false_iff in H. destruct H as [Hs H].
  cbn [count_from]. rewrite Hs. exact (IH H).
Qed.

Lemma str_replace_nonempty s old new :
  old <> [] -> str_replace s old new = replace_from old new 0 s.
Proof. destruct old; [congruence | reflexivity]. Qed.

Lemma str_count_nonempty s sub :
  sub <> [] -> str_count s sub = count_from sub 0 s.
Proof. destruct sub; [congruence | reflexivity]. Qed.

End TextFacts.

(** ** Local file names *)

Lemma chr_in_app c x y : chr_in c (x ++ y) = chr_in c x || chr_in c y.
Proof. unfold chr_in. apply existsb_app. Qed.

Lemma after_last_no_sep sep s : chr_in sep (after_last sep s) = false.
Proof.
  induction s as [|c s IH]; [reflexivity|]. cbn [after_last].
  destruct (chr_in sep s) eqn:Es; [exact IH|].
  destruct (Ascii.eqb c sep) eqn:Ec; [exact Es|].
  unfold chr_in in *. cbn [existsb]. rewrite Es, Ascii.eqb_sym, Ec.
  reflexivity.
Qed.

Lemma py_String c s : py (String c s) = c :: py s.
Proof. reflexivity. Qed.

Lemma chr_in_cons c d s :
  chr_in c (d :: s) = Ascii.eqb c d || chr_in c s.
Proof. reflexivity. Qed.

Lemma digits_no_slash d :
  chr_in "/" (py (NilEmpty.string_of_uint d)) = false.
Proof.
  induction d; cbn [NilEmpty.string_of_uint]; [reflexivity | ..];
    rewrite py_String, chr_in_cons, IHd; reflexivity.
Qed.

Lemma str_of_Z_no_slash n : chr_in "/" (str_of_Z n) = false.
Proof.
  unfold str_of_Z, NilZero.string_of_int, NilZero.string_of_uint.
  destruct (Z.to_int n) as [d|d].
  - destruct d; try apply digits_no_slash. reflexivity.
  - rewrite py_String, chr_in_cons. cbn [Ascii.eqb Bool.eqb orb].
    destruct d; try apply digits_no_slash; reflexivity.
Qed.

Section MediaNames.

Variable W : world.

Lemma media_filename_no_slash u r h f es :
  media_filename W u r h = (Ok f, es) -> chr_in "/" f = false.
Proof.
  unfold media_filename, bind.
  destruct (urlparse_path W u) as [p|e]; cbn [of_result ret raise];
    [|discriminate].
  destruct (is_empty (basename p) || negb (chr_in "." (basename p))).
  - destruct (str_in (py "image/") _); cbn [ret]; intros [= <- _];
      rewrite !chr_in_cons, chr_in_app, str_of_Z_no_slash, !chr_in_cons,
        ?after_last_no_sep; reflexivity.
  - cbn [ret]. intros [= <- _]. apply after_last_no_sep.
Qed.

Lemma download_try_no_slash u out h f es :
  download_try W u out h = (Ok f, es) -> chr_in "/" f = false.
Proof.
  unfold download_try. unfold bind at 1.
  destruct (session_get W (stream_get u) h) as [[r|e|] es0]; try discriminate.
  unfold bind at 1.
  destruct (raise_for_status r (h ++ es0)) as [[[]|e|] es1]; try discriminate.
  unfold bind at 1.
  destruct (media_filename W u r ((h ++ es0) ++ es1)) as [[name|e|] es2] eqn:En;
    try discriminate.
  apply media_filename_no_slash in En.
  unfold bind at 1.
  destruct (with_open W _ _ _ _) as [[[]|e|] es3]; try discriminate.
  unfold bind. cbn [log emit ret]. intros [= <- _]. exact En.
Qed.

(** The name [download_media] returns never has a slash in it. *)
Lemma download_media_no_slash u out h f es :
  download_media W u out h = (Ok f, es) -> chr_in "/" f = false.
Proof.
  intros Hd.
  destruct (download_media_cases W u out h)
    as [(f' & es' & Htry & H) | (e & es' & _ & H)];
    rewrite H in Hd; inversion Hd; subst.
  - now apply download_try_no_slash in Htry.
  - reflexivity.
Qed.

End MediaNames.

(** ** Rewriting image references *)

Lemma startswith_app_l s p p' :
  startswith s (p ++ p') = true -> startswith s p = true.
Proof.
  revert s. induction p as [|c p IH]; intros s H; [apply startswith_nil|].
  destruct s as [|d s]; [discriminate|]. cbn in *.
  apply andb_true_iff in H. destruct H as [H1 H2].
  now rewrite H1, (IH s H2).
Qed.

Lemma not_quote_chr_in q u :
  forallb not_quote u = true -> is_quote q = true -> chr_in q u = false.
Proof.
  intros Hu Hq. induction u as [|c u IH]; [reflexivity|].
  cbn [forallb] in Hu. apply andb_true_iff in Hu. destruct Hu as [Hc Hu].
  rewrite chr_in_cons, (IH Hu), orb_false_r.
  destruct (Ascii.eqb q c) eqn:E; [|reflexivity].
  apply Ascii.eqb_eq in E. subst c. unfold not_quote in Hc.
  now rewrite Hq in Hc.
Qed.

Lemma replace_blocked_hd old new q r :
  old <> [] -> chr_in q old = false ->
  replace_from old new 0 (q :: r) = q :: replace_from old new 0 r.
Proof.
  intros Hne Hq.
  exact (replace_blocked old new [] q r (str_in_nil_r old Hne) Hq).
Qed.

Lemma count_blocked_hd sub q r :
  sub <> [] -> chr_in q sub = false ->
  count_from sub 0 (q :: r) = count_from sub 0 r.
Proof.
  intros Hne Hq.
  exact (count_blocked sub [] q r (str_in_nil_r sub Hne) Hq).
Qed.

Lemma str_in_blocked_hd u q y :
  u <> [] -> chr_in q u = false -> str_in u (q :: y) = str_in u y.
Proof.
  intros Hne Hq.
  rewrite (str_in_blocked u [] q y Hne Hq : str_in u (q :: y) = _).
  now rewrite (str_in_nil_r u Hne).
Qed.

Lemma is_empty_false s : s <> [] -> is_empty s = false.
Proof. destruct s; [congruence | reflexivity]. Qed.

Section TwoReferences.

Variable W : world.
Variables (a b c u f : str) (q1 q2 q3 q4 : ascii).

Let html : str := a ++ q1 :: u ++ q2 :: b ++ q3 :: u ++ q4 :: c.
Let html' : str := a ++ q1 :: f ++ q2 :: b ++ q3 :: f ++ q4 :: c.

Hypothesis absolute :
  startswith u (py "http://") || startswith u (py "https://") = true.
Hypothesis no_quote : forallb not_quote u = true.
Hypothesis quotes :
  is_quote q1 && is_quote q2 && is_quote q3 && is_quote q4 = true.
Hypothesis not_in_a : str_in u a = false.
Hypothesis not_in_b : str_in u b = false.
Hypothesis not_in_c : str_in u c = false.

Lemma url_has_slash : chr_in "/" u = true.
Proof.
  apply orb_true_iff in absolute. destruct absolute as [H|H];
    apply (startswith_chr _ u "/" H); reflexivity.
Qed.

Lemma url_is_http : startswith u (py "http") = true.
Proof.
  apply orb_true_iff in absolute. destruct absolute as [H|H].
  - now apply (startswith_app_l u (py "http") (py "://")).
  - now apply (startswith_app_l u (py "http") (py "s://")).
Qed.

Lemma url_nonempty : u <> [].
Proof. pose proof url_is_http as H. now destruct u. Qed.

Lemma quote_blocks :
  chr_in q1 u = false /\ chr_in q2 u = false
  /\ chr_in q3 u = false /\ chr_in q4 u = false.
Proof.
  apply andb_true_iff in quotes. destruct quotes as [H123 H4].
  apply andb_true_iff in H123. destruct H123 as [H12 H3].
  apply andb_true_iff in H12. destruct H12 as [H1 H2].
  repeat split; now apply not_quote_chr_in.
Qed.

Lemma replace_both : str_replace html u f = html'.
Proof.
  destruct quote_blocks as (B1 & B2 & B3 & B4).
  pose proof url_nonempty as Hne.
  rewrite (str_replace_nonempty _ u f Hne). unfold html, html'.
  rewrite (replace_blocked u f a q1 _ not_in_a B1).
  rewrite (replace_occ u f _ Hne).
  rewrite (replace_blocked_hd u f q2 _ Hne B2).
  rewrite (replace_blocked u f b q3 _ not_in_b B3).
  rewrite (replace_occ u f _ Hne).
  rewrite (replace_blocked_hd u f q4 _ Hne B4).
  now rewrite (replace_none u f c not_in_c).
Qed.

Lemma url_gone : chr_in "/" f = false -> str_in u html' = false.
Proof.
  intros Hf. destruct quote_blocks as (B1 & B2 & B3 & B4).
  pose proof url_nonempty as Hne.
  pose proof (str_in_chr u f "/" url_has_slash Hf) as Huf.
  unfold html'.
  rewrite (str_in_blocked u a q1 _ Hne B1), not_in_a.
  rewrite (str_in_blocked u f q2 _ Hne B2), Huf.
  rewrite (str_in_blocked u b q3 _ Hne B3), not_in_b.
  rewrite (str_in_blocked u f q4 _ Hne B4), Huf.
  now rewrite not_in_c.
Qed.

Lemma name_twice :
  f <> [] -> forallb not_quote f = true ->
  str_in f a = false -> str_in f b = false -> str_in f c = false ->
  str_count html' f = 2%nat.
Proof.
  intros Hne Hq Ha Hb Hc.
  apply andb_true_iff in quotes. destruct quotes as [H123 H4].
  apply andb_true_iff in H123. destruct H123 as [H12 H3].
  apply andb_true_iff in H12. destruct H12 as [H1 H2].
  rewrite (str_count_nonempty _ f Hne). unfold html'.
  rewrite (count_blocked f a q1 _ Ha (not_quote_chr_in q1 f Hq H1)).
  rewrite (count_occ f _ Hne).
  rewrite (count_blocked_hd f q2 _ Hne (not_quote_chr_in q2 f Hq H2)).
  rewrite (count_blocked f b q3 _ Hb (not_quote_chr_in q3 f Hq H3)).
  rewrite (count_occ f _ Hne).
  rewrite (count_blocked_hd f q4 _ Hne (not_quote_chr_in q4 f Hq H4)).
  now rewrite (count_none f c Hc).
Qed.

Lemma rehome_both out h es :
  download_media W u out h = (Ok f, es) -> f <> [] ->
  fst (rehome W [u; u] html out h) = Ok html'.
Proof.
  intros Hd Hne. cbn [rehome]. rewrite url_is_http. unfold bind at 1.
  rewrite Hd, (is_empty_false f Hne). cbn [negb]. rewrite replace_both.
  unfold bind.
  destruct (download_media_returns W u out (h ++ es)) as (f2 & es2 & ->).
  pose proof (url_gone (download_media_no_slash W u out h f es Hd)) as Hgone.
  destruct (negb (is_empty f2)); cbn [ret fst]; [|reflexivity].
  rewrite (str_replace_nonempty _ u f2 url_nonempty).
  now rewrite (replace_none u f2 html' Hgone).
Qed.

End TwoReferences.

(** C6 (as amended): take an HTML body in which an absolute http(s) URL [u]
    stands between quotes at two places and nowhere else, and in which the
    image pattern finds [u] twice and nothing else.  If the first download
    of [u] gives the name [f], the text handed to the converter is the body
    with [f] in place of [u] at both places; it has no occurrence of [u].
    It has exactly two occurrences of [f] when [f] has no quote in it and
    does not already occur in the rest of the body. *)
Theorem both_references_rehomed (W : world) (a b c u f : str)
    (q1 q2 q3 q4 : ascii) (out : path) (h : history) (es : list event) :
  let html := a ++ q1 :: u ++ q2 :: b ++ q3 :: u ++ q4 :: c in
  let html' := a ++ q1 :: f ++ q2 :: b ++ q3 :: f ++ q4 :: c in
  img_urls html = [u; u] ->
  startswith u (py "http://") || startswith u (py "https://") = true ->
  forallb not_quote u = true ->
  is_quote q1 && is_quote q2 && is_quote q3 && is_quote q4 = true ->
  str_in u a = false -> str_in u b = false -> str_in u c = false ->
  download_media W u out h = (Ok f, es) ->
  f <> [] ->
  fst (process_html_content W html out h)
  = fst (of_result (h2m_handle W html') h)
  /\ str_in u html' = false
  /\ str_count html' u = O
  /\ (forallb not_quote f = true ->
      str_in f a = false -> str_in f b = false -> str_in f c = false ->
      str_count html' f = 2%nat).
Proof.
  intros html html' Himgs Habs Hnq Hq Ha Hb Hc Hd Hne.
  assert (Hgone : str_in u html' = false).
  { eapply url_gone; try eassumption.
    eapply download_media_no_slash; eassumption. }
  split.
  { unfold process_html_content, bind. fold html. rewrite Himgs.
    assert (Hr : fst (rehome W [u; u] html out h) = Ok html')
      by (eapply rehome_both; eassumption).
    destruct (rehome W [u; u] html out h) as [r es']. cbn [fst] in Hr.
    subst r. destruct (h2m_handle W html'); reflexivity. }
  split; [exact Hgone|].
  split.
  { rewrite str_count_nonempty; [now apply count_none|].
    eapply url_nonempty; eassumption. }
  intros Hfq Hfa Hfb Hfc. eapply name_twice; eassumption.
Qed.

Lemma both_references_rehomed_witness :
  let W := Script.in_turn [] (Success (Script.reply 200 None JNull)) in
  let u := py "http://h/a.png" in
  let html := py "<img src=" ++ dquote :: u ++ dquote
              :: py "><img src=" ++ "'"%char :: u ++ "'"%char :: py ">" in
  let html' := py "<img src=" ++ dquote :: py "a.png" ++ dquote
               :: py "><img src=" ++ "'"%char :: py "a.png" ++ "'"%char
               :: py ">" in
  fst (process_html_content W html [py "out"] []) = Ok html'
  /\ str_in u html' = false
  /\ str_count html' (py "a.png") = 2%nat.
Proof.
  intros W u html html'.
  destruct (both_references_rehomed W (py "<img src=") (py "><img src=")
              (py ">") u (py "a.png") dquote dquote "'"%char "'"%char
              [py "out"] []
              [EGet (stream_get u);
               EFs (OpenWrite [py "out"; py "a.png"] true);
               EFs (CloseFile [py "out"; py "a.png"]);
               ELog INFO (DownloadedMedia (py "a.png"))])
    as (Hrun & Hgone & _ & Htwice).
  - reflexivity.
  - reflexivity.
  - reflexivity.
  - reflexivity.
  - reflexivity.
  - reflexivity.
  - reflexivity.
  - reflexivity.
  - discriminate.
  - split; [exact Hrun|]. split; [exact Hgone|].
    apply Htwice; reflexivity.
Defined.

(** C6 (as stated) fails: this body refers to the image twice and names the
    file in an [alt] text as well; after the one global replacement the text
    has three occurrences of the local name, not two. *)
Lemma local_name_three_times :
  let W := Script.in_turn [] (Success (Script.reply 200 None JNull)) in
  let u := py "http://h/a.png" in
  let html := py "<img src=" ++ dquote :: u ++ dquote
              :: py " alt=" ++ dquote :: py "a.png" ++ dquote
              :: py "><img src=" ++ dquote :: u ++ dquote :: py ">" in
  let md := py "<img src=" ++ dquote :: py "a.png" ++ dquote
            :: py " alt=" ++ dquote :: py "a.png" ++ dquote
            :: py "><img src=" ++ dquote :: py "a.png" ++ dquote :: py ">" in
  img_urls html = [u; u]
  /\ str_count html u = 2%nat
  /\ fst (download_media W u [py "out"] []) = Ok (py "a.png")
  /\ fst (process_html_content W html [py "out"] []) = Ok md
  /\ str_count md u = 0%nat
  /\ str_count md (py "a.png") = 3%nat.
Proof. repeat split; reflexivity. Qed.

Lemma page_failure_does_not_stop_the_walk_witness :
  let W := Script.in_turn [Success (Script.reply 404 None JNull)]
                          (Success (Script.reply 200 None JNull)) in
  let pages := [JObj [(py "id", JStr (py "p1")); (py "title", JStr (py "A"))];
                JObj [(py "id", JStr (py "p2")); (py "title", JStr (py "B"))]] in
  fst (export_pages W pages [py "out"] []) = Ok tt
  /\ List.length (page_reports (snd (export_pages W pages [py "out"] [])))
     = 2%nat.
Proof.
  intros W pages.
  exact (proj2 (proj2 (page_failure_does_not_stop_the_walk W [py "out"] pages
                         [] eq_refl))).
Defined.

(** ** Runs on concrete inputs *)

(** A page whose content GET is refused is logged as failed; the next page
    of the section is written to its file. *)
Example failed_page_then_exported_page :
  let W := Script.in_turn [Success (Script.reply 404 None JNull)]
                          (Success (Script.reply 200 None JNull)) in
  let pages := [JObj [(py "id", JStr (py "p1")); (py "title", JStr (py "A"))];
                JObj [(py "id", JStr (py "p2")); (py "title", JStr (py "B"))]] in
  page_reports (snd (export_pages W pages [py "out"] []))
  = [(JStr (py "A"), Some (HTTPError 404 (py "body")));
     (JStr (py "B"), None)]
  /\ writes (snd (export_pages W pages [py "out"] []))
     = [([py "out"; py "B.md"], py "# B" ++ nl ++ nl);
        ([py "out"; py "B.md"],
         py "*Exported from OneNote on 2024-01-01 00:00:00*" ++ nl ++ nl);
        ([py "out"; py "B.md"], py "---" ++ nl ++ nl);
        ([py "out"; py "B.md"], py "body")].
Proof. split; reflexivity. Qed.

(** A download that meets a network error gives the empty name, and the
    body reaches the converter with the remote URL still in it. *)
Example failed_download_keeps_url :
  let W := Script.in_turn [] (Failure (OtherError (py "Network error"))) in
  let u := py "https://example.com/image.jpg" in
  let html := py "<p>x</p><img src='" ++ u ++ py "'>" in
  download_media W u [py "out"] []
  = (Ok [], [EGet (stream_get u);
             ELog ERROR (MediaFailed u (OtherError (py "Network error")))])
  /\ fst (process_html_content W html [py "out"] []) = Ok html.
Proof. split; reflexivity. Qed.

(** Names outside the page path: an empty display name is not replaced, and
    the directory is the parent itself. *)
Example empty_notebook_name :
  sanitize [] = [] /\ path_join [py "output"] (sanitize []) = [py "output"].
Proof. split; reflexivity. Qed.

(** ** Whole numbers in headers *)

Lemma digit_val_range c d : digit_val c = Some d -> 0 <= d <= 9.
Proof.
  unfold digit_val. destruct (_ && _) eqn:E; [|discriminate].
  intros [= <-]. apply andb_true_iff in E. destruct E as [E1 E2].
  apply Z.leb_le in E1. apply Z.leb_le in E2. lia.
Qed.

Lemma digit_not_int_space c : is_digit c = true -> is_int_space c = false.
Proof.
  unfold is_digit, digit_val, is_int_space.
  destruct (_ && _) eqn:E; [|discriminate]. intros _.
  apply andb_true_iff in E. destruct E as [E1 E2].
  apply Z.leb_le in E1. apply Z.leb_le in E2.
  repeat match goal with
         | |- context [?x <=? ?y] =>
           destruct (Z.leb_spec x y); try lia
         | |- context [?x =? ?y] =>
           destruct (Z.eqb_spec x y); try lia
         end; reflexivity.
Qed.

Lemma lstrip_with_digits s :
  forallb is_digit s = true -> lstrip_with is_int_space s = s.
Proof.
  destruct s as [|c s]; [reflexivity|]. cbn [forallb lstrip_with].
  intros H. apply andb_true_iff in H. destruct H as [Hc _].
  now rewrite (digit_not_int_space c Hc).
Qed.

Lemma strip_with_digits s :
  forallb is_digit s = true -> strip_with is_int_space s = s.
Proof.
  intros H. unfold strip_with. rewrite (lstrip_with_digits s H).
  rewrite lstrip_with_digits; [apply rev_involutive|].
  rewrite forallb_forall in *. intros c Hc. apply H. now apply in_rev.
Qed.

Lemma count_digits_all s :
  forallb is_digit s = true -> count_digits s = Z.of_nat (List.length s).
Proof.
  intros H. unfold count_digits. f_equal. f_equal.
  induction s as [|c s IH]; [reflexivity|].
  cbn [forallb] in H. apply andb_true_iff in H. destruct H as [Hc Hs].
  cbn [filter]. rewrite Hc. f_equal. exact (IH Hs).
Qed.

Lemma int_digits_all s acc after :
  forallb is_digit s = true -> 0 <= acc -> s <> [] \/ after = true ->
  exists n, int_digits acc after s = Some n /\ 0 <= n.
Proof.
  revert acc after. induction s as [|c s IH]; intros acc after Hs Hacc Hne.
  - destruct Hne as [Hne| ->]; [congruence|]. exists acc. now split.
  - cbn [forallb] in Hs. apply andb_true_iff in Hs. destruct Hs as [Hc Hs].
    cbn [int_digits]. unfold is_digit in Hc.
    destruct (digit_val c) as [d|] eqn:Ed; [|discriminate].
    pose proof (digit_val_range c d Ed).
    apply IH; [assumption | lia | now right].
Qed.

(** Every non-empty text of at most 4300 decimal digits is read by [int()]
    as a whole number. *)
Lemma whole_number_header s :
  s <> [] -> forallb is_digit s = true ->
  Z.of_nat (List.length s) <= INT_MAX_STR_DIGITS ->
  exists n, int_of_str s = Some n /\ 0 <= n.
Proof.
  intros Hne Hs Hlen. unfold int_of_str. rewrite (strip_with_digits s Hs).
  destruct (int_digits_all s 0 false Hs (Z.le_refl 0) (or_introl Hne))
    as (n & Hn & Hpos).
  exists n. split; [|exact Hpos].
  assert (Hb : int_body s = Some n).
  { unfold int_body. rewrite (count_digits_all s Hs).
    destruct (INT_MAX_STR_DIGITS <? Z.of_nat (List.length s)) eqn:E;
      [apply Z.ltb_lt in E; lia | exact Hn]. }
  destruct s as [|c s]; [congruence|].
  cbn [forallb] in Hs. apply andb_true_iff in Hs. destruct Hs as [Hc _].
  destruct c as [[] [] [] [] [] [] [] []]; try discriminate Hc; exact Hb.
Qed.

(** What [int()] has read, [str()] writes: the number has at most 4300
    digits. *)
Lemma count_digits_cons c s :
  count_digits (c :: s)
  = (if is_digit c then 1 else 0) + count_digits s.
Proof.
  unfold count_digits. cbn [filter]. destruct (is_digit c); cbn [List.length]; lia.
Qed.

Lemma count_digits_nonneg s : 0 <= count_digits s.
Proof. unfold count_digits. lia. Qed.

Lemma int_digits_bound s acc after n :
  0 <= acc -> int_digits acc after s = Some n ->
  0 <= n < (acc + 1) * 10 ^ count_digits s.
Proof.
  revert acc after. induction s as [|c s IH]; intros acc after Hacc H.
  - cbn [int_digits] in H. destruct after; [|discriminate].
    injection H as <-. change (count_digits []) with 0. lia.
  - cbn [int_digits] in H. rewrite count_digits_cons. unfold is_digit.
    pose proof (count_digits_nonneg s) as Hd.
    destruct (digit_val c) as [d|] eqn:Ed.
    + pose proof (digit_val_range c d Ed) as Hr.
      apply IH in H; [|lia].
      rewrite Z.pow_add_r by lia. change (10 ^ 1) with 10.
      pose proof (Z.pow_pos_nonneg 10 (count_digits s) ltac:(lia) Hd) as Hp.
      set (P := 10 ^ count_digits s) in *. clearbody P. nia.
    + destruct (Ascii.eqb c "_" && after); [|discriminate].
      apply IH in H; [|exact Hacc]. rewrite Z.add_0_l. exact H.
Qed.

Lemma int_body_bound r n :
  int_body r = Some n -> 0 <= n < 10 ^ INT_MAX_STR_DIGITS.
Proof.
  unfold int_body.
  destruct (INT_MAX_STR_DIGITS <? count_digits r) eqn:E; [discriminate|].
  apply Z.ltb_ge in E. intros H.
  apply int_digits_bound in H; [|lia]. rewrite Z.mul_1_l in H.
  pose proof (Z.pow_le_mono_r 10 _ _ ltac:(lia) E) as Hle.
  set (L := 10 ^ INT_MAX_STR_DIGITS) in *. clearbody L. lia.
Qed.

Lemma int_of_str_shown v n : int_of_str v = Some n -> str_of_int_ok n = true.
Proof.
  intros H. apply str_of_int_ok_spec. unfold int_of_str in H.
  set (L := 10 ^ INT_MAX_STR_DIGITS) in *.
  assert (Hpos : forall r m, int_body r = Some m -> Z.abs m < L).
  { intros r m Hm. apply int_body_bound in Hm. fold L in Hm. lia. }
  assert (Hneg : forall r m, option_map Z.opp (int_body r) = Some m ->
                             Z.abs m < L).
  { intros r m Hm. destruct (int_body r) as [k|] eqn:Ek; [|discriminate].
    injection Hm as <-. apply int_body_bound in Ek. fold L in Ek. lia. }
  clearbody L.
  destruct (strip_with is_int_space v) as [|c r]; [now apply (Hpos [])|].
  destruct c as [[] [] [] [] [] [] [] []];
    solve [ now apply (Hpos _ _ H) | now apply (Hneg _ _ H) ].
Qed.

(** One notebook [Work] with one section [Ideas] and one page [Q1 Plan]
    whose body has a heading and one remote image: the image is stored
    beside the page, and the page file holds the title line, the time line,
    the rule, and the body with the image's local name. *)
Example one_notebook_end_to_end :
  let img := py "https://ex.com/a.png" in
  let body := py "<h1>Q1 Plan</h1><img src=" ++ dquote :: img
              ++ dquote :: py ">" in
  let W := Script.by_url
    [(graph ++ py "notebooks",
      Script.listing [JObj [(py "id", JStr (py "n1"));
                            (py "displayName", JStr (py "Work"))]]);
     (graph ++ py "notebooks/n1/sections",
      Script.listing [JObj [(py "id", JStr (py "s1"));
                            (py "displayName", JStr (py "Ideas"))]]);
     (graph ++ py "sections/s1/pages",
      Script.listing [JObj [(py "id", JStr (py "p1"));
                            (py "title", JStr (py "Q1 Plan"))]]);
     (graph ++ py "pages/p1/content", Script.document body []);
     (img, Script.document [] [py "PNG"])] in
  let dir := [py "output"; py "Work"; py "Ideas"] in
  let run := export_notebooks W 0 [py "output"] [] in
  fst run = Ok tt
  /\ writes (snd run)
     = [(dir ++ [py "a.png"], py "PNG");
        (dir ++ [py "Q1 Plan.md"], py "# Q1 Plan" ++ nl ++ nl);
        (dir ++ [py "Q1 Plan.md"],
         py "*Exported from OneNote on 2024-01-01 00:00:00*" ++ nl ++ nl);
        (dir ++ [py "Q1 Plan.md"], py "---" ++ nl ++ nl);
        (dir ++ [py "Q1 Plan.md"],
         py "<h1>Q1 Plan</h1><img src=" ++ dquote :: py "a.png"
         ++ dquote :: py ">")]
  /\ page_reports (snd run) = [(JStr (py "Q1 Plan"), None)].
Proof. repeat split; reflexivity. Qed.

(** A record of the listing that is not a dict is outside [export_page]'s
    care: the handler itself calls [page.get], and that raises. *)
Example record_that_is_not_a_dict :
  let W := Script.in_turn [] (Success (Script.reply 200 None JNull)) in
  export_page W (JStr (py "p1")) [py "out"] [] = (Raise AttributeError, []).
Proof. reflexivity. Qed.

(** * Further properties *)

(** ** The Caller: success, failures, and the schedule of sleeps *)

Section CallerMore.

Variable W : world.
Variables (url : json) (max_retries : Z).

Let get := EGet (plain_get url).

Lemma attempt_success a h r v :
  http_get W h (plain_get url) = Success r ->
  status_code r < 400 ->
  json_body r = Success v ->
  attempt W url max_retries a h = (Ok (Return v), [get]).
Proof.
  intros Hget Hst Hjson.
  unfold attempt, try_except, attempt_try, bind, session_get, raise_for_status.
  rewrite Hget.
  destruct (status_code r =? 429) eqn:E; [apply Z.eqb_eq in E; lia|].
  destruct (500 <=? status_code r) eqn:E5; [apply Z.leb_le in E5; lia|].
  replace (400 <=? status_code r) with false by (symmetry; apply Z.leb_gt; lia).
  cbn [andb ret]. rewrite Hjson. reflexivity.
Qed.

(** An exception of the GET that is not a [RequestException]. *)
Lemma attempt_get_foreign a h e :
  http_get W h (plain_get url) = Failure e ->
  is_RequestException e = false ->
  attempt W url max_retries a h = (Raise e, [get]).
Proof.
  intros Hget Hreq.
  unfold attempt, try_except, attempt_try, bind, session_get.
  now rewrite Hget, Hreq.
Qed.

(** What the handler does with a [RequestException]: on the attempt numbered
    [max_retries] it logs and raises again, on another attempt up to 33 it
    logs, sleeps and goes on. *)
Lemma attempt_except_last e h :
  Z.abs max_retries <= SLEEP_MAX ->
  attempt_except W max_retries max_retries e h
  = (Raise e, [ELog ERROR (GraphFailed max_retries e)]).
Proof.
  intros Hm. unfold attempt_except, bind. rewrite Z.eqb_refl.
  rewrite fstr_int_small by exact Hm. reflexivity.
Qed.

Lemma attempt_except_early a e h :
  a <> max_retries -> a <= 33 -> timer_takes W (backoff a) ->
  attempt_except W max_retries a e h
  = (Ok Continue,
     [ELog WARNING (RequestFailed e (backoff a)); ESleep (backoff a)]).
Proof.
  intros Hne Ha Ht. unfold attempt_except, bind.
  replace (a =? max_retries) with false by (symmetry; now apply Z.eqb_neq).
  rewrite fstr_int_backoff by exact Ha. cbn [log emit ret app].
  rewrite (time_sleep_backoff W a _ Ha Ht). reflexivity.
Qed.

Lemma attempt_get_failed_last h e :
  http_get W h (plain_get url) = Failure e ->
  is_RequestException e = true ->
  Z.abs max_retries <= SLEEP_MAX ->
  attempt W url max_retries max_retries h
  = (Raise e, [get; ELog ERROR (GraphFailed max_retries e)]).
Proof.
  intros Hget Hreq Hm.
  unfold attempt, try_except, attempt_try, bind, session_get.
  rewrite Hget, Hreq, (attempt_except_last e _ Hm). reflexivity.
Qed.

Lemma attempt_get_failed_early a h e :
  http_get W h (plain_get url) = Failure e ->
  is_RequestException e = true ->
  a <> max_retries -> a <= 33 -> timer_takes W (backoff a) ->
  attempt W url max_retries a h
  = (Ok Continue,
     [get; ELog WARNING (RequestFailed e (backoff a)); ESleep (backoff a)]).
Proof.
  intros Hget Hreq Hne Ha Ht.
  unfold attempt, try_except, attempt_try, bind, session_get.
  rewrite Hget, Hreq, (attempt_except_early a e _ Hne Ha Ht). reflexivity.
Qed.

(** The same for an exception of [response.json()]. *)
Lemma attempt_try_json_failed a h r e :
  http_get W h (plain_get url) = Success r ->
  status_code r < 400 ->
  json_body r = Failure e ->
  attempt_try W url a h = (Raise e, [get]).
Proof.
  intros Hget Hst Hjson.
  unfold attempt_try, bind, session_get, raise_for_status.
  rewrite Hget.
  destruct (status_code r =? 429) eqn:E; [apply Z.eqb_eq in E; lia|].
  destruct (500 <=? status_code r) eqn:E5; [apply Z.leb_le in E5; lia|].
  replace (400 <=? status_code r) with false by (symmetry; apply Z.leb_gt; lia).
  cbn [andb ret]. rewrite Hjson. reflexivity.
Qed.

Lemma attempt_json_foreign a h r e :
  http_get W h (plain_get url) = Success r ->
  status_code r < 400 ->
  json_body r = Failure e ->
  is_RequestException e = false ->
  attempt W url max_retries a h = (Raise e, [get]).
Proof.
  intros Hget Hst Hjson Hreq. unfold attempt, try_except.
  now rewrite (attempt_try_json_failed a h r e Hget Hst Hjson), Hreq.
Qed.

Lemma attempt_json_failed_last h r e :
  http_get W h (plain_get url) = Success r ->
  status_code r < 400 ->
  json_body r = Failure e ->
  is_RequestException e = true ->
  Z.abs max_retries <= SLEEP_MAX ->
  attempt W url max_retries max_retries h
  = (Raise e, [get; ELog ERROR (GraphFailed max_retries e)]).
Proof.
  intros Hget Hst Hjson Hreq Hm. unfold attempt, try_except.
  rewrite (attempt_try_json_failed _ h r e Hget Hst Hjson), Hreq.
  rewrite (attempt_except_last e _ Hm). reflexivity.
Qed.

Lemma attempt_json_failed_early a h r e :
  http_get W h (plain_get url) = Success r ->
  status_code r < 400 ->
  json_body r = Failure e ->
  is_RequestException e = true ->
  a <> max_retries -> a <= 33 -> timer_takes W (backoff a) ->
  attempt W url max_retries a h
  = (Ok Continue,
     [get; ELog WARNING (RequestFailed e (backoff a)); ESleep (backoff a)]).
Proof.
  intros Hget Hst Hjson Hreq Hne Ha Ht. unfold attempt, try_except.
  rewrite (attempt_try_json_failed a h r e Hget Hst Hjson), Hreq.
  rewrite (attempt_except_early a e _ Hne Ha Ht). reflexivity.
Qed.

Lemma attempt_429_negative a h r v n :
  http_get W h (plain_get url) = Success r ->
  status_code r = 429 ->
  retry_after r = Some v ->
  int_of_str v = Some n ->
  - SLEEP_MAX <= n < 0 ->
  attempt W url max_retries a h
  = (Raise ValueError, [get; ELog WARNING (RateLimited n)]).
Proof.
  intros Hget Hst Hra Hint Hn.
  unfold attempt, try_except, attempt_try, bind, session_get, py_int.
  rewrite Hget, Hst, Hra, Hint. cbn [Z.eqb Pos.eqb ret log emit].
  unfold fstr_int. rewrite (int_of_str_shown v n Hint). cbn [ret].
  rewrite (time_sleep_negative W n _ Hn). reflexivity.
Qed.

Lemma retry_loop_all_fail e early h :
  (forall h', http_get W h' (plain_get url) = Failure e) ->
  is_RequestException e = true ->
  Z.abs max_retries <= SLEEP_MAX ->
  (forall a, In a early ->
             a <> max_retries /\ a <= 33 /\ timer_takes W (backoff a)) ->
  fst (retry_loop W url max_retries (early ++ [max_retries]) h) = Raise e
  /\ sleeps (snd (retry_loop W url max_retries (early ++ [max_retries]) h))
     = map backoff early
  /\ gets (snd (retry_loop W url max_retries (early ++ [max_retries]) h))
     = map (fun _ => plain_get url) (early ++ [max_retries]).
Proof.
  intros Hall Hreq Hm. revert h.
  induction early as [|a early IH]; intros h Hne.
  - cbn [app].
    rewrite (retry_loop_raise W url max_retries max_retries [] h
               [get; ELog ERROR (GraphFailed max_retries e)] e).
    + auto.
    + exact (attempt_get_failed_last h e (Hall h) Hreq Hm).
  - cbn [app].
    rewrite (retry_loop_continue W url max_retries a (early ++ [max_retries])
               h [get; ELog WARNING (RequestFailed e (backoff a));
                  ESleep (backoff a)]).
    + unfold bind, emits. set (h1 := h ++ _).
      destruct (IH h1) as (Hr & Hs & Hg).
      { intros a' Hin. apply Hne. now right. }
      destruct (retry_loop W url max_retries _ h1) as [res es].
      cbn [fst snd] in *. rewrite sleeps_app, gets_app, Hs, Hg. cbn. auto.
    + destruct (Hne a (or_introl eq_refl)) as (Hd & Hlow & Ht).
      exact (attempt_get_failed_early a h e (Hall h) Hreq Hd Hlow Ht).
Qed.

(** A response is one the Caller answers by sleeping and going on. *)
Lemma attempt_retryable a h r :
  http_get W h (plain_get url) = Success r ->
  a <= 33 -> timer_takes W (backoff a) ->
  500 <= status_code r
  \/ (status_code r = 429
      /\ (retry_after r = None
          \/ exists v n, retry_after r = Some v /\ int_of_str v = Some n
                         /\ 0 <= n <= 9223372036 /\ timer_takes W n)) ->
  exists es, attempt W url max_retries a h = (Ok Continue, es)
             /\ gets es = [plain_get url].
Proof.
  intros Hget Ha Ht [H5 | [H429 [Hnone | (v & n & Hv & Hn & Hpos & Htn)]]].
  - rewrite (attempt_5xx W url max_retries a h r Hget H5 Ha Ht).
    eexists. split; reflexivity.
  - rewrite (attempt_429_absent W url max_retries a h r Hget H429 Hnone Ha Ht).
    eexists. split; reflexivity.
  - rewrite (attempt_429_header W url max_retries a h r v n
               Hget H429 Hv Hn Hpos Htn).
    eexists. split; reflexivity.
Qed.


End CallerMore.

Lemma call_returns_first (W : world) (url : json)
    (max_retries : Z) (h : history) (r : response) (v : json) :
  0 <= max_retries ->
  http_get W (h ++ [ECall url max_retries]) (plain_get url) = Success r ->
  status_code r < 400 ->
  json_body r = Success v ->
  call_graph_with_retry W url max_retries h
  = (Ok v, [ECall url max_retries; EGet (plain_get url)]).
Proof.
  intros Hm Hget Hst Hjson. unfold call_graph_with_retry, bind. cbn [emit].
  rewrite (py_range_snoc max_retries Hm).
  destruct (py_range max_retries ++ [max_retries]) as [|a rest] eqn:E.
  { now destruct (py_range max_retries). }
  rewrite (retry_loop_return W url max_retries a rest _ _ v
             (attempt_success W url max_retries a _ r v Hget Hst Hjson)).
  reflexivity.
Qed.

(** X1: a first response with a status below 400 (a 2xx, but a 1xx or 3xx
    as well: only 400..599 and 429 are looked at) and a body that parses is
    returned at once: one GET, no sleep, no log line. *)
Theorem first_response_is_returned (W : world) (url : json)
    (max_retries : Z) (h : history) (r : response) (v : json) :
  0 <= max_retries ->
  http_get W (h ++ [ECall url max_retries]) (plain_get url) = Success r ->
  status_code r < 400 ->
  json_body r = Success v ->
  call_graph_with_retry W url max_retries h
  = (Ok v, [ECall url max_retries; EGet (plain_get url)]).
Proof. apply call_returns_first. Qed.

Lemma first_response_is_returned_witness :
  let W := Script.in_turn [] (Success (Script.reply 304 None (JNum 7))) in
  call_graph_with_retry W (JStr (py "u")) 3 []
  = (Ok (JNum 7), [ECall (JStr (py "u")) 3; EGet (plain_get (JStr (py "u")))]).
Proof.
  intros W.
  refine (first_response_is_returned W (JStr (py "u")) 3 []
            (Script.reply 304 None (JNum 7)) (JNum 7) _ _ _ _).
  - lia.
  - reflexivity.
  - cbn. lia.
  - reflexivity.
Defined.

(** X2: when every GET fails with the same [RequestException], the Caller
    makes [max_retries + 1] GETs, sleeps [BASE_DELAY * 2 ** attempt], that is
    [2 ^ attempt] seconds, after each of the first [max_retries] (not after
    the last), and then raises that exception to its caller.  The budget is
    at most 34, so that the last sleep, at attempt 33, is one [time.sleep]
    accepts, and the platform's timer takes these sleeps. *)
Theorem persistent_failure_is_raised (W : world) (url : json)
    (max_retries : Z) (h : history) (e : exn) :
  0 <= max_retries <= 34 ->
  (forall a, 0 <= a < max_retries -> timer_takes W (2 ^ a)) ->
  (forall h', http_get W h' (plain_get url) = Failure e) ->
  is_RequestException e = true ->
  fst (call_graph_with_retry W url max_retries h) = Raise e
  /\ sleeps (snd (call_graph_with_retry W url max_retries h))
     = map (Z.pow 2) (py_range max_retries)
  /\ gets (snd (call_graph_with_retry W url max_retries h))
     = map (fun _ => plain_get url) (py_range (max_retries + 1)).
Proof.
  intros Hm Ht Hall Hreq. unfold call_graph_with_retry, bind. cbn [emit].
  rewrite (py_range_snoc max_retries (proj1 Hm)).
  destruct (retry_loop_all_fail W url max_retries e (py_range max_retries)
              (h ++ [ECall url max_retries]) Hall Hreq) as (Hr & Hs & Hg).
  { unfold SLEEP_MAX. lia. }
  { intros a Ha. pose proof (py_range_below _ _ Ha).
    pose proof (py_range_nonneg _ _ Ha).
    split; [lia|]. split; [lia|]. rewrite backoff_pow. apply Ht. lia. }
  destruct (retry_loop W url max_retries _ _) as [res es].
  cbn [fst snd] in *. rewrite map_backoff in Hs. auto.
Qed.

Lemma persistent_failure_is_raised_witness :
  let e := RequestError (py "connection reset") in
  let W := Script.in_turn [] (Failure e) in
  fst (call_graph_with_retry W (JStr (py "u")) 3 []) = Raise e
  /\ sleeps (snd (call_graph_with_retry W (JStr (py "u")) 3 [])) = [1; 2; 4].
Proof.
  intros e W.
  destruct (persistent_failure_is_raised W (JStr (py "u")) 3 [] e)
    as (Hr & Hs & _).
  - lia.
  - intros a _ h'. reflexivity.
  - intros h'. subst W. cbn. now destruct (List.length (gets h')).
  - reflexivity.
  - split; [exact Hr | exact Hs].
Defined.

(** X3: an exception of [session.get] that is not a [RequestException] is
    not retried: at any attempt it leaves the Caller right after the GET,
    without a sleep and without a log line. *)
Theorem foreign_exception_is_not_retried (W : world) (url : json)
    (max_retries a : Z) (rest : list Z) (h : history) (e : exn) :
  http_get W h (plain_get url) = Failure e ->
  is_RequestException e = false ->
  retry_loop W url max_retries (a :: rest) h
  = (Raise e, [EGet (plain_get url)]).
Proof.
  intros Hget Hreq. apply retry_loop_raise.
  exact (attempt_get_foreign W url max_retries a h e Hget Hreq).
Qed.

Lemma foreign_exception_is_not_retried_witness :
  let W := Script.in_turn [] (Failure (OSError (py "too many open files"))) in
  retry_loop W (JStr (py "u")) 3 [0; 1; 2; 3] []
  = (Raise (OSError (py "too many open files")),
     [EGet (plain_get (JStr (py "u")))]).
Proof.
  intros W.
  refine (foreign_exception_is_not_retried W (JStr (py "u")) 3 0 [1; 2; 3] []
            (OSError (py "too many open files")) _ _); reflexivity.
Defined.

(** X4: a 429 response whose [Retry-After] value [int()] reads as a negative
    number, down to -9223372036, ends the call with the [ValueError] of
    [time.sleep]: the warning is logged, nothing is slept, nothing is
    retried.  (Below that number [time.sleep] raises an [OverflowError]
    instead.) *)
Theorem negative_retry_after_raises (W : world) (url : json)
    (max_retries a : Z) (rest : list Z) (h : history) (r : response)
    (v : str) (n : Z) :
  http_get W h (plain_get url) = Success r ->
  status_code r = 429 ->
  retry_after r = Some v ->
  int_of_str v = Some n ->
  -9223372036 <= n < 0 ->
  retry_loop W url max_retries (a :: rest) h
  = (Raise ValueError, [EGet (plain_get url); ELog WARNING (RateLimited n)]).
Proof.
  intros Hget Hst Hra Hint Hn. apply retry_loop_raise.
  now apply (attempt_429_negative W url max_retries a h r v n).
Qed.

Lemma negative_retry_after_raises_witness :
  let W := Script.in_turn []
             (Success (Script.reply 429 (Some (py "-5")) JNull)) in
  retry_loop W (JStr (py "u")) 3 [0; 1; 2; 3] []
  = (Raise ValueError,
     [EGet (plain_get (JStr (py "u"))); ELog WARNING (RateLimited (-5))]).
Proof.
  intros W.
  refine (negative_retry_after_raises W (JStr (py "u")) 3 0 [1; 2; 3] []
            (Script.reply 429 (Some (py "-5")) JNull) (py "-5") (-5)
            _ _ _ _ _); try reflexivity.
  lia.
Defined.

Lemma retry_loop_all_retryable (W : world) (url : json) (max_retries : Z)
    (attempts : list Z) (h : history) :
  (forall a, In a attempts -> a <= 33 /\ timer_takes W (backoff a)) ->
  (forall h', exists r,
      http_get W h' (plain_get url) = Success r
      /\ (500 <= status_code r
          \/ (status_code r = 429
              /\ (retry_after r = None
                  \/ exists v n, retry_after r = Some v
                                 /\ int_of_str v = Some n
                                 /\ 0 <= n <= 9223372036
                                 /\ timer_takes W n)))) ->
  fst (retry_loop W url max_retries attempts h) = Ok JNull
  /\ gets (snd (retry_loop W url max_retries attempts h))
     = map (fun _ => plain_get url) attempts.
Proof.
  intros Hlow Hall. revert h. induction attempts as [|a rest IH]; intros h.
  - cbn. auto.
  - destruct (Hall h) as (r & Hget & Hst).
    destruct (Hlow a (or_introl eq_refl)) as [Ha Ht].
    destruct (attempt_retryable W url max_retries a h r Hget Ha Ht Hst)
      as (es & Hatt & Hg).
    rewrite (retry_loop_continue W url max_retries a rest h es Hatt).
    unfold bind, emits.
    destruct (IH (fun b Hb => Hlow b (or_intror Hb)) (h ++ es)) as (Hr & Hgs).
    destruct (retry_loop W url max_retries rest (h ++ es)) as [res es'].
    cbn [fst snd] in *. rewrite gets_app, Hg, Hgs. auto.
Qed.

Lemma call_all_retryable (W : world) (url : json)
    (max_retries : Z) (h : history) :
  max_retries <= 33 ->
  (forall a, 0 <= a <= max_retries -> timer_takes W (2 ^ a)) ->
  (forall h', exists r,
      http_get W h' (plain_get url) = Success r
      /\ (500 <= status_code r
          \/ (status_code r = 429
              /\ (retry_after r = None
                  \/ exists v n, retry_after r = Some v
                                 /\ int_of_str v = Some n
                                 /\ 0 <= n <= 9223372036
                                 /\ timer_takes W n)))) ->
  fst (call_graph_with_retry W url max_retries h) = Ok JNull
  /\ gets (snd (call_graph_with_retry W url max_retries h))
     = map (fun _ => plain_get url) (py_range (max_retries + 1)).
Proof.
  intros Hm Ht Hall. unfold call_graph_with_retry, bind. cbn [emit].
  destruct (retry_loop_all_retryable W url max_retries
              (py_range (max_retries + 1)) (h ++ [ECall url max_retries]))
    as (Hr & Hg).
  { intros a Ha. pose proof (py_range_below _ _ Ha).
    pose proof (py_range_nonneg _ _ Ha).
    split; [lia|]. rewrite backoff_pow. apply Ht. lia. }
  { exact Hall. }
  destruct (retry_loop W url max_retries _ _) as [res es].
  cbn [fst snd] in *. auto.
Qed.

(** X5: when every response is a 429 (without [Retry-After], or with a whole
    number of at most 9223372036 seconds in it) or has a status of 500 or
    more, in any mix, the Caller uses up its [max_retries + 1] attempts and
    returns [None]; it gives its caller no exception and no body.  The
    budget is at most 33, so that every backoff sleep is one [time.sleep]
    accepts, and the platform's timer takes the sleeps asked for. *)
Theorem retryable_statuses_end_in_None (W : world) (url : json)
    (max_retries : Z) (h : history) :
  max_retries <= 33 ->
  (forall a, 0 <= a <= max_retries -> timer_takes W (2 ^ a)) ->
  (forall h', exists r,
      http_get W h' (plain_get url) = Success r
      /\ (500 <= status_code r
          \/ (status_code r = 429
              /\ (retry_after r = None
                  \/ exists v n, retry_after r = Some v
                                 /\ int_of_str v = Some n
                                 /\ 0 <= n <= 9223372036
                                 /\ timer_takes W n)))) ->
  fst (call_graph_with_retry W url max_retries h) = Ok JNull
  /\ gets (snd (call_graph_with_retry W url max_retries h))
     = map (fun _ => plain_get url) (py_range (max_retries + 1)).
Proof. apply call_all_retryable. Qed.

Lemma retryable_statuses_end_in_None_witness :
  let W := Script.in_turn [Success (Script.reply 429 (Some (py "2")) JNull);
                           Success (Script.reply 502 None JNull)]
                          (Success (Script.reply 429 None JNull)) in
  fst (call_graph_with_retry W (JStr (py "u")) 3 []) = Ok JNull
  /\ List.length (gets (snd (call_graph_with_retry W (JStr (py "u")) 3 [])))
     = 4%nat.
Proof.
  intros W.
  destruct (retryable_statuses_end_in_None W (JStr (py "u")) 3 [])
    as (Hr & Hg).
  - lia.
  - intros a _ h'. reflexivity.
  - intros h'. subst W. cbn.
    destruct (List.length (gets h')) as [|[|[|k]]]; eexists;
      (split; [reflexivity|]); cbn.
    + right. split; [reflexivity|]. right. exists (py "2"), 2.
      split; [reflexivity | split; [reflexivity | split; [lia|]]].
      intros h''. reflexivity.
    + left. lia.
    + right. split; [reflexivity|]. now left.
    + right. split; [reflexivity|]. now left.
  - split; [exact Hr|]. now rewrite Hg.
Defined.

(** X6: with a negative [max_retries] the loop body never runs: the Caller
    issues no GET at all and returns [None]. *)
Theorem negative_budget_makes_no_request (W : world) (url : json)
    (max_retries : Z) (h : history) :
  max_retries < 0 ->
  call_graph_with_retry W url max_retries h
  = (Ok JNull, [ECall url max_retries]).
Proof.
  intros Hm. unfold call_graph_with_retry, bind. cbn [emit].
  rewrite (py_range_nonpos (max_retries + 1)) by lia. reflexivity.
Qed.

Lemma negative_budget_makes_no_request_witness :
  let W := Script.in_turn [] (Success (Script.reply 200 None (JNum 1))) in
  call_graph_with_retry W (JStr (py "u")) (-1) []
  = (Ok JNull, [ECall (JStr (py "u")) (-1)]).
Proof.
  intros W.
  refine (negative_budget_makes_no_request W (JStr (py "u")) (-1) [] _). lia.
Defined.




(** X8: when the body of a response with a status below 400 does not parse,
    what [response.json()] raises decides: a [RequestException] is handled
    like a failed request (at the attempts 0 to 33: retried after a sleep of
    [2 ^ attempt] seconds, which the platform's timer takes, or raised on
    the attempt numbered [max_retries]); any other exception leaves the
    Caller at once, at any attempt. *)
Theorem undecodable_body (W : world) (url : json)
    (max_retries a : Z) (rest : list Z) (h : history) (r : response)
    (e : exn) :
  http_get W h (plain_get url) = Success r ->
  status_code r < 400 ->
  json_body r = Failure e ->
  (is_RequestException e = false ->
   retry_loop W url max_retries (a :: rest) h
   = (Raise e, [EGet (plain_get url)]))
  /\ (is_RequestException e = true -> 0 <= a <= 33 -> a = max_retries ->
      retry_loop W url max_retries (a :: rest) h
      = (Raise e, [EGet (plain_get url);
                   ELog ERROR (GraphFailed max_retries e)]))
  /\ (is_RequestException e = true -> 0 <= a <= 33 -> a <> max_retries ->
      timer_takes W (2 ^ a) ->
      retry_loop W url max_retries (a :: rest) h
      = (emits [EGet (plain_get url);
                ELog WARNING (RequestFailed e (2 ^ a));
                ESleep (2 ^ a)] ;;
         retry_loop W url max_retries rest) h).
Proof.
  intros Hget Hst Hjson. split; [|split].
  - intros Hreq. apply retry_loop_raise.
    exact (attempt_json_foreign W url max_retries a h r e Hget Hst Hjson Hreq).
  - intros Hreq Hlow ->. apply retry_loop_raise.
    apply (attempt_json_failed_last W url max_retries h r e Hget Hst Hjson Hreq).
    unfold SLEEP_MAX. lia.
  - intros Hreq Hlow Hne Ht. apply retry_loop_continue.
    rewrite <- backoff_pow in *.
    exact (attempt_json_failed_early W url max_retries a h r e
             Hget Hst Hjson Hreq Hne (proj2 Hlow) Ht).
Qed.

Lemma undecodable_body_witness :
  let r := {| status_code := 200; retry_after := None; content_type := None;
              text := py "<html>"; json_body := Failure ValueError;
              chunks := []; stream_error := None |} in
  let r' := {| status_code := 200; retry_after := None; content_type := None;
               text := py "<html>";
               json_body := Failure (RequestError (py "not JSON"));
               chunks := []; stream_error := None |} in
  let W := Script.in_turn [] (Success r) in
  let W' := Script.in_turn [] (Success r') in
  retry_loop W (JStr (py "u")) 3 [0; 1; 2; 3] []
  = (Raise ValueError, [EGet (plain_get (JStr (py "u")))])
  /\ retry_loop W' (JStr (py "u")) 3 [1; 2; 3] []
     = (emits [EGet (plain_get (JStr (py "u")));
               ELog WARNING (RequestFailed (RequestError (py "not JSON")) 2);
               ESleep 2] ;;
        retry_loop W' (JStr (py "u")) 3 [2; 3]) [].
Proof.
  intros r r' W W'. split.
  - refine (proj1 (undecodable_body W (JStr (py "u")) 3 0 [1; 2; 3] [] r
                     ValueError _ _ _) _).
    + reflexivity.
    + cbn. lia.
    + reflexivity.
    + reflexivity.
  - refine (proj2 (proj2 (undecodable_body W' (JStr (py "u")) 3 1 [2; 3] [] r'
                            (RequestError (py "not JSON")) _ _ _)) _ _ _ _).
    + reflexivity.
    + cbn. lia.
    + reflexivity.
    + reflexivity.
    + lia.
    + lia.
    + intros h'. reflexivity.
Defined.

(** ** The Paginator: one page, many pages, no end *)

(** X9: a listing whose first answer has no continuation link takes one call
    of the Caller, whatever the fuel; the result is the answer's [value], or
    the empty list when the answer has no [value]. *)
Theorem single_page_listing (W : world) (fuel : nat) (url : json)
    (h : history) (d : dict) (es : list event) :
  call_graph_with_retry W url MAX_RETRIES h = (Ok (JObj d), es) ->
  dict_lookup d nextLink = None ->
  call_graph_paginated W fuel url h
  = (Ok (dict_get d (py "value") (JArr [])), es)
  /\ calls es = [url]
  /\ (dict_lookup d (py "value") = None ->
      fst (call_graph_paginated W fuel url h) = Ok (JArr [])).
Proof.
  intros Hcall Hlast.
  assert (Hrun : call_graph_paginated W fuel url h
                 = (Ok (dict_get d (py "value") (JArr [])), es)).
  { unfold call_graph_paginated, bind. rewrite Hcall.
    assert (Hp : forall res h', paginate W fuel d res h' = (Ok res, [])).
    { intros res h'. destruct fuel; cbn [paginate]; unfold dict_mem;
        now rewrite Hlast. }
    rewrite Hp. now rewrite app_nil_r. }
  split; [exact Hrun|]. split.
  - pose proof (calls_call_graph_with_retry W url MAX_RETRIES h) as Hc.
    now rewrite Hcall in Hc.
  - intros Hv. rewrite Hrun. unfold dict_get. now rewrite Hv.
Qed.

Lemma single_page_listing_witness :
  let W := Script.in_turn []
             (Success (Script.reply 200 None (JObj [(py "other", JNum 1)]))) in
  fst (call_graph_paginated W 0 (JStr (py "u")) []) = Ok (JArr []).
Proof.
  intros W.
  refine (proj2 (proj2 (single_page_listing W 0 (JStr (py "u")) []
                          [(py "other", JNum 1)]
                          [ECall (JStr (py "u")) 3;
                           EGet (plain_get (JStr (py "u")))] _ _)) _);
    reflexivity.
Defined.

(** X10: when the retries of the first listing call run out on server-error
    and 429 responses (without [Retry-After], or with a whole number of at
    most 9223372036 seconds in it), and the platform's timer takes the
    sleeps asked for, the Paginator gets [None] from the Caller and fails on
    [data.get]: the listing ends with an [AttributeError], not with an error
    that names the HTTP failure. *)
Theorem exhausted_listing_raises_AttributeError (W : world) (fuel : nat)
    (url : json) (h : history) :
  (forall a, 0 <= a <= 3 -> timer_takes W (2 ^ a)) ->
  (forall h', exists r,
      http_get W h' (plain_get url) = Success r
      /\ (500 <= status_code r
          \/ (status_code r = 429
              /\ (retry_after r = None
                  \/ exists v n, retry_after r = Some v
                                 /\ int_of_str v = Some n
                                 /\ 0 <= n <= 9223372036
                                 /\ timer_takes W n)))) ->
  fst (call_graph_paginated W fuel url h) = Raise AttributeError
  /\ gets (snd (call_graph_paginated W fuel url h))
     = [plain_get url; plain_get url; plain_get url; plain_get url].
Proof.
  intros Ht Hall. unfold call_graph_paginated, bind.
  destruct (call_all_retryable W url MAX_RETRIES h) as (Hr & Hg).
  { unfold MAX_RETRIES. lia. }
  { exact Ht. }
  { exact Hall. }
  destruct (call_graph_with_retry W url MAX_RETRIES h) as [res es].
  cbn [fst snd] in *. subst res. cbn [raise fst snd].
  now rewrite app_nil_r.
Qed.

Lemma exhausted_listing_raises_AttributeError_witness :
  let W := Script.in_turn [] (Success (Script.reply 503 None JNull)) in
  fst (call_graph_paginated W 5 (JStr (py "u")) []) = Raise AttributeError
  /\ List.length (gets (snd (call_graph_paginated W 5 (JStr (py "u")) [])))
     = 4%nat.
Proof.
  intros W.
  destruct (exhausted_listing_raises_AttributeError W 5 (JStr (py "u")) [])
    as (Hr & Hg).
  - intros a _ h'. reflexivity.
  - intros h'. exists (Script.reply 503 None JNull). split.
    + subst W. cbn. now destruct (List.length (gets h')).
    + left. cbn. lia.
  - split; [exact Hr|]. now rewrite Hg.
Defined.

(** X11: an exception of the Caller while a continuation link is followed
    leaves the Paginator as it is; the records of the pages read before are
    not returned. *)
Theorem continuation_failure_loses_records (W : world) (fuel : nat)
    (url next : json) (h : history) (d1 : dict)
    (es1 es2 : list event) (e : exn) :
  (1 <= fuel)%nat ->
  call_graph_with_retry W url MAX_RETRIES h = (Ok (JObj d1), es1) ->
  dict_lookup d1 nextLink = Some next ->
  call_graph_with_retry W next MAX_RETRIES
    (h ++ es1 ++ [ELog INFO FetchingNextPage]) = (Raise e, es2) ->
  call_graph_paginated W fuel url h
  = (Raise e, es1 ++ [ELog INFO FetchingNextPage] ++ es2).
Proof.
  intros Hfuel H1 Hn1 H2.
  unfold call_graph_paginated, bind. rewrite H1.
  destruct fuel as [|fuel']; [lia|]. cbn [paginate].
  unfold dict_mem. rewrite Hn1. unfold bind. cbn [log emit].
  unfold dict_get at 1. rewrite Hn1. rewrite <- app_assoc, H2.
  reflexivity.
Qed.

Lemma continuation_failure_loses_records_witness :
  let p1 := JObj [(py "value", JArr [JNum 1]); (nextLink, JStr (py "P2"))] in
  let W := Script.in_turn [Success (Script.reply 200 None p1)]
                          (Failure (OSError (py "disk"))) in
  fst (call_graph_paginated W 1 (JStr (py "P1")) [])
  = Raise (OSError (py "disk")).
Proof.
  intros p1 W.
  rewrite (continuation_failure_loses_records W 1 (JStr (py "P1"))
             (JStr (py "P2")) []
             [(py "value", JArr [JNum 1]); (nextLink, JStr (py "P2"))]
             [ECall (JStr (py "P1")) 3; EGet (plain_get (JStr (py "P1")))]
             [ECall (JStr (py "P2")) 3; EGet (plain_get (JStr (py "P2")))]
             (OSError (py "disk"))); reflexivity.
Defined.

Section Chains.

Variable W : world.

Lemma paginate_follows fuel pages h d acc :
  follows W h d pages ->
  (List.length pages <= fuel)%nat ->
  paginate W fuel d (JArr acc) h
  = (Ok (JArr (acc ++ records_of pages)), events_of pages).
Proof.
  revert fuel h d acc.
  induction pages as [|[[d' recs] es] more IH]; intros fuel h d acc Hf Hfuel.
  - cbn [follows] in Hf. unfold records_of, events_of. cbn [flat_map].
    rewrite app_nil_r.
    destruct fuel; cbn [paginate]; unfold dict_mem; now rewrite Hf.
  - cbn [follows] in Hf. destruct Hf as (next & Hn & Hcall & Hv & Hmore).
    destruct fuel as [|fuel']; [cbn in Hfuel; lia|]. cbn [paginate].
    unfold dict_mem. rewrite Hn. unfold bind at 1. cbn [log emit].
    unfold dict_get at 1. rewrite Hn. unfold bind at 1. rewrite Hcall, Hv.
    cbn [list_extend py_iter]. unfold bind at 1. unfold bind at 1.
    cbn [ret]. rewrite !app_nil_r.
    replace ((h ++ [ELog INFO FetchingNextPage]) ++ es)
      with (h ++ ELog INFO FetchingNextPage :: es)
      by (now rewrite <- app_assoc).
    rewrite (IH fuel' _ d' (acc ++ recs) Hmore) by (cbn in Hfuel; lia).
    unfold records_of, events_of. cbn [flat_map fst snd].
    now rewrite <- !app_assoc.
Qed.

Lemma calls_events_of pages h d :
  follows W h d pages ->
  List.length (calls (events_of pages)) = List.length pages.
Proof.
  revert h d. induction pages as [|[[d' recs] es] more IH]; intros h d Hf.
  - reflexivity.
  - cbn [follows] in Hf. destruct Hf as (next & Hn & Hcall & Hv & Hmore).
    change (events_of ((d', recs, es) :: more))
      with ([ELog INFO FetchingNextPage] ++ es ++ events_of more).
    rewrite !calls_app, !length_app.
    pose proof (calls_call_graph_with_retry W next MAX_RETRIES
                  (h ++ [ELog INFO FetchingNextPage])) as Hc.
    rewrite Hcall in Hc. cbn [snd] in Hc. rewrite Hc.
    rewrite (IH _ d' Hmore). reflexivity.
Qed.

End Chains.

(** X12: for a listing of any number of pages, each but the last with a
    continuation link, [call_graph_paginated] returns the records of all the
    pages in the order in which the pages were received, and calls the
    Caller once for each page.  Fuel that covers the number of links is
    enough. *)
Theorem listing_concatenates_all_pages (W : world) (fuel : nat) (url : json)
    (h : history) (d : dict) (recs : list json) (es : list event)
    (pages : list (dict * list json * list event)) :
  call_graph_with_retry W url MAX_RETRIES h = (Ok (JObj d), es) ->
  dict_get d (py "value") (JArr []) = JArr recs ->
  follows W (h ++ es) d pages ->
  (List.length pages <= fuel)%nat ->
  call_graph_paginated W fuel url h
  = (Ok (JArr (recs ++ records_of pages)), es ++ events_of pages)
  /\ List.length (calls (snd (call_graph_paginated W fuel url h)))
     = S (List.length pages).
Proof.
  intros Hcall Hv Hf Hfuel.
  assert (Hrun : call_graph_paginated W fuel url h
                 = (Ok (JArr (recs ++ records_of pages)),
                    es ++ events_of pages)).
  { unfold call_graph_paginated, bind. rewrite Hcall, Hv.
    now rewrite (paginate_follows W fuel pages (h ++ es) d recs Hf Hfuel). }
  split; [exact Hrun|]. rewrite Hrun. cbn [snd]. rewrite calls_app, length_app.
  pose proof (calls_call_graph_with_retry W url MAX_RETRIES h) as Hc.
  rewrite Hcall in Hc. cbn [snd] in Hc. rewrite Hc.
  now rewrite (calls_events_of W pages (h ++ es) d Hf).
Qed.

Lemma listing_concatenates_all_pages_witness :
  let page (n : Z) (link : list (str * json)) :=
    JObj ((py "value", JArr [JNum n]) :: link) in
  let W := Script.in_turn
             [Success (Script.reply 200 None
                         (page 1 [(nextLink, JStr (py "P2"))]));
              Success (Script.reply 200 None
                         (page 2 [(nextLink, JStr (py "P3"))]))]
             (Success (Script.reply 200 None (page 3 []))) in
  fst (call_graph_paginated W 2 (JStr (py "P1")) [])
  = Ok (JArr [JNum 1; JNum 2; JNum 3])
  /\ List.length (calls (snd (call_graph_paginated W 2 (JStr (py "P1")) [])))
     = 3%nat.
Proof.
  intros page W.
  destruct (listing_concatenates_all_pages W 2 (JStr (py "P1")) []
              [(py "value", JArr [JNum 1]); (nextLink, JStr (py "P2"))]
              [JNum 1]
              [ECall (JStr (py "P1")) 3; EGet (plain_get (JStr (py "P1")))]
              [([(py "value", JArr [JNum 2]); (nextLink, JStr (py "P3"))],
                [JNum 2],
                [ECall (JStr (py "P2")) 3; EGet (plain_get (JStr (py "P2")))]);
               ([(py "value", JArr [JNum 3])],
                [JNum 3],
                [ECall (JStr (py "P3")) 3; EGet (plain_get (JStr (py "P3")))])])
    as [Hrun Hcalls].
  - reflexivity.
  - reflexivity.
  - cbn [follows]. exists (JStr (py "P2")).
    split; [reflexivity|]. split; [reflexivity|]. split; [reflexivity|].
    exists (JStr (py "P3")).
    split; [reflexivity|]. split; [reflexivity|]. split; reflexivity.
  - cbn. lia.
  - rewrite Hrun. split; [reflexivity | exact Hcalls].
Defined.

Section Endless.

Variable W : world.

Hypothesis always_more :
  forall u h', exists d es recs,
    call_graph_with_retry W u MAX_RETRIES h' = (Ok (JObj d), es)
    /\ dict_mem d nextLink = true
    /\ dict_get d (py "value") (JArr []) = JArr recs.

Lemma paginate_endless fuel d acc h :
  dict_mem d nextLink = true ->
  exists es', paginate W fuel d (JArr acc) h = (OutOfFuel, es')
              /\ List.length (calls es') = fuel.
Proof.
  revert d acc h. induction fuel as [|fuel IH]; intros d acc h Hd;
    cbn [paginate]; rewrite Hd; [exists []; split; reflexivity|].
  unfold bind at 1. cbn [log emit].
  destruct (always_more (dict_get d nextLink JNull)
              (h ++ [ELog INFO FetchingNextPage]))
    as (d' & es & recs & Hcall & Hd' & Hv).
  pose proof (calls_call_graph_with_retry W (dict_get d nextLink JNull)
                MAX_RETRIES (h ++ [ELog INFO FetchingNextPage])) as Hc.
  unfold bind at 1. rewrite Hcall in *. cbn [snd] in Hc. rewrite Hv.
  cbn [list_extend py_iter]. unfold bind at 1. unfold bind at 1. cbn [ret].
  destruct (IH d' (acc ++ recs)
              (((h ++ [ELog INFO FetchingNextPage]) ++ es) ++ [] ++ [])
              Hd') as (es' & -> & Hn).
  eexists. split; [reflexivity|].
  change (ELog INFO FetchingNextPage :: ?x)
    with ([ELog INFO FetchingNextPage] ++ x).
  rewrite !calls_app, !length_app, Hc, Hn. reflexivity.
Qed.

End Endless.

(** X13: the Paginator has no bound of its own.  When every answer of the
    Caller carries a continuation link, no amount of fuel lets
    [call_graph_paginated] return: with fuel for [n] links it has called the
    Caller [n + 1] times and is still in its loop. *)
Theorem endless_links_never_return (W : world) (fuel : nat) (url : json)
    (h : history) :
  (forall u h', exists d es recs,
     call_graph_with_retry W u MAX_RETRIES h' = (Ok (JObj d), es)
     /\ dict_mem d nextLink = true
     /\ dict_get d (py "value") (JArr []) = JArr recs) ->
  fst (call_graph_paginated W fuel url h) = OutOfFuel
  /\ List.length (calls (snd (call_graph_paginated W fuel url h))) = S fuel.
Proof.
  intros Hmore. unfold call_graph_paginated, bind.
  destruct (Hmore url h) as (d & es & recs & Hcall & Hd & Hv).
  pose proof (calls_call_graph_with_retry W url MAX_RETRIES h) as Hc.
  rewrite Hcall in *. cbn [snd] in Hc. rewrite Hv.
  destruct (paginate_endless W Hmore fuel d recs (h ++ es) Hd)
    as (es' & -> & Hn).
  cbn [fst snd]. split; [reflexivity|].
  rewrite calls_app, length_app, Hc, Hn. reflexivity.
Qed.

Lemma endless_links_never_return_witness :
  let d := [(py "value", JArr [JNum 1]); (nextLink, JStr (py "again"))] in
  let W := Script.in_turn [] (Success (Script.reply 200 None (JObj d))) in
  fst (call_graph_paginated W 7 (JStr (py "u")) []) = OutOfFuel
  /\ List.length (calls (snd (call_graph_paginated W 7 (JStr (py "u")) [])))
     = 8%nat.
Proof.
  intros d W.
  refine (endless_links_never_return W 7 (JStr (py "u")) [] _).
  intros u h'. exists d, [ECall u MAX_RETRIES; EGet (plain_get u)], [JNum 1].
  split; [|split; reflexivity].
  apply (call_returns_first W u MAX_RETRIES h' (Script.reply 200 None (JObj d))).
  - unfold MAX_RETRIES. lia.
  - subst W. cbn. now destruct (List.length (gets (h' ++ _))).
  - cbn. lia.
  - reflexivity.
Defined.

(** ** Kinds of events a computation can emit *)

Section EmitsOnly.

Context {A B : Type}.
Variable P : event -> Prop.

Lemma only_ret (a : A) : emits_only P (ret a).
Proof. intros h. constructor. Qed.

Lemma only_raise (e : exn) : emits_only P (@raise A e).
Proof. intros h. constructor. Qed.

Lemma only_bind (m : M A) (f : A -> M B) :
  emits_only P m -> (forall a, emits_only P (f a)) -> emits_only P (bind m f).
Proof.
  intros Hm Hf h. unfold bind. specialize (Hm h).
  destruct (m h) as [[a|e|] es]; cbn [snd] in *; try assumption.
  specialize (Hf a (h ++ es)). destruct (f a (h ++ es)) as [r es'].
  cbn [snd] in *. apply Forall_app. now split.
Qed.

Lemma only_try_except (m : M A) (catches : exn -> bool)
    (handler : exn -> M A) :
  emits_only P m -> (forall e, emits_only P (handler e)) ->
  emits_only P (try_except m catches handler).
Proof.
  intros Hm Hh h. unfold try_except. specialize (Hm h).
  destruct (m h) as [[a|e|] es]; cbn [snd] in *; try assumption.
  destruct (catches e); [|assumption].
  specialize (Hh e (h ++ es)). destruct (handler e (h ++ es)) as [r es'].
  cbn [snd] in *. apply Forall_app. now split.
Qed.

Lemma only_of_result (r : result A) : emits_only P (of_result r).
Proof. destruct r; intros h; constructor. Qed.

End EmitsOnly.

Section ExporterEmits.

Variable W : world.
Variable P : event -> Prop.

Hypothesis P_log : forall lvl msg, P (ELog lvl msg).
Hypothesis P_fs : forall op, P (EFs op).

Lemma only_log lvl msg : emits_only P (log lvl msg).
Proof. intros h. repeat constructor. apply P_log. Qed.

Lemma only_fs op : emits_only P (fs W op).
Proof.
  intros h. unfold fs. destruct (fs_apply W h op); repeat constructor;
    apply P_fs.
Qed.

Lemma only_with_open {A} p b (body : M A) :
  emits_only P body -> emits_only P (with_open W p b body).
Proof.
  intros Hb. unfold with_open. apply only_bind; [apply only_fs|].
  intros _ h. specialize (Hb h). destruct (body h) as [r es].
  pose proof (only_fs (CloseFile p) (h ++ es)) as Hc.
  destruct (fs W (CloseFile p) (h ++ es)) as [c es'].
  cbn [snd] in *. apply Forall_app. now split.
Qed.

Lemma only_write_chunks p cs : emits_only P (write_chunks W p cs).
Proof.
  induction cs as [|c cs IH]; cbn [write_chunks]; [apply only_ret|].
  apply only_bind; [apply only_fs | intros _; exact IH].
Qed.

Lemma only_raise_for_status r : emits_only P (raise_for_status r).
Proof.
  unfold raise_for_status.
  destruct (_ && _); [apply only_raise | apply only_ret].
Qed.

Lemma only_media_filename u r : emits_only P (media_filename W u r).
Proof.
  unfold media_filename. apply only_bind; [apply only_of_result|].
  intros parsed. destruct (_ || _); [|apply only_ret].
  destruct (str_in _ _); apply only_ret.
Qed.

(** What [download_media] does after its GET. *)
Lemma only_download_rest u out r :
  emits_only P
    (raise_for_status r ;;
     filename <- media_filename W u r ;;
     with_open W (path_join out filename) true
       (write_chunks W (path_join out filename) (chunks r) ;;
        match stream_error r with
        | Some e => raise e
        | None => ret tt
        end) ;;
     log INFO (DownloadedMedia filename) ;;
     ret filename).
Proof.
  apply only_bind; [apply only_raise_for_status | intros _].
  apply only_bind; [apply only_media_filename | intros f].
  apply only_bind.
  - apply only_with_open, only_bind; [apply only_write_chunks|].
    intros _. destruct (stream_error r); [apply only_raise | apply only_ret].
  - intros _. apply only_bind; [apply only_log | intros _; apply only_ret].
Qed.

End ExporterEmits.

Lemma gets_none es : Forall not_get es -> gets es = [].
Proof.
  induction 1 as [|ev es Hev _ IH]; [reflexivity|].
  unfold gets in *. cbn [flat_map]. rewrite IH.
  destruct ev; try reflexivity. contradiction.
Qed.

Section MediaTraffic.

Variable W : world.

(** One call of [download_media] issues one GET, for the media URL. *)
Lemma gets_download_media u out h :
  gets (snd (download_media W u out h)) = [stream_get u].
Proof.
  unfold download_media, try_except, download_try.
  unfold bind at 1. unfold session_get.
  destruct (http_get W h (stream_get u)) as [r|e].
  - pose proof (only_download_rest W not_get (fun _ _ => I) (fun _ => I)
                  u out r (h ++ [EGet (stream_get u)])) as Hrest.
    destruct ((raise_for_status r ;; _) (h ++ [EGet (stream_get u)]))
      as [[f|e|] es]; cbn [snd is_Exception] in *.
    + rewrite gets_app, (gets_none es Hrest). reflexivity.
    + unfold bind. cbn [log emit ret snd].
      rewrite !gets_app, (gets_none es Hrest). reflexivity.
    + rewrite gets_app, (gets_none es Hrest). reflexivity.
  - cbn [is_Exception]. unfold bind. cbn [log emit ret snd]. reflexivity.
Qed.

Lemma gets_rehome urls html out h :
  gets (snd (rehome W urls html out h))
  = map stream_get (filter (fun u => startswith u (py "http")) urls).
Proof.
  revert html h. induction urls as [|u rest IH]; intros html h;
    [reflexivity|].
  cbn [rehome filter]. destruct (startswith u (py "http")); [|apply IH].
  unfold bind. pose proof (gets_download_media u out h) as Hd.
  destruct (download_media_returns W u out h) as (f & es & Hret).
  rewrite Hret in *. cbn [snd] in Hd.
  destruct (negb (is_empty f)).
  - specialize (IH (str_replace html u f) (h ++ es)).
    destruct (rehome W rest _ out (h ++ es)) as [r es']. cbn [snd] in *.
    rewrite gets_app, Hd, IH. reflexivity.
  - specialize (IH html (h ++ es)).
    destruct (rehome W rest _ out (h ++ es)) as [r es']. cbn [snd] in *.
    rewrite gets_app, Hd, IH. reflexivity.
Qed.

Lemma rehome_no_remote urls html out h :
  forallb (fun u => negb (startswith u (py "http"))) urls = true ->
  rehome W urls html out h = (Ok html, []).
Proof.
  induction urls as [|u rest IH]; intros Hall; [reflexivity|].
  cbn [forallb] in Hall. apply andb_true_iff in Hall. destruct Hall as [Hu Hr].
  cbn [rehome]. apply negb_true_iff in Hu. rewrite Hu. exact (IH Hr).
Qed.

End MediaTraffic.

(** X14: [process_html_content] asks for every image source that starts
    with [http], once for each place where the pattern finds it: a URL that
    is referred to twice is fetched twice, and a source that does not start
    with [http] is not fetched. *)
Theorem one_download_per_reference (W : world) (html : str) (out : path)
    (h : history) :
  gets (snd (process_html_content W html out h))
  = map stream_get
        (filter (fun u => startswith u (py "http")) (img_urls html)).
Proof.
  unfold process_html_content, bind.
  pose proof (gets_rehome W (img_urls html) html out h) as Hg.
  destruct (rehome W (img_urls html) html out h) as [[html'|e|] es];
    cbn [snd] in *; try exact Hg.
  destruct (h2m_handle W html'); cbn [of_result ret raise snd];
    now rewrite app_nil_r.
Qed.

(** X15: a body none of whose image sources starts with [http] (relative
    paths, [data:] URIs, or no image at all) goes to the converter as it is;
    nothing is fetched, written or logged. *)
Theorem no_remote_image_no_traffic (W : world) (html : str) (out : path)
    (h : history) :
  forallb (fun u => negb (startswith u (py "http"))) (img_urls html) = true ->
  process_html_content W html out h = of_result (h2m_handle W html) h.
Proof.
  intros Hall. unfold process_html_content, bind.
  rewrite (rehome_no_remote W (img_urls html) html out h Hall).
  rewrite app_nil_r.
  destruct (h2m_handle W html); reflexivity.
Qed.

Lemma no_remote_image_no_traffic_witness :
  let W := Script.in_turn [] (Failure (RequestError [])) in
  let html := py "<p>x</p><img src='pics/a.png'><img src='data:image/png;base64,AA'>" in
  process_html_content W html [py "out"] [] = (Ok html, []).
Proof.
  intros W html.
  refine (no_remote_image_no_traffic W html [py "out"] [] _). reflexivity.
Defined.

(** ** Media files *)

Lemma str_eqb_eq a b : str_eqb a b = true -> a = b.
Proof.
  revert b. induction a as [|x a IH]; intros [|y b] H; try discriminate;
    [reflexivity|].
  cbn in H. apply andb_true_iff in H. destruct H as [Hxy Hab].
  apply Ascii.eqb_eq in Hxy. subst y. now rewrite (IH b Hab).
Qed.

Lemma split_on_no_sep sep cur s :
  chr_in sep s = false -> split_on sep cur s = [rev cur ++ s].
Proof.
  revert cur. induction s as [|c s IH]; intros cur Hs.
  - cbn. now rewrite app_nil_r.
  - apply chr_in_cons_false in Hs. destruct Hs as [Hc Hs].
    cbn [split_on]. rewrite Hc, (IH (c :: cur) Hs). cbn [rev].
    now rewrite <- app_assoc.
Qed.

(** A name without a slash that is neither empty nor a dot is one part. *)
Lemma path_join_single p name :
  chr_in "/" name = false -> name <> [] -> name <> py "." ->
  path_join p name = p ++ [name].
Proof.
  intros Hs Hne Hdot. unfold path_join, path_parts.
  rewrite (split_on_no_sep "/" [] name Hs). cbn [rev app filter].
  rewrite (is_empty_false name Hne).
  destruct (str_eqb name (py ".")) eqn:E; [|reflexivity].
  apply str_eqb_eq in E. contradiction.
Qed.

Section MediaFiles.

Variable W : world.

Lemma media_filename_pure u r h h' :
  media_filename W u r h = media_filename W u r h'.
Proof.
  unfold media_filename, bind.
  destruct (urlparse_path W u); cbn [of_result ret raise]; [|reflexivity].
  destruct (_ || _); [|reflexivity].
  destruct (str_in _ _); reflexivity.
Qed.

Lemma media_filename_nonempty u r h f es :
  media_filename W u r h = (Ok f, es) -> f <> [].
Proof.
  unfold media_filename, bind.
  destruct (urlparse_path W u) as [p|e]; cbn [of_result ret raise];
    [|discriminate].
  destruct (is_empty (basename p)) eqn:Ee; cbn [orb].
  - destruct (str_in (py "image/") _); cbn [ret]; intros [= <- _]; discriminate.
  - destruct (negb (chr_in "." (basename p))).
    + destruct (str_in (py "image/") _); cbn [ret]; intros [= <- _];
        discriminate.
    + cbn [ret]. intros [= <- _]. intros Hnil. now rewrite Hnil in Ee.
Qed.

Lemma download_try_nonempty u out h f es :
  download_try W u out h = (Ok f, es) -> f <> [].
Proof.
  unfold download_try. unfold bind at 1.
  destruct (session_get W (stream_get u) h) as [[r|e|] es0]; try discriminate.
  unfold bind at 1.
  destruct (raise_for_status r (h ++ es0)) as [[[]|e|] es1]; try discriminate.
  unfold bind at 1.
  destruct (media_filename W u r ((h ++ es0) ++ es1)) as [[name|e|] es2] eqn:En;
    try discriminate.
  apply media_filename_nonempty in En.
  unfold bind at 1.
  destruct (with_open W _ _ _ _) as [[[]|e|] es3]; try discriminate.
  unfold bind. cbn [log emit ret]. intros [= <- _]. exact En.
Qed.

Lemma download_http_error u out h r :
  http_get W h (stream_get u) = Success r ->
  400 <= status_code r < 600 ->
  download_media W u out h
  = (Ok [], [EGet (stream_get u);
             ELog ERROR (MediaFailed u (HTTPError (status_code r) (text r)))]).
Proof.
  intros Hget Hst.
  unfold download_media, try_except, download_try, bind, session_get,
    raise_for_status.
  rewrite Hget.
  replace (400 <=? status_code r) with true by (symmetry; apply Z.leb_le; lia).
  replace (status_code r <? 600) with true by (symmetry; apply Z.ltb_lt; lia).
  reflexivity.
Qed.

Lemma write_chunks_ok p cs h :
  (forall h' op, fs_apply W h' op = None) ->
  write_chunks W p cs h = (Ok tt, map (fun c => EFs (WriteData p c)) cs).
Proof.
  intros Hfs. revert h. induction cs as [|c cs IH]; intros h; [reflexivity|].
  cbn [write_chunks map]. unfold bind, fs. rewrite Hfs, IH. reflexivity.
Qed.

Lemma download_saved u out h r f :
  http_get W h (stream_get u) = Success r ->
  status_code r < 400 \/ 600 <= status_code r ->
  fst (media_filename W u r []) = Ok f ->
  (forall h' op, fs_apply W h' op = None) ->
  stream_error r = None ->
  download_media W u out h
  = (Ok f,
     [EGet (stream_get u); EFs (OpenWrite (path_join out f) true)]
     ++ map (fun c => EFs (WriteData (path_join out f) c)) (chunks r)
     ++ [EFs (CloseFile (path_join out f));
         ELog INFO (DownloadedMedia f)]).
Proof.
  intros Hget Hst Hname Hfs Hstream.
  assert (Hmf : forall h', media_filename W u r h' = (Ok f, [])).
  { intros h'. rewrite (media_filename_pure u r h' []).
    destruct (media_filename W u r []) as [res es] eqn:E.
    cbn [fst] in Hname. subst res. f_equal.
    revert E. unfold media_filename, bind.
    destruct (urlparse_path W u); cbn [of_result ret raise]; [|discriminate].
    destruct (_ || _); [destruct (str_in _ _)|]; cbn [ret];
      now intros [= _ <-]. }
  unfold download_media, try_except, download_try.
  unfold bind at 1. unfold session_get. rewrite Hget.
  unfold bind at 1. unfold raise_for_status.
  replace ((400 <=? status_code r) && (status_code r <? 600)) with false.
  2:{ symmetry. apply andb_false_iff. destruct Hst as [Hlo|Hhi];
        [left; apply Z.leb_gt; lia | right; apply Z.ltb_ge; lia]. }
  cbn [ret]. unfold bind at 1. rewrite Hmf.
  unfold bind at 1. unfold with_open. unfold bind at 1. unfold fs at 1.
  rewrite Hfs. unfold bind at 1. rewrite write_chunks_ok by exact Hfs.
  rewrite Hstream. cbn [ret]. unfold fs. rewrite Hfs.
  unfold bind. cbn [log emit ret]. rewrite !app_nil_r.
  cbn [app]. now rewrite <- !app_assoc.
Qed.

End MediaFiles.

(** X16: the name [download_media] returns is empty exactly when its [try]
    block raised; a name returned after a successful download is not empty
    and has no slash in it, so (unless it is a single dot) the file it names
    lies directly in the output directory. *)
Theorem empty_name_means_failure (W : world) (u : str) (out : path)
    (h : history) :
  exists f es,
    download_media W u out h = (Ok f, es)
    /\ chr_in "/" f = false
    /\ (f = [] <-> exists e es', download_try W u out h = (Raise e, es'))
    /\ (f <> [] -> f <> py "." -> path_join out f = out ++ [f]).
Proof.
  destruct (download_media_cases W u out h)
    as [(f & es & Htry & Hd) | (e & es & Htry & Hd)].
  - exists f, es. split; [exact Hd|].
    pose proof (download_try_no_slash W u out h f es Htry) as Hs.
    pose proof (download_try_nonempty W u out h f es Htry) as Hne.
    split; [exact Hs|]. split.
    + split; [intros Hnil; contradiction|].
      intros (e & es' & Hraise). rewrite Htry in Hraise. discriminate.
    + intros _ Hdot. now apply path_join_single.
  - eexists [], _. split; [exact Hd|]. split; [reflexivity|]. split.
    + split; [|reflexivity]. intros _. now exists e, es.
    + intros Hne. contradiction.
Qed.

(** X17: when the media GET is answered with a status in 400..599, the
    download is given up at once: the empty name is returned, the failure is
    logged, and no file is opened or written. *)
Theorem media_http_error_touches_no_file (W : world) (u : str) (out : path)
    (h : history) (r : response) :
  http_get W h (stream_get u) = Success r ->
  400 <= status_code r < 600 ->
  download_media W u out h
  = (Ok [], [EGet (stream_get u);
             ELog ERROR (MediaFailed u (HTTPError (status_code r) (text r)))]).
Proof. apply download_http_error. Qed.

Lemma media_http_error_touches_no_file_witness :
  let W := Script.in_turn [] (Success (Script.reply 403 None JNull)) in
  download_media W (py "https://ex.com/a.png") [py "out"] []
  = (Ok [], [EGet (stream_get (py "https://ex.com/a.png"));
             ELog ERROR (MediaFailed (py "https://ex.com/a.png")
                           (HTTPError 403 (py "body")))]).
Proof.
  intros W.
  refine (media_http_error_touches_no_file W (py "https://ex.com/a.png")
            [py "out"] [] (Script.reply 403 None JNull) _ _).
  - reflexivity.
  - cbn. lia.
Defined.

(** X18: when the media GET succeeds with a status outside 400..599, the
    stream ends without an error and the file system works, the file named
    by the derived file name is opened once in the output directory, receives
    the chunks of the response in their order, and is closed; the name is
    returned. *)
Theorem media_saved_in_chunk_order (W : world) (u : str) (out : path)
    (h : history) (r : response) (f : str) :
  http_get W h (stream_get u) = Success r ->
  status_code r < 400 \/ 600 <= status_code r ->
  fst (media_filename W u r []) = Ok f ->
  (forall h' op, fs_apply W h' op = None) ->
  stream_error r = None ->
  download_media W u out h
  = (Ok f,
     [EGet (stream_get u); EFs (OpenWrite (path_join out f) true)]
     ++ map (fun c => EFs (WriteData (path_join out f) c)) (chunks r)
     ++ [EFs (CloseFile (path_join out f));
         ELog INFO (DownloadedMedia f)]).
Proof. apply download_saved. Qed.

Lemma media_saved_in_chunk_order_witness :
  let r := Script.document [] [py "abc"; py "def"] in
  let W := Script.in_turn [] (Success r) in
  let p := [py "out"; py "a.png"] in
  download_media W (py "https://ex.com/a.png") [py "out"] []
  = (Ok (py "a.png"),
     [EGet (stream_get (py "https://ex.com/a.png"));
      EFs (OpenWrite p true);
      EFs (WriteData p (py "abc")); EFs (WriteData p (py "def"));
      EFs (CloseFile p); ELog INFO (DownloadedMedia (py "a.png"))]).
Proof.
  intros r W p.
  refine (media_saved_in_chunk_order W (py "https://ex.com/a.png") [py "out"]
            [] r (py "a.png") _ _ _ _ _).
  - reflexivity.
  - left. cbn. lia.
  - reflexivity.
  - reflexivity.
  - reflexivity.
Defined.

(** ** What the image pattern finds *)

Lemma greedy_inv {T} cls (k : str -> option T) s r :
  Re.greedy cls k s = Some r ->
  exists pre s', s = pre ++ s' /\ forallb cls pre = true /\ k s' = Some r.
Proof.
  induction s as [|c s IH]; cbn [Re.greedy]; intros H.
  - now exists [], [].
  - destruct (cls c) eqn:Hc.
    + destruct (Re.greedy cls k s) as [r0|] eqn:Hg.
      * injection H as ->. destruct (IH eq_refl) as (pre & s' & -> & Hp & Hk).
        exists (c :: pre), s'. cbn [forallb]. now rewrite Hc.
      * now exists [], (c :: s).
    + now exists [], (c :: s).
Qed.

Lemma firstn_prefix (x y : str) :
  firstn (List.length (x ++ y) - List.length y) (x ++ y) = x.
Proof.
  rewrite length_app.
  replace (List.length x + List.length y - List.length y)%nat
    with (List.length x + 0)%nat by lia.
  rewrite firstn_app_2. cbn [firstn]. apply app_nil_r.
Qed.

Lemma match_at_img s caps rest :
  Re.match_at img_pattern s = Some (caps, rest) ->
  exists u, caps = [u] /\ u <> [] /\ forallb not_quote u = true.
Proof.
  unfold Re.match_at, img_pattern. cbn [Re.rmatch]. intros H.
  destruct (startswith s (py "<img")); [|discriminate].
  destruct (skipn _ s) as [|c0 s0]; [discriminate|].
  destruct (not_gt c0); [|discriminate].
  apply greedy_inv in H. destruct H as (_ & s1 & _ & _ & H).
  destruct (startswith s1 (py "src=")); [|discriminate].
  destruct (skipn _ s1) as [|q s2]; [discriminate|].
  destruct (is_quote q); [|discriminate].
  destruct s2 as [|c2 s2']; [discriminate|].
  destruct (not_quote c2) eqn:Hc2; [|discriminate].
  apply greedy_inv in H. destruct H as (pre & s3 & Hs2 & Hpre & H).
  destruct s3 as [|q2 s4]; [discriminate|].
  destruct (is_quote q2); [|discriminate].
  apply greedy_inv in H. destruct H as (_ & s5 & _ & _ & H).
  destruct (startswith s5 (py ">")); [|discriminate].
  injection H as <- _. subst s2'.
  exists (c2 :: pre). split.
  - cbn [app]. f_equal.
    exact (firstn_prefix (c2 :: pre) (q2 :: s4)).
  - split; [discriminate|]. cbn [forallb]. now rewrite Hc2.
Qed.

Lemma finditer_img skip s caps :
  In caps (Re.finditer_from img_pattern skip s) ->
  exists u, caps = [u] /\ u <> [] /\ forallb not_quote u = true.
Proof.
  revert skip. induction s as [|c s IH]; intros skip; cbn [Re.finditer_from];
    [contradiction|].
  destruct skip as [|k]; [|apply IH].
  destruct (Re.match_at img_pattern (c :: s)) as [[caps' rest]|] eqn:E;
    [|apply IH].
  intros [<- | Hin]; [|exact (IH _ Hin)].
  exact (match_at_img _ _ _ E).
Qed.

(** X19: every image source that [process_html_content] takes from a body
    is a non-empty text without a single or double quote in it. *)
Theorem image_sources_are_quote_free (html u : str) :
  In u (img_urls html) -> u <> [] /\ forallb not_quote u = true.
Proof.
  unfold img_urls, Re.finditer. rewrite in_map_iff.
  intros (caps & <- & Hin).
  destruct (finditer_img 0 html caps Hin) as (u & -> & Hne & Hq).
  now split.
Qed.

Lemma image_sources_are_quote_free_witness :
  let u := py "https://ex.com/a.png?x=1>2" in
  u <> [] /\ forallb not_quote u = true.
Proof.
  intros u.
  refine (image_sources_are_quote_free
            (py "<p><img alt='x' src='https://ex.com/a.png?x=1>2'></p>") u _).
  cbn. now left.
Defined.

Lemma img_urls_clean html u :
  In u (img_urls html) -> u <> [] /\ forallb not_quote u = true.
Proof.
  unfold img_urls, Re.finditer. rewrite in_map_iff.
  intros (caps & <- & Hin).
  destruct (finditer_img 0 html caps Hin) as (u & -> & Hne & Hq).
  now split.
Qed.

(** ** A failed download and the text around it *)

Lemma startswith_length s p :
  startswith s p = true -> (List.length p <= List.length s)%nat.
Proof.
  revert s. induction p as [|c p IH]; intros s H; [cbn; lia|].
  destruct s as [|d s]; [discriminate|]. cbn in H.
  apply andb_true_iff in H. destruct H as [_ H].
  specialize (IH s H). cbn [List.length]. lia.
Qed.

(** No occurrence of [old] reaches across a character that [old] does not
    have: the text is replaced on either side of it. *)
Lemma replace_through old new a q r k :
  old <> [] -> chr_in q old = false -> (k <= List.length a)%nat ->
  replace_from old new k (a ++ q :: r)
  = replace_from old new k a ++ q :: replace_from old new 0 r.
Proof.
  intros Hne Hq. revert k. induction a as [|c a IH]; intros k Hk.
  - cbn [List.length] in Hk. replace k with O by lia. cbn [app replace_from].
    exact (replace_blocked_hd old new q r Hne Hq).
  - change ((c :: a) ++ q :: r) with (c :: (a ++ q :: r)).
    destruct k as [|k]; cbn [replace_from].
    + change (c :: (a ++ q :: r)) with ((c :: a) ++ q :: r).
      rewrite (startswith_blocked (c :: a) q r old Hq).
      destruct (startswith (c :: a) old) eqn:E.
      * apply startswith_length in E. cbn [List.length] in E.
        rewrite IH by lia. now rewrite app_assoc.
      * rewrite IH by lia. reflexivity.
    + apply IH. cbn [List.length] in Hk. lia.
Qed.

(** A text between two characters that [old] does not have, and in which
    [old] does not occur, is left as it is by [replace]. *)
Lemma replace_keeps_quoted old new a q u q' c :
  old <> [] -> chr_in q old = false -> chr_in q' old = false ->
  str_in old u = false ->
  str_replace (a ++ q :: u ++ q' :: c) old new
  = replace_from old new 0 a ++ q :: u ++ q' :: replace_from old new 0 c.
Proof.
  intros Hne Hq Hq' Hu. rewrite (str_replace_nonempty _ old new Hne).
  rewrite (replace_through old new a q (u ++ q' :: c) 0 Hne Hq) by lia.
  now rewrite (replace_blocked old new u q' c Hu Hq').
Qed.

Section FailedMedia.

Variable W : world.
Variables (out : path) (u : str) (q q' : ascii).

Hypothesis quotes : is_quote q = true /\ is_quote q' = true.

(** The loop over the image sources keeps [u] between its quotes as long as
    every source that occurs inside [u] fails to download. *)
Lemma rehome_keeps_failed urls :
  (forall v, In v urls -> v <> [] /\ forallb not_quote v = true) ->
  (forall v h', In v urls -> str_in v u = true ->
                fst (download_media W v out h') = Ok []) ->
  forall a c h, exists a' c' es,
    rehome W urls (a ++ q :: u ++ q' :: c) out h
    = (Ok (a' ++ q :: u ++ q' :: c'), es).
Proof.
  destruct quotes as [Hq Hq'].
  induction urls as [|v rest IH]; intros Hclean Hfail a c h.
  - now exists a, c, [].
  - assert (IH' : forall a c h, exists a' c' es,
              rehome W rest (a ++ q :: u ++ q' :: c) out h
              = (Ok (a' ++ q :: u ++ q' :: c'), es)).
    { apply IH.
      - intros v' Hin. apply Hclean. now right.
      - intros v' h' Hin. apply Hfail. now right. }
    cbn [rehome]. destruct (startswith v (py "http")); [|apply IH'].
    unfold bind.
    destruct (download_media_returns W v out h) as (f & es & Hd). rewrite Hd.
    destruct f as [|x f]; cbn [is_empty negb].
    + destruct (IH' a c (h ++ es)) as (a' & c' & es' & ->).
      now exists a', c', (es ++ es').
    + assert (Hout : str_in v u = false).
      { destruct (str_in v u) eqn:E; [|reflexivity].
        pose proof (Hfail v h (or_introl eq_refl) E) as Hv.
        rewrite Hd in Hv. discriminate. }
      destruct (Hclean v (or_introl eq_refl)) as [Hne Hnq].
      rewrite (replace_keeps_quoted v (x :: f) a q u q' c Hne
                 (not_quote_chr_in q v Hnq Hq) (not_quote_chr_in q' v Hnq Hq')
                 Hout).
      destruct (IH' (replace_from v (x :: f) 0 a) (replace_from v (x :: f) 0 c)
                    (h ++ es)) as (a' & c' & es' & ->).
      now exists a', c', (es ++ es').
Qed.

End FailedMedia.

(** C7 (as amended): [download_media] never raises.  From every history and
    for every URL it returns a file name; when anything in its [try] block
    raises (the GET, the status check, the URL parsing, opening or writing
    the file, the stream) the error is logged and the name returned is the
    empty text.  In [process_html_content] a download that returned the
    empty name replaces nothing, and the loop over the image sources itself
    always returns: the only exception that can leave
    [process_html_content] is one raised by the converter.  The URL of a
    failed download stays between its quotes in the text given to the
    converter provided every image source of the body that occurs inside it
    (the URL itself is one) fails to download; when all downloads fail the
    converter is given the body as it came. *)
Theorem download_media_never_raises (W : world) (u : str) (out : path)
    (h : history) :
  (exists f es, download_media W u out h = (Ok f, es))
  /\ (forall e es, download_try W u out h = (Raise e, es) ->
        download_media W u out h
        = (Ok [], es ++ [ELog ERROR (MediaFailed u e)]))
  /\ (forall es rest html,
        download_media W u out h = (Ok [], es) ->
        startswith u (py "http") = true ->
        rehome W (u :: rest) html out h
        = (emits es ;; rehome W rest html out) h)
  /\ (forall urls html,
        exists html' es, rehome W urls html out h = (Ok html', es))
  /\ (forall html a c q q',
        html = a ++ q :: u ++ q' :: c ->
        is_quote q = true -> is_quote q' = true ->
        (forall v h', In v (img_urls html) -> str_in v u = true ->
           fst (download_media W v out h') = Ok []) ->
        exists a' c',
          fst (process_html_content W html out h)
          = fst (of_result (h2m_handle W (a' ++ q :: u ++ q' :: c')) h))
  /\ (forall html,
        (forall u' h', In u' (img_urls html) ->
           fst (download_media W u' out h') = Ok []) ->
        fst (process_html_content W html out h)
        = fst (of_result (h2m_handle W html) h))
  /\ (forall html e,
        fst (process_html_content W html out h) = Raise e ->
        exists html', h2m_handle W html' = Failure e).
Proof.
  split; [apply download_media_returns|].
  split.
  { intros e es Htry.
    destruct (download_media_cases W u out h)
      as [(f & es' & H1 & _) | (e' & es' & H1 & H2)]; [congruence|].
    rewrite Htry in H1. now inversion H1; subst. }
  split.
  { intros es rest html Hd Hs.
    rewrite (rehome_failed_download W u rest html out h es Hd), Hs.
    reflexivity. }
  split; [intros urls html; apply rehome_returns|].
  split.
  { intros html a c q q' Hhtml Hq Hq' Hfail.
    unfold process_html_content, bind.
    destruct (rehome_keeps_failed W out u q q' (conj Hq Hq') (img_urls html)
                (img_urls_clean html) Hfail a c h) as (a' & c' & es & Hr).
    rewrite <- Hhtml in Hr. rewrite Hr. exists a', c'.
    destruct (h2m_handle W _); reflexivity. }
  split.
  { intros html Hall. unfold process_html_content, bind.
    pose proof (rehome_all_failed W (img_urls html) html out h Hall) as Hr.
    destruct (rehome W (img_urls html) html out h) as [r es].
    cbn [fst] in Hr. subst r.
    destruct (h2m_handle W html); reflexivity. }
  intros html e. unfold process_html_content, bind.
  destruct (rehome_returns W (img_urls html) html out h) as (html' & es & ->).
  intros Hraise. exists html'.
  destruct (h2m_handle W html') as [md|e']; cbn in Hraise; congruence.
Qed.

(** A body with two images: [b.png] is downloaded and its reference is
    rewritten; the download of [a.png?x=1] fails and its reference stays. *)
Lemma download_media_never_raises_witness :
  let u := py "http://h/a.png?x=1" in
  let v := py "http://h/b.png" in
  let html := py "<img src=" ++ dquote :: v ++ dquote :: py "><img src="
              ++ dquote :: u ++ dquote :: py ">" in
  let W := Script.by_url [(v, Script.document [] [py "data"])] in
  exists a' c',
    fst (process_html_content W html [py "out"] [])
    = fst (of_result (h2m_handle W (a' ++ dquote :: u ++ dquote :: c')) []).
Proof.
  intros u v html W.
  pose proof (proj1 (proj2 (proj2 (proj2 (proj2
                (download_media_never_raises W u [py "out"] []))))) html
                (py "<img src=" ++ dquote :: v ++ dquote :: py "><img src=")
                (py ">") dquote dquote) as H.
  assert (Hu : img_urls html = [v; u]) by (vm_compute; reflexivity).
  apply H.
  - reflexivity.
  - reflexivity.
  - reflexivity.
  - rewrite Hu. intros w h' [<- | [<- | []]] Hin.
    + vm_compute in Hin. discriminate Hin.
    + reflexivity.
Defined.

(** C7 (as stated) fails: the body refers to [http://h/a.png], whose
    download succeeds with the local name [a.png], and to
    [http://h/a.png?x=1], whose download fails.  Replacing the first URL
    everywhere also rewrites the beginning of the second: the converter is
    given [a.png?x=1], and the failed URL is no longer in the text. *)
Lemma failed_url_rewritten :
  let u1 := py "http://h/a.png" in
  let u2 := py "http://h/a.png?x=1" in
  let html := py "<img src=" ++ dquote :: u1 ++ dquote :: py "><img src="
              ++ dquote :: u2 ++ dquote :: py ">" in
  let html' := py "<img src=" ++ dquote :: py "a.png" ++ dquote
               :: py "><img src=" ++ dquote :: py "a.png?x=1" ++ dquote
               :: py ">" in
  let W := Script.by_url [(u1, Script.document [] [py "data"])] in
  img_urls html = [u1; u2]
  /\ fst (download_media W u1 [py "out"] []) = Ok (py "a.png")
  /\ fst (download_media W u2 [py "out"] []) = Ok []
  /\ fst (process_html_content W html [py "out"] []) = Ok html'
  /\ str_in u2 html' = false.
Proof. intros u1 u2 html html' W. repeat apply conj; vm_compute; reflexivity. Qed.

(** ** Pages: what is fetched and what is written *)

Section PageRuns.

Variable W : world.
Variable section_path : path.

Lemma export_page_no_id d h :
  dict_lookup d (py "id") = None ->
  export_page W (JObj d) section_path h
  = (Ok tt, [ELog ERROR (PageFailed (dict_get d (py "title")
                                              (JStr (py "Unknown")))
                           (KeyError (py "id")))]).
Proof.
  intros Hid. unfold export_page, try_except, export_page_try.
  unfold bind at 1. cbn [subscript]. rewrite Hid. cbn [raise is_Exception].
  reflexivity.
Qed.

Lemma export_page_http_error d h pid r :
  dict_lookup d (py "id") = Some pid ->
  http_get W h (html_get (content_url W pid)) = Success r ->
  400 <= status_code r < 600 ->
  export_page W (JObj d) section_path h
  = (Ok tt, [EGet (html_get (content_url W pid));
             ELog ERROR (PageFailed (dict_get d (py "title")
                                              (JStr (py "Unknown")))
                           (HTTPError (status_code r) (text r)))]).
Proof.
  intros Hid Hget Hst. unfold export_page, try_except, export_page_try.
  unfold bind at 1. cbn [subscript]. rewrite Hid. cbn [ret].
  unfold bind at 1. unfold session_get. fold (content_url W pid).
  rewrite app_nil_r, Hget.
  unfold bind at 1. unfold raise_for_status.
  replace (400 <=? status_code r) with true by (symmetry; apply Z.leb_le; lia).
  replace (status_code r <? 600) with true by (symmetry; apply Z.ltb_lt; lia).
  cbn [andb raise is_Exception]. reflexivity.
Qed.

Lemma sanitize_no_slash t : chr_in "/" (sanitize t) = false.
Proof.
  induction t as [|c t IH]; [reflexivity|].
  unfold sanitize in *. cbn [map]. rewrite chr_in_cons, IH, orb_false_r.
  destruct (illegal c) eqn:Ei; [reflexivity|].
  destruct (Ascii.eqb "/" c) eqn:E; [|reflexivity].
  apply Ascii.eqb_eq in E. subst c. discriminate.
Qed.

Lemma md_name_single p t :
  path_join p (sanitize t ++ py ".md") = p ++ [sanitize t ++ py ".md"].
Proof.
  apply path_join_single.
  - rewrite chr_in_app, sanitize_no_slash. reflexivity.
  - now destruct (sanitize t).
  - intros H. apply (f_equal (@List.length ascii)) in H.
    rewrite length_app in H. cbn in H. lia.
Qed.

Lemma export_page_written d h pid t r md es_p :
  dict_lookup d (py "id") = Some pid ->
  dict_get d (py "title") (JStr (py "Untitled")) = JStr t ->
  strip (sanitize t) <> [] ->
  http_get W h (html_get (content_url W pid)) = Success r ->
  status_code r < 400 \/ 600 <= status_code r ->
  process_html_content W (text r) section_path
    (h ++ [EGet (html_get (content_url W pid))]) = (Ok md, es_p) ->
  (forall h' op, fs_apply W h' op = None) ->
  let file := section_path ++ [sanitize t ++ py ".md"] in
  exists now,
    export_page W (JObj d) section_path h
    = (Ok tt,
       [EGet (html_get (content_url W pid))] ++ es_p
       ++ [EFs (OpenWrite file false);
           EFs (WriteData file (py "# " ++ t ++ nl ++ nl));
           EClock;
           EFs (WriteData file
                  (py "*Exported from OneNote on " ++ now ++ py "*"
                   ++ nl ++ nl));
           EFs (WriteData file (py "---" ++ nl ++ nl));
           EFs (WriteData file md);
           EFs (CloseFile file);
           ELog INFO (ExportedPage (JStr t))]).
Proof.
  intros Hid Ht Hstrip Hget Hst Hproc Hfs file.
  unfold export_page, try_except, export_page_try.
  unfold bind at 1. cbn [subscript]. rewrite Hid. cbn [ret].
  unfold bind at 1. unfold session_get. fold (content_url W pid).
  rewrite app_nil_r, Hget.
  unfold bind at 1. unfold raise_for_status.
  replace ((400 <=? status_code r) && (status_code r <? 600)) with false.
  2:{ symmetry. apply andb_false_iff. destruct Hst as [Hlo|Hhi];
        [left; apply Z.leb_gt; lia | right; apply Z.ltb_ge; lia]. }
  cbn [ret]. rewrite app_nil_r.
  unfold bind at 1. rewrite Hproc.
  unfold bind at 1. cbn [get_method ret]. rewrite Ht.
  unfold bind at 1. unfold page_stem. unfold bind at 1.
  cbn [re_sub_illegal ret]. rewrite (is_empty_false _ Hstrip). cbn [ret].
  rewrite md_name_single. fold file.
  unfold bind at 1. unfold with_open. unfold bind at 1. unfold fs at 1.
  rewrite Hfs.
  unfold bind at 1. unfold fs at 1. rewrite Hfs.
  unfold bind at 1. unfold clock at 1.
  unfold bind at 1. unfold fs at 1. rewrite Hfs.
  unfold bind at 1. unfold fs at 1. rewrite Hfs.
  unfold fs at 1. rewrite Hfs. unfold fs at 1. rewrite Hfs.
  cbn [fmt log emit].
  match goal with
  | |- context [strftime W ?hh] => exists (strftime W hh)
  end.
  rewrite !app_nil_r. cbn [app]. rewrite <- !app_assoc. cbn [app].
  reflexivity.
Qed.

End PageRuns.

(** X20: a page record without an [id] is given up before anything is
    fetched or written: the only event is the log line of the failure, with
    the [KeyError], and [export_page] returns. *)
Theorem page_without_id (W : world) (section_path : path) (d : dict)
    (h : history) :
  dict_lookup d (py "id") = None ->
  export_page W (JObj d) section_path h
  = (Ok tt, [ELog ERROR (PageFailed (dict_get d (py "title")
                                              (JStr (py "Unknown")))
                           (KeyError (py "id")))]).
Proof. apply export_page_no_id. Qed.

Lemma page_without_id_witness :
  let W := Script.in_turn [] (Success (Script.reply 200 None JNull)) in
  export_page W (JObj [(py "title", JStr (py "A"))]) [py "out"] []
  = (Ok tt, [ELog ERROR (PageFailed (JStr (py "A")) (KeyError (py "id")))]).
Proof.
  intros W.
  refine (page_without_id W [py "out"] [(py "title", JStr (py "A"))] [] _).
  reflexivity.
Defined.

(** X21: the content of a page is fetched with one plain GET, outside the
    Caller: a status in 400..599, a 429 or a 503 included, fails the page at
    once; nothing is slept, nothing is retried, no file is written. *)
Theorem content_error_is_not_retried (W : world) (section_path : path)
    (d : dict) (h : history) (pid : json) (r : response) :
  dict_lookup d (py "id") = Some pid ->
  http_get W h (html_get (content_url W pid)) = Success r ->
  400 <= status_code r < 600 ->
  export_page W (JObj d) section_path h
  = (Ok tt, [EGet (html_get (content_url W pid));
             ELog ERROR (PageFailed (dict_get d (py "title")
                                              (JStr (py "Unknown")))
                           (HTTPError (status_code r) (text r)))]).
Proof. apply export_page_http_error. Qed.

Lemma content_error_is_not_retried_witness :
  let W := Script.in_turn [Success (Script.reply 429 (Some (py "1")) JNull)]
                          (Success (Script.reply 200 None JNull)) in
  let url := py "https://graph.microsoft.com/v1.0/me/onenote/pages/p1/content" in
  export_page W (JObj [(py "id", JStr (py "p1"))]) [py "out"] []
  = (Ok tt, [EGet (html_get url);
             ELog ERROR (PageFailed (JStr (py "Unknown"))
                           (HTTPError 429 (py "body")))]).
Proof.
  intros W url.
  refine (content_error_is_not_retried W [py "out"]
            [(py "id", JStr (py "p1"))] [] (JStr (py "p1"))
            (Script.reply 429 (Some (py "1")) JNull) _ _ _).
  - reflexivity.
  - reflexivity.
  - cbn. lia.
Defined.

(** X22: when the content GET and the transformation succeed, the title is
    text that is not blank after the substitution, and the file system
    works, the page is written to [<substituted title>.md] directly in the
    section directory: the heading with the title as it came (not
    substituted), the line with the export time, the rule, and the converted
    body, in this order; then the export is logged.  A page without a title
    is written as [Untitled]. *)
Theorem page_file_layout (W : world) (section_path : path) (d : dict)
    (h : history) (pid : json) (t : str) (r : response) (md : str)
    (es_p : list event) :
  dict_lookup d (py "id") = Some pid ->
  dict_get d (py "title") (JStr (py "Untitled")) = JStr t ->
  strip (sanitize t) <> [] ->
  http_get W h (html_get (content_url W pid)) = Success r ->
  status_code r < 400 \/ 600 <= status_code r ->
  process_html_content W (text r) section_path
    (h ++ [EGet (html_get (content_url W pid))]) = (Ok md, es_p) ->
  (forall h' op, fs_apply W h' op = None) ->
  let file := section_path ++ [sanitize t ++ py ".md"] in
  exists now,
    export_page W (JObj d) section_path h
    = (Ok tt,
       [EGet (html_get (content_url W pid))] ++ es_p
       ++ [EFs (OpenWrite file false);
           EFs (WriteData file (py "# " ++ t ++ nl ++ nl));
           EClock;
           EFs (WriteData file
                  (py "*Exported from OneNote on " ++ now ++ py "*"
                   ++ nl ++ nl));
           EFs (WriteData file (py "---" ++ nl ++ nl));
           EFs (WriteData file md);
           EFs (CloseFile file);
           ELog INFO (ExportedPage (JStr t))]).
Proof. apply export_page_written. Qed.

Lemma page_file_layout_witness :
  let W := Script.in_turn [] (Success (Script.document (py "<p>hi</p>") [])) in
  let url := py "https://graph.microsoft.com/v1.0/me/onenote/pages/p1/content" in
  let file := [py "out"; py "a_b.md"] in
  exists now,
    export_page W (JObj [(py "id", JStr (py "p1"));
                         (py "title", JStr (py "a/b"))]) [py "out"] []
    = (Ok tt,
       [EGet (html_get url)] ++ []
       ++ [EFs (OpenWrite file false);
           EFs (WriteData file (py "# " ++ py "a/b" ++ nl ++ nl));
           EClock;
           EFs (WriteData file
                  (py "*Exported from OneNote on " ++ now ++ py "*"
                   ++ nl ++ nl));
           EFs (WriteData file (py "---" ++ nl ++ nl));
           EFs (WriteData file (py "<p>hi</p>"));
           EFs (CloseFile file);
           ELog INFO (ExportedPage (JStr (py "a/b")))]).
Proof.
  intros W url file.
  refine (page_file_layout W [py "out"]
            [(py "id", JStr (py "p1")); (py "title", JStr (py "a/b"))] []
            (JStr (py "p1")) (py "a/b")
            (Script.document (py "<p>hi</p>") []) (py "<p>hi</p>") []
            _ _ _ _ _ _ _).
  - reflexivity.
  - reflexivity.
  - discriminate.
  - reflexivity.
  - left. cbn. lia.
  - reflexivity.
  - reflexivity.
Defined.

Lemma dir_name_join p name :
  path_join p (sanitize name)
  = if is_empty (sanitize name) || str_eqb (sanitize name) (py ".")
    then p else p ++ [sanitize name].
Proof.
  unfold path_join, path_parts.
  rewrite (split_on_no_sep "/" [] (sanitize name) (sanitize_no_slash name)).
  cbn [rev app filter].
  destruct (is_empty (sanitize name) || str_eqb (sanitize name) (py "."));
    [apply app_nil_r | reflexivity].
Qed.

Lemma sanitize_clean_id s :
  forallb (fun c => negb (illegal c)) s = true -> sanitize s = s.
Proof.
  induction s as [|c s IH]; [reflexivity|]. cbn [forallb]. intros H.
  apply andb_true_iff in H. destruct H as [Hc Hs].
  unfold sanitize in *. cbn [map]. apply negb_true_iff in Hc.
  now rewrite Hc, (IH Hs).
Qed.

(** ** Names, as the walk uses them *)

Section NamesInUse.

Variable W : world.

(** The first thing [export_notebook] does to the file system is to make
    the directory named by the substituted display name. *)
Lemma export_notebook_mkdir fuel out d s h :
  dict_get d (py "displayName") (JStr (py "Untitled")) = JStr s ->
  exists r rest,
    export_notebook W fuel out (JObj d) h
    = (r, EFs (Mkdir (path_join out (sanitize s))) :: rest).
Proof.
  intros Hn. unfold export_notebook.
  unfold bind at 1. cbn [get_method ret]. rewrite Hn.
  unfold bind at 1. cbn [re_sub_illegal ret].
  unfold bind at 1. unfold fs at 1.
  destruct (fs_apply W _ _) as [e|].
  - now exists (Raise e), [].
  - destruct (bind _ _ _) as [r es']. now exists r, es'.
Qed.

Lemma export_section_mkdir fuel parent d s h :
  dict_get d (py "displayName") (JStr (py "Untitled")) = JStr s ->
  exists r rest,
    export_section W fuel parent (JObj d) h
    = (r, EFs (Mkdir (path_join parent (sanitize s))) :: rest).
Proof.
  intros Hn. unfold export_section.
  unfold bind at 1. cbn [get_method ret]. rewrite Hn.
  unfold bind at 1. cbn [re_sub_illegal ret].
  unfold bind at 1. unfold fs at 1.
  destruct (fs_apply W _ _) as [e|].
  - now exists (Raise e), [].
  - destruct (bind _ _ _) as [r es']. now exists r, es'.
Qed.

(** Once the content is fetched and transformed, the file [export_page]
    opens is the stem of the title followed by [.md], joined to the section
    directory. *)
Lemma export_page_try_opens sp d id s h r md es_p :
  dict_lookup d (py "id") = Some (JStr id) ->
  dict_get d (py "title") (JStr (py "Untitled")) = JStr s ->
  http_get W h (html_get (content_url W (JStr id))) = Success r ->
  status_code r < 400 \/ 600 <= status_code r ->
  process_html_content W (text r) sp
    (h ++ [EGet (html_get (content_url W (JStr id)))]) = (Ok md, es_p) ->
  let stem := if is_empty (strip (sanitize s))
              then py "page_" ++ firstn 8 id else sanitize s in
  exists res rest,
    export_page_try W (JObj d) sp h
    = (res, EGet (html_get (content_url W (JStr id))) :: es_p
            ++ EFs (OpenWrite (path_join sp (stem ++ py ".md")) false) :: rest).
Proof.
  intros Hid Ht Hget Hst Hproc stem.
  unfold export_page_try.
  unfold bind at 1. cbn [subscript]. rewrite Hid. cbn [ret].
  unfold bind at 1. unfold session_get. fold (content_url W (JStr id)).
  rewrite app_nil_r, Hget.
  unfold bind at 1. unfold raise_for_status.
  replace ((400 <=? status_code r) && (status_code r <? 600)) with false.
  2:{ symmetry. apply andb_false_iff. destruct Hst as [Hlo|Hhi];
        [left; apply Z.leb_gt; lia | right; apply Z.ltb_ge; lia]. }
  cbn [ret]. rewrite app_nil_r.
  unfold bind at 1. rewrite Hproc.
  unfold bind at 1. cbn [get_method ret]. rewrite Ht.
  unfold bind at 1.
  assert (Hstem : forall h', page_stem W (JStr s) (JStr id) h' = (Ok stem, [])).
  { intros h'. unfold page_stem, bind. cbn [re_sub_illegal ret]. subst stem.
    destruct (is_empty (strip (sanitize s))); reflexivity. }
  rewrite Hstem.
  unfold bind at 1. unfold with_open. unfold bind at 1. unfold fs at 1.
  destruct (fs_apply W _ (OpenWrite _ _)) as [e|].
  - exists (Raise e), []. reflexivity.
  - destruct (bind _ _ _) as [rb esb].
    destruct (fs W (CloseFile _) _) as [c esc].
    destruct rb as [[]|eb|], c as [[]|ec|]; cbn [log emit];
      eexists; eexists; cbn [app]; reflexivity.
Qed.

Lemma export_page_opens sp d id s h r md es_p :
  dict_lookup d (py "id") = Some (JStr id) ->
  dict_get d (py "title") (JStr (py "Untitled")) = JStr s ->
  http_get W h (html_get (content_url W (JStr id))) = Success r ->
  status_code r < 400 \/ 600 <= status_code r ->
  process_html_content W (text r) sp
    (h ++ [EGet (html_get (content_url W (JStr id)))]) = (Ok md, es_p) ->
  let stem := if is_empty (strip (sanitize s))
              then py "page_" ++ firstn 8 id else sanitize s in
  exists res rest,
    export_page W (JObj d) sp h
    = (res, EGet (html_get (content_url W (JStr id))) :: es_p
            ++ EFs (OpenWrite (path_join sp (stem ++ py ".md")) false) :: rest).
Proof.
  intros Hid Ht Hget Hst Hproc stem.
  destruct (export_page_try_opens sp d id s h r md es_p Hid Ht Hget Hst Hproc)
    as (res & rest & Htry).
  fold stem in Htry. unfold export_page, try_except. rewrite Htry.
  destruct res as [[]|e|].
  - now exists (Ok tt), rest.
  - cbn [is_Exception].
    destruct (export_page_except _ _ _) as [r' es'].
    exists r', (rest ++ es'). cbn [app]. now rewrite <- app_assoc.
  - now exists OutOfFuel, rest.
Qed.

End NamesInUse.

(** C3 (as amended): a path component is made by the substitution that puts
    an underscore in place of each of the nine characters of the class.  The
    result has none of these characters and the length of the input, so it
    is not empty when the input is not; an input made of illegal characters
    only gives that many underscores.  For a page title, a substituted
    title that is empty or white space is replaced by [page_] followed by
    the first 8 characters of the page id, which is not empty.  The walk
    uses these names and no others: the directory [export_notebook] makes
    for a notebook, and [export_section] for a section, is the substituted
    display name joined to the parent directory, and the file [export_page]
    opens for a page, once its content is fetched and transformed, is that
    stem followed by [.md], joined to the section directory. *)
Theorem sanitize_total (W : world) (s : str) :
  (forall c, In c (sanitize s) -> illegal c = false)
  /\ List.length (sanitize s) = List.length s
  /\ (s <> [] -> sanitize s <> [])
  /\ (forallb illegal s = true ->
      sanitize s = repeat "_"%char (List.length s))
  /\ (forall (id : str) (h : history),
       exists stem,
         page_stem W (JStr s) (JStr id) h = (Ok stem, [])
         /\ stem <> []
         /\ (strip (sanitize s) = [] -> stem = py "page_" ++ firstn 8 id)
         /\ (strip (sanitize s) <> [] -> stem = sanitize s))
  /\ (forall fuel out d h,
        dict_get d (py "displayName") (JStr (py "Untitled")) = JStr s ->
        exists r rest,
          export_notebook W fuel out (JObj d) h
          = (r, EFs (Mkdir (path_join out (sanitize s))) :: rest))
  /\ (forall fuel parent d h,
        dict_get d (py "displayName") (JStr (py "Untitled")) = JStr s ->
        exists r rest,
          export_section W fuel parent (JObj d) h
          = (r, EFs (Mkdir (path_join parent (sanitize s))) :: rest))
  /\ (forall sp d id h r md es_p,
        dict_lookup d (py "id") = Some (JStr id) ->
        dict_get d (py "title") (JStr (py "Untitled")) = JStr s ->
        http_get W h (html_get (content_url W (JStr id))) = Success r ->
        status_code r < 400 \/ 600 <= status_code r ->
        process_html_content W (text r) sp
          (h ++ [EGet (html_get (content_url W (JStr id)))]) = (Ok md, es_p) ->
        let stem := if is_empty (strip (sanitize s))
                    then py "page_" ++ firstn 8 id else sanitize s in
        exists res rest,
          export_page W (JObj d) sp h
          = (res, EGet (html_get (content_url W (JStr id))) :: es_p
                  ++ EFs (OpenWrite (path_join sp (stem ++ py ".md")) false)
                     :: rest)).
Proof.
  split; [apply sanitize_clean|].
  split; [apply sanitize_length|].
  split.
  { intros Hs Hnil. apply Hs. apply length_zero_iff_nil.
    rewrite <- sanitize_length, Hnil. reflexivity. }
  split; [apply sanitize_all_illegal|].
  split.
  { intros id h. unfold page_stem, bind. cbn [re_sub_illegal ret].
    destruct (strip (sanitize s)) as [|c t] eqn:E; cbn [is_empty slice8 ret fmt].
    - exists (py "page_" ++ firstn 8 id). repeat split.
      + discriminate.
      + intros H. now contradiction H.
    - exists (sanitize s). repeat split.
      + intros Hnil. rewrite Hnil in E. discriminate.
      + discriminate. }
  split; [intros fuel out d h; apply export_notebook_mkdir|].
  split; [intros fuel parent d h; apply export_section_mkdir|].
  intros sp d id h r md es_p. apply export_page_opens.
Qed.

(** A notebook, a section and a page that all carry the name [Q1: a/b?]:
    the directories are [Q1_ a_b_], the file is [Q1_ a_b_.md]. *)
Lemma sanitize_total_witness :
  let W := Script.in_turn [] (Success (Script.document (py "<p>hi</p>") [])) in
  let name := JStr (py "Q1: a/b?") in
  let url := py "https://graph.microsoft.com/v1.0/me/onenote/pages/p1/content" in
  (exists r rest,
     export_notebook W 0 [py "output"] (JObj [(py "displayName", name)]) []
     = (r, EFs (Mkdir [py "output"; py "Q1_ a_b_"]) :: rest))
  /\ (exists r rest,
       export_section W 0 [py "output"; py "nb"]
         (JObj [(py "displayName", name)]) []
       = (r, EFs (Mkdir [py "output"; py "nb"; py "Q1_ a_b_"]) :: rest))
  /\ (exists r rest,
       export_page W (JObj [(py "id", JStr (py "p1")); (py "title", name)])
         [py "output"; py "nb"; py "sec"] []
       = (r, EGet (html_get url) :: []
             ++ EFs (OpenWrite [py "output"; py "nb"; py "sec";
                                py "Q1_ a_b_.md"] false) :: rest)).
Proof.
  intros W name url.
  pose proof (sanitize_total W (py "Q1: a/b?")) as (_ & _ & _ & _ & _ & Hn & Hs & Hp).
  split; [|split].
  - apply (Hn 0%nat [py "output"] [(py "displayName", name)] []). reflexivity.
  - apply (Hs 0%nat [py "output"; py "nb"] [(py "displayName", name)] []).
    reflexivity.
  - apply (Hp [py "output"; py "nb"; py "sec"]
              [(py "id", JStr (py "p1")); (py "title", name)] (py "p1") []
              (Script.document (py "<p>hi</p>") []) (py "<p>hi</p>") []).
    + reflexivity.
    + reflexivity.
    + reflexivity.
    + left. cbn. lia.
    + reflexivity.
Defined.

(** C3 (as stated) fails: the title [???] consists of illegal characters
    only, and the file name is three underscores, not a name made from the
    page id. *)
Lemma all_illegal_title_no_fallback :
  let W := Script.in_turn [] (Failure (RequestError [])) in
  page_stem W (JStr (py "???")) (JStr (py "0123456789")) [] = (Ok (py "___"), [])
  /\ py "___" <> py "page_01234567".
Proof. split; [reflexivity | discriminate]. Qed.

Lemma sanitize_dot s : sanitize s = py "." -> s = py ".".
Proof.
  change (py ".") with ["."%char]. unfold sanitize.
  destruct s as [|c [|c' s]]; cbn [map]; intros H; try discriminate H.
  destruct (illegal c); [discriminate H | congruence].
Qed.

Lemma sanitize_dot_dot s : sanitize s = py ".." -> s = py "..".
Proof.
  change (py "..") with ["."%char; "."%char]. unfold sanitize.
  destruct s as [|c [|c' [|c'' s]]]; cbn [map]; intros H; try discriminate H.
  destruct (illegal c); [discriminate H|].
  destruct (illegal c'); [discriminate H | congruence].
Qed.

(** X23: where a name leads.  The file of a page whose title is not blank
    is an entry of the section directory, whatever the title.  The
    directory of a notebook or section is an entry of its parent for every
    name but three: the empty name and [.] give the parent itself, and [..]
    is kept as a path part of its own, so that the directory made is the one
    above the parent: a notebook of that name is exported outside the output
    directory. *)
Theorem only_dot_dot_leaves_the_directory (p : path) (name : str) :
  entry_of p (path_join p (sanitize name ++ py ".md"))
  /\ (name = [] \/ name = py "." -> path_join p (sanitize name) = p)
  /\ (name = py ".." -> path_join p (sanitize name) = p ++ [py ".."])
  /\ (name <> [] -> name <> py "." -> name <> py ".." ->
      entry_of p (path_join p (sanitize name))).
Proof.
  split; [|split; [|split]].
  - exists (sanitize name ++ py ".md"). split; [apply md_name_single|].
    assert (Hlen : (3 <= List.length (sanitize name ++ py ".md"))%nat)
      by (rewrite length_app; cbn; lia).
    repeat split.
    + intros H. rewrite H in Hlen. cbn in Hlen. lia.
    + intros H. rewrite H in Hlen. cbn in Hlen. lia.
    + intros H. rewrite H in Hlen. cbn in Hlen. lia.
    + now rewrite chr_in_app, sanitize_no_slash.
  - intros [-> | ->]; unfold path_join; cbn; apply app_nil_r.
  - intros ->. reflexivity.
  - intros Hne Hdot Hdd. rewrite dir_name_join.
    assert (Hs : sanitize name <> []).
    { intros H. apply Hne. apply length_zero_iff_nil.
      rewrite <- sanitize_length, H. reflexivity. }
    rewrite (is_empty_false _ Hs). cbn [orb].
    destruct (str_eqb (sanitize name) (py ".")) eqn:E.
    + apply str_eqb_eq in E. now apply sanitize_dot in E.
    + exists (sanitize name). repeat split.
      * exact Hs.
      * intros H. now apply sanitize_dot in H.
      * intros H. now apply sanitize_dot_dot in H.
      * apply sanitize_no_slash.
Qed.

(** A notebook named [..]: the directory made is [output/..]. *)
Example dot_dot_notebook :
  let W := Script.in_turn [] (Failure (RequestError [])) in
  exists r rest,
    export_notebook W 0 [py "output"]
      (JObj [(py "displayName", JStr (py ".."))]) []
    = (r, EFs (Mkdir [py "output"; py ".."]) :: rest).
Proof.
  intros W.
  exact (export_notebook_mkdir W 0 [py "output"]
           [(py "displayName", JStr (py ".."))] (py "..") [] eq_refl).
Qed.

(** X24: a name without any of the nine characters is left as it is, and
    substituting twice gives the same as substituting once. *)
Theorem sanitize_keeps_clean_names (s : str) :
  (forallb (fun c => negb (illegal c)) s = true -> sanitize s = s)
  /\ sanitize (sanitize s) = sanitize s.
Proof.
  split; [apply sanitize_clean_id|].
  apply sanitize_clean_id. apply forallb_forall. intros c Hc.
  now rewrite (sanitize_clean s c Hc).
Qed.

(** ** The walk: empty listings and failures above the page level *)

Section WalkRuns.

Variable W : world.
Variables (fuel : nat) (output_dir : path).

Let notebooks_url : json := JStr (graph ++ py "notebooks").

Lemma for_each_stops {A} (body : A -> M unit) pre x post h es_pre es_x e :
  for_each pre body h = (Ok tt, es_pre) ->
  body x (h ++ es_pre) = (Raise e, es_x) ->
  for_each (pre ++ x :: post) body h = (Raise e, es_pre ++ es_x).
Proof.
  revert h es_pre. induction pre as [|y pre IH]; intros h es_pre Hpre Hx.
  - cbn in Hpre. injection Hpre as <-. rewrite app_nil_r in Hx.
    cbn [app for_each]. unfold bind. now rewrite Hx.
  - cbn [app for_each] in *. unfold bind in *.
    destruct (body y h) as [[[]|e0|] es0]; try discriminate.
    destruct (for_each pre body (h ++ es0)) as [r1 es1] eqn:E1.
    injection Hpre as -> <-.
    rewrite app_assoc in Hx.
    rewrite (IH (h ++ es0) es1 E1 Hx). now rewrite app_assoc.
Qed.

Lemma export_notebooks_empty h es :
  call_graph_paginated W fuel notebooks_url (h ++ [ELog INFO FetchingNotebooks])
  = (Ok (JArr []), es) ->
  export_notebooks W fuel output_dir h
  = (Ok tt, [ELog INFO FetchingNotebooks] ++ es
            ++ [ELog INFO (FoundNotebooks 0)]).
Proof.
  intros Hlist. unfold export_notebooks, try_except.
  unfold bind at 1. cbn [log emit]. unfold bind at 1.
  fold notebooks_url. rewrite Hlist.
  unfold bind. cbn [py_len py_iter ret log emit for_each List.length].
  now rewrite !app_nil_r.
Qed.

Lemma export_notebooks_aborts h es pre nb post es_pre es_nb e :
  call_graph_paginated W fuel notebooks_url (h ++ [ELog INFO FetchingNotebooks])
  = (Ok (JArr (pre ++ nb :: post)), es) ->
  let h1 := h ++ [ELog INFO FetchingNotebooks] ++ es
            ++ [ELog INFO (FoundNotebooks (List.length (pre ++ nb :: post)))] in
  for_each pre (export_notebook W fuel output_dir) h1 = (Ok tt, es_pre) ->
  export_notebook W fuel output_dir nb (h1 ++ es_pre) = (Raise e, es_nb) ->
  export_notebooks W fuel output_dir h
  = (Raise e,
     [ELog INFO FetchingNotebooks] ++ es
     ++ [ELog INFO (FoundNotebooks (List.length (pre ++ nb :: post)))]
     ++ es_pre ++ es_nb ++ [ELog ERROR (ExportFailed e)]).
Proof.
  intros Hlist h1 Hpre Hnb. unfold export_notebooks, try_except.
  unfold bind at 1. cbn [log emit]. unfold bind at 1.
  fold notebooks_url. rewrite Hlist.
  unfold bind at 1. cbn [py_len ret]. unfold bind at 1. cbn [log emit].
  unfold bind at 1. cbn [py_iter ret].
  match goal with
  | |- context [for_each _ _ ?hh] =>
    replace hh with h1
      by (unfold h1; rewrite !app_nil_r, <- !app_assoc; reflexivity)
  end.
  rewrite (for_each_stops (export_notebook W fuel output_dir)
             pre nb post h1 es_pre es_nb e Hpre Hnb).
  cbn [is_Exception]. unfold bind. cbn [log emit raise].
  rewrite !app_nil_r. cbn [app]. rewrite <- !app_assoc. cbn [app].
  rewrite <- !app_assoc. reflexivity.
Qed.

End WalkRuns.

(** X25: when the listing of notebooks is empty, [export_notebooks] returns
    normally after that one listing; apart from the listing's own events it
    only logs: no directory is made and no file is written. *)
Theorem empty_account_exports_nothing (W : world) (fuel : nat)
    (output_dir : path) (h : history) (es : list event) :
  call_graph_paginated W fuel (JStr (graph ++ py "notebooks"))
    (h ++ [ELog INFO FetchingNotebooks]) = (Ok (JArr []), es) ->
  export_notebooks W fuel output_dir h
  = (Ok tt, [ELog INFO FetchingNotebooks] ++ es
            ++ [ELog INFO (FoundNotebooks 0)]).
Proof. apply export_notebooks_empty. Qed.

Lemma empty_account_exports_nothing_witness :
  let W := Script.by_url [(graph ++ py "notebooks", Script.listing [])] in
  let url := JStr (graph ++ py "notebooks") in
  export_notebooks W 0 [py "output"] []
  = (Ok tt, [ELog INFO FetchingNotebooks]
            ++ [ECall url 3; EGet (plain_get url)]
            ++ [ELog INFO (FoundNotebooks 0)]).
Proof.
  intros W url.
  refine (empty_account_exports_nothing W 0 [py "output"] []
            [ECall url 3; EGet (plain_get url)] _).
  reflexivity.
Defined.

(** X26: an exception that leaves the export of one notebook (a failed
    listing of its sections or of the pages of a section, a directory that
    cannot be made, a record without [id]) ends the whole walk: after the
    events of that notebook there is only the log line of the failure, the
    notebooks after it are not touched, and the exception is raised again. *)
Theorem notebook_failure_ends_the_walk (W : world) (fuel : nat)
    (output_dir : path) (h : history) (es : list event)
    (pre : list json) (nb : json) (post : list json)
    (es_pre es_nb : list event) (e : exn) :
  call_graph_paginated W fuel (JStr (graph ++ py "notebooks"))
    (h ++ [ELog INFO FetchingNotebooks])
  = (Ok (JArr (pre ++ nb :: post)), es) ->
  let h1 := h ++ [ELog INFO FetchingNotebooks] ++ es
            ++ [ELog INFO (FoundNotebooks (List.length (pre ++ nb :: post)))] in
  for_each pre (export_notebook W fuel output_dir) h1 = (Ok tt, es_pre) ->
  export_notebook W fuel output_dir nb (h1 ++ es_pre) = (Raise e, es_nb) ->
  export_notebooks W fuel output_dir h
  = (Raise e,
     [ELog INFO FetchingNotebooks] ++ es
     ++ [ELog INFO (FoundNotebooks (List.length (pre ++ nb :: post)))]
     ++ es_pre ++ es_nb ++ [ELog ERROR (ExportFailed e)]).
Proof. apply export_notebooks_aborts. Qed.

Lemma notebook_failure_ends_the_walk_witness :
  let nb1 := JObj [(py "id", JStr (py "n1"));
                   (py "displayName", JStr (py "A"))] in
  let nb2 := JObj [(py "id", JStr (py "n2"));
                   (py "displayName", JStr (py "B"))] in
  let W := Script.by_url
             [(graph ++ py "notebooks", Script.listing [nb1; nb2])] in
  fst (export_notebooks W 0 [py "output"] [])
  = Raise (RequestError (py "no route"))
  /\ writes (snd (export_notebooks W 0 [py "output"] [])) = [].
Proof.
  intros nb1 nb2 W.
  pose (url := JStr (graph ++ py "notebooks")).
  pose (surl := JStr (graph ++ py "notebooks/n1/sections")).
  rewrite (notebook_failure_ends_the_walk W 0 [py "output"] []
             [ECall url 3; EGet (plain_get url)] [] nb1 [nb2] []
             ([EFs (Mkdir [py "output"; py "A"]);
               ELog INFO (ProcessingNotebook (JStr (py "A")));
               ECall surl 3]
              ++ [EGet (plain_get surl);
                  ELog WARNING (RequestFailed (RequestError (py "no route")) 1);
                  ESleep 1;
                  EGet (plain_get surl);
                  ELog WARNING (RequestFailed (RequestError (py "no route")) 2);
                  ESleep 2;
                  EGet (plain_get surl);
                  ELog WARNING (RequestFailed (RequestError (py "no route")) 4);
                  ESleep 4;
                  EGet (plain_get surl);
                  ELog ERROR (GraphFailed 3 (RequestError (py "no route")))])
             (RequestError (py "no route"))).
  - split; reflexivity.
  - reflexivity.
  - reflexivity.
  - reflexivity.
Defined.

(** ** Outside the Caller nothing waits *)

Section Unguarded.

Variable W : world.

Let P_log : forall lvl msg, unguarded (ELog lvl msg) := fun _ _ => I.
Let P_fs : forall op, unguarded (EFs op) := fun _ => I.

Lemma unguarded_session_get rq : emits_only unguarded (session_get W rq).
Proof.
  intros h. unfold session_get.
  destruct (http_get W h rq); repeat constructor.
Qed.

Lemma unguarded_download_media u out :
  emits_only unguarded (download_media W u out).
Proof.
  unfold download_media. apply only_try_except.
  - unfold download_try.
    apply only_bind; [apply unguarded_session_get | intros r].
    exact (only_download_rest W unguarded P_log P_fs u out r).
  - intros e. apply only_bind; [apply (only_log unguarded P_log)|].
    intros _. apply only_ret.
Qed.

Lemma unguarded_rehome urls html out :
  emits_only unguarded (rehome W urls html out).
Proof.
  revert html. induction urls as [|u rest IH]; intros html;
    cbn [rehome]; [apply only_ret|].
  destruct (startswith u (py "http")); [|apply IH].
  apply only_bind; [apply unguarded_download_media | intros f].
  destruct (negb (is_empty f)); apply IH.
Qed.

Lemma unguarded_process html out :
  emits_only unguarded (process_html_content W html out).
Proof.
  unfold process_html_content.
  apply only_bind; [apply unguarded_rehome | intros; apply only_of_result].
Qed.

Lemma unguarded_get_method v k dflt :
  emits_only unguarded (get_method v k dflt).
Proof. destruct v; try apply only_raise. apply only_ret. Qed.

Lemma unguarded_export_page page section_path :
  emits_only unguarded (export_page W page section_path).
Proof.
  unfold export_page. apply only_try_except.
  - unfold export_page_try. apply only_bind.
    { destruct page; try apply only_raise. cbn [subscript].
      destruct (dict_lookup items (py "id"));
        [apply only_ret | apply only_raise]. }
    intros page_id.
    apply only_bind; [apply unguarded_session_get | intros r].
    apply only_bind;
      [apply (only_raise_for_status unguarded) | intros _].
    apply only_bind; [apply unguarded_process | intros md].
    apply only_bind; [apply unguarded_get_method | intros title].
    apply only_bind.
    { unfold page_stem. apply only_bind.
      - destruct title; try apply only_raise. apply only_ret.
      - intros safe. destruct (is_empty (strip safe)); [|apply only_ret].
        apply only_bind; [|intros; apply only_ret].
        destruct page_id; try apply only_raise; apply only_ret. }
    intros stem. apply only_bind.
    + apply (only_with_open W unguarded P_fs).
      apply only_bind; [apply (only_fs W unguarded P_fs) | intros _].
      apply only_bind; [intros h; repeat constructor | intros now].
      apply only_bind; [apply (only_fs W unguarded P_fs) | intros _].
      apply only_bind; [apply (only_fs W unguarded P_fs) | intros _].
      apply (only_fs W unguarded P_fs).
    + intros _. apply (only_log unguarded P_log).
  - intros e. unfold export_page_except.
    apply only_bind; [apply unguarded_get_method | intros shown].
    apply (only_log unguarded P_log).
Qed.

End Unguarded.

(** X27: the export of a page (its content GET, the downloads of its
    images, the file writes) never sleeps and never goes through
    [call_graph_with_retry]: whatever the world answers, the events of
    [export_page] hold no sleep and no entry into the Caller, so neither the
    backoff nor [Retry-After] applies to page content and media. *)
Theorem page_export_never_waits (W : world) (page : json)
    (section_path : path) (h : history) :
  sleeps (snd (export_page W page section_path h)) = []
  /\ calls (snd (export_page W page section_path h)) = [].
Proof.
  pose proof (unguarded_export_page W page section_path h) as Hu.
  induction Hu as [|ev es Hev _ [IHs IHc]]; [split; reflexivity|].
  unfold sleeps, calls in *. cbn [flat_map]. rewrite IHs, IHc.
  destruct ev; try contradiction; split; reflexivity.
Qed.

(** ** Authentication *)

Section AuthFacts.

Variable W : world.

Lemma get_token_success P tok0 tok tok' steps :
  Auth.get_token W P tok0 = (inr tok, tok', steps) -> tok' = tok.
Proof.
  unfold Auth.get_token.
  destruct (Auth.truthy tok0); [now intros [= <- <- _]|].
  destruct (Auth.new_app P); [|discriminate].
  destruct (Auth.initiate_device_flow P) as [flow|]; [|discriminate].
  destruct (negb _); [discriminate|].
  destruct (dict_lookup flow (py "message")); [|discriminate].
  destruct (Auth.acquire_token_by_device_flow P flow) as [res|];
    [|discriminate].
  destruct (dict_lookup res (py "access_token")); [|discriminate].
  now intros [= <- <- _].
Qed.

End AuthFacts.

(** X28: once [get_token] has returned a token that is truthy (a non-empty
    text), every later call returns the same token without a single step:
    the identity provider is not contacted again and the headers are not set
    again. *)
Theorem token_is_cached (W : world) (P P' : Auth.provider)
    (tok0 tok tok' : json) (steps : list Auth.step) :
  Auth.get_token W P tok0 = (inr tok, tok', steps) ->
  Auth.truthy tok = true ->
  Auth.get_token W P' tok' = (inr tok, tok', []).
Proof.
  intros Hrun Htruthy.
  rewrite (get_token_success W P tok0 tok tok' steps Hrun).
  unfold Auth.get_token. now rewrite Htruthy.
Qed.

Lemma token_is_cached_witness :
  let W := Script.in_turn [] (Failure (RequestError [])) in
  let P := {| Auth.new_app := Success tt;
              Auth.initiate_device_flow :=
                Success [(py "user_code", JStr (py "ABC123"));
                         (py "message", JStr (py "Go to the device page"))];
              Auth.acquire_token_by_device_flow :=
                fun _ => Success [(py "access_token", JStr (py "t0k"))] |} in
  let dead := {| Auth.new_app := Failure (OSError (py "offline"));
                 Auth.initiate_device_flow := Failure (OSError (py "offline"));
                 Auth.acquire_token_by_device_flow :=
                   fun _ => Failure (OSError (py "offline")) |} in
  Auth.get_token W dead (JStr (py "t0k"))
  = (inr (JStr (py "t0k")), JStr (py "t0k"), []).
Proof.
  intros W P dead.
  refine (token_is_cached W P dead JNull (JStr (py "t0k")) (JStr (py "t0k"))
            _ _ _); reflexivity.
Defined.

(** X29: when [get_token] fails, the exporter is left as it was: no token is
    stored, no header is set, and there was no usable token before the call
    (a call with a usable token cannot fail). *)
Theorem failed_authentication_sets_nothing (W : world) (P : Auth.provider)
    (tok0 tok' : json) (f : Auth.failure) (steps : list Auth.step) :
  Auth.get_token W P tok0 = (inl f, tok', steps) ->
  tok' = tok0
  /\ Auth.truthy tok0 = false
  /\ (forall hs, ~ In (Auth.SetHeaders hs) steps).
Proof.
  unfold Auth.get_token.
  destruct (Auth.truthy tok0); [discriminate|].
  destruct (Auth.new_app P).
  2:{ intros [= _ <- <-]. repeat split. intros hs [H|[]]. discriminate. }
  destruct (Auth.initiate_device_flow P) as [flow|].
  2:{ intros [= _ <- <-]. repeat split. intros hs [H|[H|[]]]; discriminate. }
  destruct (negb _).
  { intros [= _ <- <-]. repeat split. intros hs [H|[H|[]]]; discriminate. }
  destruct (dict_lookup flow (py "message")).
  2:{ intros [= _ <- <-]. repeat split.
      intros hs [H|[H|[H|[]]]]; discriminate. }
  destruct (Auth.acquire_token_by_device_flow P flow) as [res|].
  2:{ intros [= _ <- <-]. repeat split.
      intros hs [H|[H|[H|[H|[H|[]]]]]]; discriminate. }
  destruct (dict_lookup res (py "access_token")); [discriminate|].
  intros [= _ <- <-]. repeat split.
  intros hs [H|[H|[H|[H|[H|[]]]]]]; discriminate.
Qed.

Lemma failed_authentication_sets_nothing_witness :
  let W := Script.in_turn [] (Failure (RequestError [])) in
  let flow := [(py "user_code", JStr (py "ABC123"));
               (py "message", JStr (py "Go to the device page"))] in
  let P := {| Auth.new_app := Success tt;
              Auth.initiate_device_flow := Success flow;
              Auth.acquire_token_by_device_flow :=
                fun _ => Success [(py "error", JStr (py "access_denied"))] |} in
  fst (fst (Auth.get_token W P JNull))
  = inl (Auth.TokenNotAcquired (JStr (py "Unknown error")))
  /\ snd (fst (Auth.get_token W P JNull)) = JNull.
Proof.
  intros W flow P.
  destruct (failed_authentication_sets_nothing W P JNull
              (snd (fst (Auth.get_token W P JNull)))
              (Auth.TokenNotAcquired (JStr (py "Unknown error")))
              (snd (Auth.get_token W P JNull))
              eq_refl) as (H1 & _ & _).
  split; [reflexivity | exact H1].
Defined.

(** X30: the identity provider is asked for the token only for a flow that
    has a truthy [user_code] and a [message], and only after that message
    was printed for the operator. *)
Theorem token_is_polled_after_the_message (W : world) (P : Auth.provider)
    (tok0 tok' : json) (res : Auth.failure + json) (steps : list Auth.step)
    (flow : dict) :
  Auth.get_token W P tok0 = (res, tok', steps) ->
  In (Auth.Acquire flow) steps ->
  Auth.truthy (dict_get flow (py "user_code") JNull) = true
  /\ exists msg rest,
       dict_lookup flow (py "message") = Some msg
       /\ steps = [Auth.NewApp; Auth.Initiate; Auth.LogAuthenticate;
                   Auth.Print msg; Auth.Acquire flow] ++ rest.
Proof.
  unfold Auth.get_token.
  destruct (Auth.truthy tok0); [intros [= _ _ <-] []|].
  destruct (Auth.new_app P).
  2:{ intros [= _ _ <-] [H|[]]. discriminate. }
  destruct (Auth.initiate_device_flow P) as [flow0|].
  2:{ intros [= _ _ <-] [H|[H|[]]]; discriminate. }
  destruct (negb _) eqn:Ecode.
  { intros [= _ _ <-] [H|[H|[]]]; discriminate. }
  apply negb_false_iff in Ecode.
  destruct (dict_lookup flow0 (py "message")) as [msg|] eqn:Emsg.
  2:{ intros [= _ _ <-] [H|[H|[H|[]]]]; discriminate. }
  assert (Hin : forall rest,
            In (Auth.Acquire flow)
               ([Auth.NewApp; Auth.Initiate; Auth.LogAuthenticate;
                 Auth.Print msg; Auth.Acquire flow0] ++ rest) ->
            (forall x, In x rest -> x <> Auth.Acquire flow) ->
            flow = flow0).
  { intros rest [H|[H|[H|[H|[H|H]]]]] Hrest; try discriminate.
    - now injection H.
    - exfalso. exact (Hrest _ H eq_refl). }
  destruct (Auth.acquire_token_by_device_flow P flow0) as [r|].
  2:{ intros [= _ _ <-] H.
      rewrite (Hin [] H (fun _ F => match F with end)).
      split; [exact Ecode|]. now exists msg, []. }
  destruct (dict_lookup r (py "access_token")) as [tok|].
  - intros [= _ _ <-] H.
    assert (flow = flow0) as ->.
    { apply (Hin _ H). intros x [<-|[<-|[]]]; discriminate. }
    split; [exact Ecode|]. now eexists msg, _.
  - intros [= _ _ <-] H.
    rewrite (Hin [] H (fun _ F => match F with end)).
    split; [exact Ecode|]. now exists msg, [].
Qed.

Lemma token_is_polled_after_the_message_witness :
  let W := Script.in_turn [] (Failure (RequestError [])) in
  let flow := [(py "user_code", JStr (py "ABC123"));
               (py "message", JStr (py "Go to the device page"))] in
  Auth.truthy (dict_get flow (py "user_code") JNull) = true.
Proof.
  intros W flow.
  pose (P := {| Auth.new_app := Success tt;
                Auth.initiate_device_flow := Success flow;
                Auth.acquire_token_by_device_flow :=
                  fun _ => Success [(py "access_token", JStr (py "t0k"))] |}).
  refine (proj1 (token_is_polled_after_the_message W P JNull
                   (JStr (py "t0k")) (inr (JStr (py "t0k")))
                   [Auth.NewApp; Auth.Initiate; Auth.LogAuthenticate;
                    Auth.Print (JStr (py "Go to the device page"));
                    Auth.Acquire flow;
                    Auth.SetHeaders (Auth.bearer_headers W (JStr (py "t0k")));
                    Auth.LogAuthenticated]
                   flow eq_refl _)).
  cbn. tauto.
Defined.
